(** * CMS protocol layer (package [protocol]): a shallow embedding

    The Go file [protocol/protocol.go] implements the low level CMS
    (RFC 5652) types: [ContentInfo], [EncapsulatedContentInfo],
    [Attribute], [SignerInfo] and [SignedData], together with the
    signing pipeline [SignedData.AddSignerInfo].

    Conventions of the embedding.
    - A Go [[]byte] is a [list Z] of values in [0, 256).  Where the
      source tests a slice against [nil] the slice is an [option]:
      [None] is the nil slice, [Some []] an empty, non-nil one.
    - A Go function returning [(T, error)] returns a [result T].
    - [SignedData.AddSignerInfo] mutates its receiver and may fail half
      way: it is a function from the aggregate to an outcome paired with
      the aggregate as the call left it.
    - The calls into [encoding/asn1] are modelled in [Module asn1], for
      the Go types the source passes to them. *)

From Stdlib Require Import ZArith List Bool Lia Ascii.
From stdpp Require Import base strings pretty gmap list.
Import ListNotations.

Local Open Scope string_scope.
Local Open Scope list_scope.
Local Open Scope Z_scope.

(** ** Bytes, errors and results *)

Abbreviation bytes := (list Z).

(** Go's [byte(x)] conversion of an [int]. *)
Definition byte_of (x : Z) : Z := x mod 256.

(** [len(s)] as a Go [int]. *)
Definition len {A} (l : list A) : Z := Z.of_nat (length l).

(** A possibly nil slice read as its elements: a nil slice has none. *)
Definition elems {A} (s : option (list A)) : list A :=
  match s with Some l => l | None => [] end.

(** [bytes.Equal]: the same length and the same bytes; a nil slice
    equals an empty one. *)
Fixpoint bytes_Equal (a b : bytes) : bool :=
  match a, b with
  | [], [] => true
  | x :: a', y :: b' => (x =? y) && bytes_Equal a' b'
  | _, _ => false
  end.

(** The error values of the package and of [encoding/asn1].
    [Errorf fmt args] stands for [fmt.Errorf(fmt, args...)]. *)
Inductive error : Type :=
  | ErrorString (msg : string)
  | Errorf (fmt : string) (args : list Z)
  | ErrorfS (fmt : string) (arg : string)
  | ErrWrongType
  | ErrUnsupportedContentType
  | SyntaxError (msg : string)
  | StructuralError (msg : string).

Inductive result (A : Type) : Type :=
  | Ok (a : A)
  | Err (e : error).
Arguments Ok {A} a.
Arguments Err {A} e.

Definition bind {A B} (r : result A) (k : A -> result B) : result B :=
  match r with
  | Ok a => k a
  | Err e => Err e
  end.

Notation "'let*' x ':=' r 'in' k" := (bind r (fun x => k))
  (at level 10, x pattern, r at level 100, k at level 200).


(** ** [encoding/asn1]: the DER subset the package calls *)

Module asn1.

Definition ClassUniversal : Z := 0.
Definition ClassContextSpecific : Z := 2.

Definition TagInteger : Z := 2.
Definition TagOctetString : Z := 4.
Definition TagOID : Z := 6.
Definition TagSequence : Z := 16.
Definition TagSet : Z := 17.

(** [asn1.ObjectIdentifier] is a [[]int]. *)
Abbreviation ObjectIdentifier := (list Z).

(** [ObjectIdentifier.Equal]: same length, same arcs. *)
Fixpoint Equal (oi other : ObjectIdentifier) : bool :=
  match oi, other with
  | [], [] => true
  | x :: oi', y :: other' => (x =? y) && Equal oi' other'
  | _, _ => false
  end.

(** [ObjectIdentifier.String]: the arcs in decimal, joined by dots. *)
Definition String (oi : ObjectIdentifier) : string :=
  String.concat "." (map (pretty : Z -> string) oi).

Record RawValue : Type := {
  Class : Z;
  Tag : Z;
  IsCompound : bool;
  Bytes : option bytes;
  FullBytes : bytes
}.

(** The zero [RawValue]: an absent OPTIONAL field. *)
Definition zeroRawValue : RawValue :=
  {| Class := 0; Tag := 0; IsCompound := false;
     Bytes := None; FullBytes := [] |}.

Record tagAndLength : Type := {
  tl_class : Z;
  tl_tag : Z;
  tl_length : Z;
  tl_isCompound : bool
}.

Definition MaxInt32 : Z := 2147483647.

(** [parseBase128Int], from the offset of the first byte of [bs];
    the bytes left after the integer are returned in place of the
    new offset. *)
Fixpoint parseBase128Int_loop (shifted ret64 : Z) (bs : bytes)
  : result (Z * bytes) :=
  match bs with
  | [] => Err (SyntaxError "truncated base 128 integer")
  | b :: rest =>
      if shifted =? 5 then
        Err (StructuralError "base 128 integer too large")
      else
        let ret64 := Z.shiftl ret64 7 in
        if (shifted =? 0) && (b =? 128) then
          Err (SyntaxError "integer is not minimally encoded")
        else
          let ret64 := Z.lor ret64 (Z.land b 127) in
          if Z.land b 128 =? 0 then
            if ret64 >? MaxInt32 then
              Err (StructuralError "base 128 integer too large")
            else Ok (ret64, rest)
          else parseBase128Int_loop (shifted + 1) ret64 rest
  end.

Definition parseBase128Int (bs : bytes) : result (Z * bytes) :=
  parseBase128Int_loop 0 0 bs.

(** The long form length octets of [parseTagAndLength]. *)
Fixpoint parseLength_loop (numBytes : nat) (length : Z) (bs : bytes)
  : result (Z * bytes) :=
  match numBytes with
  | O => Ok (length, bs)
  | S n =>
      match bs with
      | [] => Err (SyntaxError "truncated tag or length")
      | b :: rest =>
          if length >=? 8388608 then
            Err (StructuralError "length too large")
          else
            let length := Z.lor (Z.shiftl length 8) b in
            if length =? 0 then
              Err (StructuralError "superfluous leading zeros in length")
            else parseLength_loop n length rest
      end
  end.

Definition parseTagAndLength (bs : bytes)
  : result (tagAndLength * bytes) :=
  match bs with
  | [] => Err (ErrorString "asn1: internal error in parseTagAndLength")
  | b :: rest =>
      let class := Z.shiftr b 6 in
      let isCompound := Z.land b 32 =? 32 in
      let tag := Z.land b 31 in
      let* (tag, rest) :=
        (if tag =? 31 then
           let* (t, r) := parseBase128Int rest in
           if t <? 31 then Err (SyntaxError "non-minimal tag")
           else Ok (t, r)
         else Ok (tag, rest)) in
      match rest with
      | [] => Err (SyntaxError "truncated tag or length")
      | b :: rest =>
          if Z.land b 128 =? 0 then
            Ok ({| tl_class := class; tl_tag := tag;
                   tl_length := Z.land b 127;
                   tl_isCompound := isCompound |}, rest)
          else
            let numBytes := Z.land b 127 in
            if numBytes =? 0 then
              Err (SyntaxError "indefinite length found (not DER)")
            else
              let* (length, rest) :=
                parseLength_loop (Z.to_nat numBytes) 0 rest in
              if length <? 128 then
                Err (StructuralError "non-minimal length")
              else
                Ok ({| tl_class := class; tl_tag := tag;
                       tl_length := length;
                       tl_isCompound := isCompound |}, rest)
      end
  end.

(** [asn1.Unmarshal(b, &rv)] for [rv] an [asn1.RawValue]: one TLV is
    read, [rv.Bytes] is its content, [rv.FullBytes] the whole TLV,
    and the bytes after it are returned. *)
Definition UnmarshalRawValue (bs : bytes) : result (RawValue * bytes) :=
  match bs with
  | [] => Err (SyntaxError "sequence truncated")
  | _ =>
      let* (t, rest) := parseTagAndLength bs in
      if len rest <? tl_length t then Err (SyntaxError "data truncated")
      else
        let n := Z.to_nat (tl_length t) in
        let hdr := (length bs - length rest)%nat in
        Ok ({| Class := tl_class t; Tag := tl_tag t;
               IsCompound := tl_isCompound t;
               Bytes := Some (firstn n rest);
               FullBytes := firstn (hdr + n) bs |}, skipn n rest)
  end.

(** *** Decoding the integers and structs the package reads *)

(** [checkInteger]: DER integers are not empty and minimally encoded. *)
Definition checkInteger (bs : bytes) : result unit :=
  match bs with
  | [] => Err (StructuralError "empty integer")
  | [_] => Ok tt
  | b0 :: b1 :: _ =>
      if ((b0 =? 0) && (Z.land b1 128 =? 0))
         || ((b0 =? 255) && (Z.land b1 128 =? 128))
      then Err (StructuralError "integer not minimally-encoded")
      else Ok tt
  end.

(** [big.Int.SetBytes]: a big-endian unsigned integer. *)
Definition SetBytes (bs : bytes) : Z :=
  fold_left (fun acc b => acc * 256 + b) bs 0.

(** [parseBigInt]: two's complement, big-endian. *)
Definition parseBigInt (bs : bytes) : result Z :=
  let* _ := checkInteger bs in
  match bs with
  | b0 :: _ =>
      if Z.land b0 128 =? 128 then
        let notBytes := map (fun b => byte_of (Z.lnot b)) bs in
        Ok (- (SetBytes notBytes + 1))
      else Ok (SetBytes bs)
  | [] => Ok 0
  end.

(** *** Encoding *)

Fixpoint base128IntLength_loop (fuel : nat) (i l : Z) : Z :=
  match fuel with
  | O => l
  | S f =>
      if i >? 0 then base128IntLength_loop f (Z.shiftr i 7) (l + 1)
      else l
  end.

(** [base128IntLength]: an [int64] is exhausted after ten shifts
    by seven. *)
Definition base128IntLength (n : Z) : Z :=
  if n =? 0 then 1 else base128IntLength_loop 10 n 0.

(** The loop of [appendBase128Int], [i] running from [k - 1] down
    to [0]. *)
Fixpoint appendBase128Int_loop (k : nat) (dst : bytes) (n : Z) : bytes :=
  match k with
  | O => dst
  | S i =>
      let o := Z.land (byte_of (Z.shiftr n (Z.of_nat i * 7))) 127 in
      let o := if negb (Z.of_nat i =? 0) then Z.lor o 128 else o in
      appendBase128Int_loop i (dst ++ [o]) n
  end.

Definition appendBase128Int (dst : bytes) (n : Z) : bytes :=
  appendBase128Int_loop (Z.to_nat (base128IntLength n)) dst n.

Fixpoint lengthLength_loop (fuel : nat) (i numBytes : Z) : Z :=
  match fuel with
  | O => numBytes
  | S f =>
      if i >? 255 then lengthLength_loop f (Z.shiftr i 8) (numBytes + 1)
      else numBytes
  end.

(** [lengthLength]: an [int] is at most 255 after eight shifts by
    eight. *)
Definition lengthLength (i : Z) : Z := lengthLength_loop 8 i 1.

Fixpoint appendLength_loop (n : nat) (dst : bytes) (i : Z) : bytes :=
  match n with
  | O => dst
  | S m =>
      appendLength_loop m
        (dst ++ [byte_of (Z.shiftr i (Z.of_nat m * 8))]) i
  end.

Definition appendLength (dst : bytes) (i : Z) : bytes :=
  appendLength_loop (Z.to_nat (lengthLength i)) dst i.

Definition appendTagAndLength (dst : bytes) (t : tagAndLength) : bytes :=
  let b := byte_of (Z.shiftl (byte_of (tl_class t)) 6) in
  let b := if tl_isCompound t then Z.lor b 32 else b in
  let dst :=
    if tl_tag t >=? 31 then
      appendBase128Int (dst ++ [Z.lor b 31]) (tl_tag t)
    else dst ++ [Z.lor b (byte_of (tl_tag t))] in
  if tl_length t >=? 128 then
    let l := lengthLength (tl_length t) in
    appendLength (dst ++ [Z.lor 128 (byte_of l)]) (tl_length t)
  else dst ++ [byte_of (tl_length t)].

(** A tagged encoding: identifier and length octets, then the body. *)
Definition encodeTLV (class tag : Z) (isCompound : bool) (body : bytes)
  : bytes :=
  appendTagAndLength []
    {| tl_class := class; tl_tag := tag; tl_length := len body;
       tl_isCompound := isCompound |} ++ body.

(** Marshalling an [asn1.RawValue]: [FullBytes] verbatim when there
    are any, else the tag and length of the value around [Bytes]. *)
Definition MarshalRawValue (rv : RawValue) : bytes :=
  match FullBytes rv with
  | _ :: _ => FullBytes rv
  | [] => encodeTLV (Class rv) (Tag rv) (IsCompound rv) (elems (Bytes rv))
  end.

(** [asn1.Marshal(b)] for [b] a [[]byte]: an OCTET STRING. *)
Definition MarshalOctetString (b : bytes) : bytes :=
  encodeTLV ClassUniversal TagOctetString false b.

(** [makeObjectIdentifier] and [oidEncoder.Encode]. *)
Definition makeObjectIdentifier (oid : ObjectIdentifier) : result bytes :=
  match oid with
  | o0 :: o1 :: arcs =>
      if (o0 >? 2) || ((o0 <? 2) && (o1 >=? 40)) then
        Err (StructuralError "invalid object identifier")
      else
        Ok (fold_left appendBase128Int arcs
              (appendBase128Int [] (o0 * 40 + o1)))
  | _ => Err (StructuralError "invalid object identifier")
  end.

(** [asn1.Marshal(oid)] for an [asn1.ObjectIdentifier]. *)
Definition MarshalObjectIdentifier (oid : ObjectIdentifier)
  : result bytes :=
  let* body := makeObjectIdentifier oid in
  Ok (encodeTLV ClassUniversal TagOID false body).

(** [big.Int.Bytes]: the absolute value, big-endian, no leading
    zero. *)
Fixpoint bigBytes_loop (fuel : nat) (n : Z) (acc : bytes) : bytes :=
  match fuel with
  | O => acc
  | S f =>
      if n <=? 0 then acc
      else bigBytes_loop f (n / 256) (n mod 256 :: acc)
  end.

Definition bigBytes (n : Z) : bytes :=
  bigBytes_loop (S (Z.to_nat (Z.log2 (Z.abs n)))) (Z.abs n) [].

(** [makeBigInt]: the content octets of an INTEGER. *)
Definition makeBigInt (n : Z) : bytes :=
  if n <? 0 then
    let bs := map (fun b => Z.lxor b 255) (bigBytes (- n - 1)) in
    match bs with
    | [] => 255 :: bs
    | b0 :: _ => if Z.land b0 128 =? 0 then 255 :: bs else bs
    end
  else if n =? 0 then [0]
  else
    let bs := bigBytes n in
    match bs with
    | b0 :: _ => if negb (Z.land b0 128 =? 0) then 0 :: bs else bs
    | [] => bs
    end.

Definition MarshalBigInt (n : Z) : bytes :=
  encodeTLV ClassUniversal TagInteger false (makeBigInt n).

(** [bytes.Compare(a, b) < 0]. *)
Fixpoint bytes_less (a b : bytes) : bool :=
  match a, b with
  | [], [] => false
  | [], _ :: _ => true
  | _ :: _, [] => false
  | x :: a', y :: b' =>
      if x <? y then true
      else if y <? x then false
      else bytes_less a' b'
  end.

Fixpoint insertSorted (e : bytes) (l : list bytes) : list bytes :=
  match l with
  | [] => [e]
  | x :: l' => if bytes_less x e then x :: insertSorted e l' else e :: l
  end.

(** [setEncoder.Encode]: the encodings of the elements of a SET OF,
    sorted as octet strings. *)
Definition setEncoder (encodings : list bytes) : bytes :=
  concat (fold_right insertSorted [] encodings).

(** [parseObjectIdentifier]: the arcs after the first two, one base
    128 integer each, to the end of the content.  Every integer takes
    at least one byte, so [fuel] at least the length of [bs] is never
    used up. *)
Fixpoint parseObjectIdentifier_loop (fuel : nat) (bs : bytes)
  : result ObjectIdentifier :=
  match fuel with
  | O => Ok []
  | S fuel' =>
      match bs with
      | [] => Ok []
      | _ =>
          let* (v, rest) := parseBase128Int bs in
          let* arcs := parseObjectIdentifier_loop fuel' rest in
          Ok (v :: arcs)
      end
  end.

(** [parseObjectIdentifier]: the first integer holds the first two
    arcs. *)
Definition parseObjectIdentifier (bs : bytes) : result ObjectIdentifier :=
  match bs with
  | [] => Err (SyntaxError "zero length OBJECT IDENTIFIER")
  | _ =>
      let* (v, rest) := parseBase128Int bs in
      let s0 := if v <? 80 then v / 40 else 2 in
      let s1 := if v <? 80 then v mod 40 else v - 80 in
      let* arcs := parseObjectIdentifier_loop (length rest) rest in
      Ok (s0 :: s1 :: arcs)
  end.

(** [asn1.Unmarshal(b, &oid)] for an [asn1.ObjectIdentifier]: a
    primitive universal OBJECT IDENTIFIER. *)
Definition UnmarshalObjectIdentifier (bs : bytes)
  : result (ObjectIdentifier * bytes) :=
  match bs with
  | [] => Err (SyntaxError "sequence truncated")
  | _ =>
      let* (t, rest) := parseTagAndLength bs in
      if negb (tl_class t =? ClassUniversal)
         || negb (tl_tag t =? TagOID)
         || tl_isCompound t
      then Err (StructuralError "tags don't match")
      else if len rest <? tl_length t then
        Err (SyntaxError "data truncated")
      else
        let n := Z.to_nat (tl_length t) in
        let* oid := parseObjectIdentifier (firstn n rest) in
        Ok (oid, skipn n rest)
  end.

End asn1.

(** ** The collaborators: [crypto], [crypto/x509], [crypto/x509/pkix] *)

Module crypto.

(** The [crypto.Hash] values the package names.  The zero [Hash],
    which a Go map returns for a missing key, is a failed lookup. *)
Inductive Hash : Type := MD5 | SHA1 | SHA256 | SHA384 | SHA512.

(** A [crypto.PublicKey], known by its PKIX encoding; a key of a type
    [x509.MarshalPKIXPublicKey] does not support has none. *)
Inductive PublicKey : Type :=
  | PKIXKey (der : bytes)
  | UnsupportedKey.

(** A [crypto.Signer]: [Sign] is given the digest and the hash; the
    random source is fixed. *)
Record Signer : Type := {
  Public : PublicKey;
  Sign : bytes -> Hash -> result bytes
}.

End crypto.

Module pkix.

Record AlgorithmIdentifier : Type := {
  Algorithm : asn1.ObjectIdentifier;
  Parameters : asn1.RawValue
}.

Record Extension : Type := {
  Id : asn1.ObjectIdentifier;
  Critical : bool;
  Value : bytes
}.

End pkix.

Module x509.

Inductive SignatureAlgorithm : Type :=
  | UnknownSignatureAlgorithm
  | MD2WithRSA | MD5WithRSA | SHA1WithRSA
  | SHA256WithRSA | SHA384WithRSA | SHA512WithRSA
  | DSAWithSHA1 | DSAWithSHA256
  | ECDSAWithSHA1 | ECDSAWithSHA256 | ECDSAWithSHA384 | ECDSAWithSHA512
  | SHA256WithRSAPSS | SHA384WithRSAPSS | SHA512WithRSAPSS
  | PureEd25519.

(** The fields of [x509.Certificate] the package reads. *)
Record Certificate : Type := {
  Raw : bytes;
  RawIssuer : bytes;
  SerialNumber : Z;
  PublicKey : crypto.PublicKey;
  SignatureAlgorithm_ : SignatureAlgorithm;
  Extensions : list pkix.Extension
}.

Definition MarshalPKIXPublicKey (pub : crypto.PublicKey) : result bytes :=
  match pub with
  | crypto.PKIXKey der => Ok der
  | crypto.UnsupportedKey =>
      Err (ErrorString "x509: unsupported public key type")
  end.

End x509.

(** ** Package [protocol] *)

(** *** Object identifiers and the algorithm registry *)

Definition oidData : asn1.ObjectIdentifier := [1; 2; 840; 113549; 1; 7; 1].
Definition oidSignedData : asn1.ObjectIdentifier :=
  [1; 2; 840; 113549; 1; 7; 2].
Definition oidTSTInfo : asn1.ObjectIdentifier :=
  [1; 2; 840; 113549; 1; 9; 16; 1; 4].

Definition oidAttributeContentType : asn1.ObjectIdentifier :=
  [1; 2; 840; 113549; 1; 9; 3].
Definition oidAttributeMessageDigest : asn1.ObjectIdentifier :=
  [1; 2; 840; 113549; 1; 9; 4].
Definition oidAttributeSigningTime : asn1.ObjectIdentifier :=
  [1; 2; 840; 113549; 1; 9; 5].

Definition oidSignatureAlgorithmRSA : asn1.ObjectIdentifier :=
  [1; 2; 840; 113549; 1; 1; 1].
Definition oidSignatureAlgorithmECDSA : asn1.ObjectIdentifier :=
  [1; 2; 840; 10045; 2; 1].

Definition oidDigestAlgorithmSHA1 : asn1.ObjectIdentifier :=
  [1; 3; 14; 3; 2; 26].
Definition oidDigestAlgorithmMD5 : asn1.ObjectIdentifier :=
  [1; 2; 840; 113549; 2; 5].
Definition oidDigestAlgorithmSHA256 : asn1.ObjectIdentifier :=
  [2; 16; 840; 1; 101; 3; 4; 2; 1].
Definition oidDigestAlgorithmSHA384 : asn1.ObjectIdentifier :=
  [2; 16; 840; 1; 101; 3; 4; 2; 2].
Definition oidDigestAlgorithmSHA512 : asn1.ObjectIdentifier :=
  [2; 16; 840; 1; 101; 3; 4; 2; 3].

Definition oidSubjectKeyIdentifier : asn1.ObjectIdentifier := [2; 5; 29; 14].

(** [digestAlgorithmToHash] maps digest OIDs, as strings, to
    [crypto.Hash] values. *)
Definition digestAlgorithmToHash : gmap string crypto.Hash :=
  list_to_map [
    (asn1.String oidDigestAlgorithmSHA1, crypto.SHA1);
    (asn1.String oidDigestAlgorithmMD5, crypto.MD5);
    (asn1.String oidDigestAlgorithmSHA256, crypto.SHA256);
    (asn1.String oidDigestAlgorithmSHA384, crypto.SHA384);
    (asn1.String oidDigestAlgorithmSHA512, crypto.SHA512)
  ].

(** [signatureAlgorithmToDigestAlgorithm]: a map literal keyed by the
    enumeration, read as a function; a missing key gives the nil OID. *)
Definition signatureAlgorithmToDigestAlgorithm (a : x509.SignatureAlgorithm)
  : option asn1.ObjectIdentifier :=
  match a with
  | x509.SHA1WithRSA => Some oidDigestAlgorithmSHA1
  | x509.MD5WithRSA => Some oidDigestAlgorithmMD5
  | x509.SHA256WithRSA => Some oidDigestAlgorithmSHA256
  | x509.SHA384WithRSA => Some oidDigestAlgorithmSHA384
  | x509.SHA512WithRSA => Some oidDigestAlgorithmSHA512
  | x509.ECDSAWithSHA1 => Some oidDigestAlgorithmSHA1
  | x509.ECDSAWithSHA256 => Some oidDigestAlgorithmSHA256
  | x509.ECDSAWithSHA384 => Some oidDigestAlgorithmSHA384
  | x509.ECDSAWithSHA512 => Some oidDigestAlgorithmSHA512
  | _ => None
  end.

(** [signatureAlgorithmToSignatureAlgorithm], likewise. *)
Definition signatureAlgorithmToSignatureAlgorithm
  (a : x509.SignatureAlgorithm) : option asn1.ObjectIdentifier :=
  match a with
  | x509.SHA1WithRSA | x509.MD5WithRSA | x509.SHA256WithRSA
  | x509.SHA384WithRSA | x509.SHA512WithRSA =>
      Some oidSignatureAlgorithmRSA
  | x509.ECDSAWithSHA1 | x509.ECDSAWithSHA256
  | x509.ECDSAWithSHA384 | x509.ECDSAWithSHA512 =>
      Some oidSignatureAlgorithmECDSA
  | _ => None
  end.

(** [signatureAlgorithms] maps signature then digest OIDs, as strings,
    to [x509.SignatureAlgorithm] values. *)
Definition signatureAlgorithms
  : gmap string (gmap string x509.SignatureAlgorithm) :=
  list_to_map [
    (asn1.String oidSignatureAlgorithmRSA,
     list_to_map [
       (asn1.String oidDigestAlgorithmSHA1, x509.SHA1WithRSA);
       (asn1.String oidDigestAlgorithmMD5, x509.MD5WithRSA);
       (asn1.String oidDigestAlgorithmSHA256, x509.SHA256WithRSA);
       (asn1.String oidDigestAlgorithmSHA384, x509.SHA384WithRSA);
       (asn1.String oidDigestAlgorithmSHA512, x509.SHA512WithRSA)
     ]);
    (asn1.String oidSignatureAlgorithmECDSA,
     list_to_map [
       (asn1.String oidDigestAlgorithmSHA1, x509.ECDSAWithSHA1);
       (asn1.String oidDigestAlgorithmSHA256, x509.ECDSAWithSHA256);
       (asn1.String oidDigestAlgorithmSHA384, x509.ECDSAWithSHA384);
       (asn1.String oidDigestAlgorithmSHA512, x509.ECDSAWithSHA512)
     ])
  ].

(** *** EncapsulatedContentInfo *)

Record EncapsulatedContentInfo : Type := {
  EContentType : asn1.ObjectIdentifier;
  EContent : asn1.RawValue
}.

Definition NewEncapsulatedContentInfo (content : bytes)
  (contentType : asn1.ObjectIdentifier) : result EncapsulatedContentInfo :=
  let octets :=
    asn1.MarshalRawValue
      {| asn1.Class := asn1.ClassUniversal;
         asn1.Tag := asn1.TagOctetString;
         asn1.Bytes := Some content;
         asn1.IsCompound := false;
         asn1.FullBytes := [] |} in
  Ok {| EContentType := contentType;
        EContent :=
          {| asn1.Class := asn1.ClassContextSpecific;
             asn1.Tag := 0;
             asn1.Bytes := Some octets;
             asn1.IsCompound := true;
             asn1.FullBytes := [] |} |}.

Definition NewDataEncapsulatedContentInfo (data : bytes)
  : result EncapsulatedContentInfo :=
  NewEncapsulatedContentInfo data oidData.

(** [append(value, b...)] on a possibly nil [value]: appending nothing
    to a nil slice leaves it nil. *)
Definition append_bytes (value : option bytes) (b : bytes) : option bytes :=
  match value, b with
  | None, [] => None
  | None, _ :: _ => Some b
  | Some v, _ => Some (v ++ b)
  end.

Definition badDataContent (octets : asn1.RawValue) : error :=
  Errorf "bad data content (class: %d tag: %d)"
    [asn1.Class octets; asn1.Tag octets].

(** The loop of [EContentValue] over the segments of a constructed
    OCTET STRING.  Every turn consumes at least one byte of [rest], so
    [fuel] at least the length of [rest] is never used up. *)
Fixpoint EContentValue_loop (fuel : nat) (rest : bytes)
  (value : option bytes) : result (option bytes) :=
  match fuel with
  | O => Ok value
  | S fuel' =>
      if 0 <? len rest then
        let* (octets, rest) := asn1.UnmarshalRawValue rest in
        if negb (asn1.Class octets =? asn1.ClassUniversal)
           || negb (asn1.Tag octets =? asn1.TagOctetString)
           || asn1.IsCompound octets
        then Err (badDataContent octets)
        else
          EContentValue_loop fuel' rest
            (append_bytes value (elems (asn1.Bytes octets)))
      else Ok value
  end.

(** [EContentValue] gets the OCTET STRING EContent value without tag or
    length; nil when the OPTIONAL eContent field is missing. *)
Definition EContentValue (eci : EncapsulatedContentInfo)
  : result (option bytes) :=
  match asn1.Bytes (EContent eci) with
  | None => Ok None
  | Some b =>
      let* (octets, rest) := asn1.UnmarshalRawValue b in
      if 0 <? len rest then Err (ErrorString "unexpected trailing data")
      else if negb (asn1.Class octets =? asn1.ClassUniversal)
              || negb (asn1.Tag octets =? asn1.TagOctetString)
      then Err (badDataContent octets)
      else if asn1.IsCompound octets then
        let rest := elems (asn1.Bytes octets) in
        EContentValue_loop (length rest) rest None
      else Ok (asn1.Bytes octets)
  end.

Definition IsTypeData (eci : EncapsulatedContentInfo) : bool :=
  asn1.Equal (EContentType eci) oidData.

Definition DataEContent (eci : EncapsulatedContentInfo)
  : result (option bytes) :=
  if negb (IsTypeData eci) then Err ErrWrongType else EContentValue eci.

Definition IsTypeTSTInfo (eci : EncapsulatedContentInfo) : bool :=
  asn1.Equal (EContentType eci) oidTSTInfo.

(** *** AnySet *)

(** An [AnySet] holds the elements of a SET OF ANY. *)
Record AnySet : Type := { Elements : list asn1.RawValue }.

Definition NewAnySet (elts : list asn1.RawValue) : AnySet :=
  {| Elements := elts |}.

(** Modelled from the spec: [DecodeAnySet], whose source file is not
    part of the sources read here.  It "walks the set's immediate
    children as TLV primitives without interpreting their contents,
    yielding an ordered sequence of opaque typed values", and fails on
    "any malformed child TLV". *)
Fixpoint DecodeAnySet_loop (fuel : nat) (der : bytes)
  : result (list asn1.RawValue) :=
  match fuel with
  | O => Ok []
  | S fuel' =>
      if 0 <? len der then
        let* (elt, der) := asn1.UnmarshalRawValue der in
        let* elts := DecodeAnySet_loop fuel' der in
        Ok (elt :: elts)
      else Ok []
  end.

Definition DecodeAnySet (rv : asn1.RawValue) : result AnySet :=
  let der := elems (asn1.Bytes rv) in
  let* elts := DecodeAnySet_loop (length der) der in
  Ok {| Elements := elts |}.

(** Modelled from the spec: [AnySet.Encode], from the same missing
    file: "encoding re-wraps the sequence under a SET tag". *)
Definition AnySet_Encode (s : AnySet) : result asn1.RawValue :=
  let der := concat (map asn1.MarshalRawValue (Elements s)) in
  Ok {| asn1.Class := asn1.ClassUniversal;
        asn1.Tag := asn1.TagSet;
        asn1.IsCompound := true;
        asn1.Bytes := Some der;
        asn1.FullBytes :=
          asn1.encodeTLV asn1.ClassUniversal asn1.TagSet true der |}.

(** *** Attribute and Attributes *)

Record Attribute : Type := {
  Type_ : asn1.ObjectIdentifier;
  RawValue : asn1.RawValue
}.

(** The dynamic types of the values [NewAttribute] is called with. *)
Inductive AttributeValue : Type :=
  | BytesValue (b : bytes)
  | OIDValue (oid : asn1.ObjectIdentifier).

(** [asn1.Marshal(val)] on those. *)
Definition Marshal_AttributeValue (val : AttributeValue) : result bytes :=
  match val with
  | BytesValue b => Ok (asn1.MarshalOctetString b)
  | OIDValue oid => asn1.MarshalObjectIdentifier oid
  end.

(** [NewAttribute] creates a single-value Attribute. *)
Definition NewAttribute (typ : asn1.ObjectIdentifier) (val : AttributeValue)
  : result Attribute :=
  let* der := Marshal_AttributeValue val in
  let* (rv, _) := asn1.UnmarshalRawValue der in
  let* raw := AnySet_Encode (NewAnySet [rv]) in
  Ok {| Type_ := typ; RawValue := raw |}.

Definition Value (a : Attribute) : result AnySet :=
  DecodeAnySet (RawValue a).

(** [Attributes] is a slice of [Attribute]; a nil slice and an empty one
    are both the empty list (only [GetValues]'s own result tells them
    apart, and no caller here does). *)
Abbreviation Attributes := (list Attribute).

(** [asn1.Marshal] of one [Attribute]: a SEQUENCE of the type and the
    raw value. *)
Definition Marshal_Attribute (a : Attribute) : result bytes :=
  let* typ := asn1.MarshalObjectIdentifier (Type_ a) in
  Ok (asn1.encodeTLV asn1.ClassUniversal asn1.TagSequence true
        (typ ++ asn1.MarshalRawValue (RawValue a))).

Fixpoint Marshal_each (attrs : Attributes) : result (list bytes) :=
  match attrs with
  | [] => Ok []
  | a :: attrs' =>
      let* e := Marshal_Attribute a in
      let* es := Marshal_each attrs' in
      Ok (e :: es)
  end.

(** The content octets of the attributes marshalled as a slice with the
    [set] parameter: nothing, the only element, or the sorted
    elements. *)
Definition Marshal_setBody (attrs : Attributes) : result bytes :=
  let* es := Marshal_each attrs in
  match es with
  | [] => Ok []
  | [e] => Ok e
  | _ => Ok (asn1.setEncoder es)
  end.

(** [asn1.Marshal(struct { Attributes `asn1:"set"` }{attrs})]: a
    SEQUENCE whose only field is the SET OF the attributes. *)
Definition Marshal_setStruct (attrs : Attributes) : result bytes :=
  let* body := Marshal_setBody attrs in
  Ok (asn1.encodeTLV asn1.ClassUniversal asn1.TagSequence true
        (asn1.encodeTLV asn1.ClassUniversal asn1.TagSet true body)).

(** [MarshaledForSigning] DER encodes the Attributes as needed for
    signing SignedAttributes. *)
Definition MarshaledForSigning (attrs : Attributes) : result bytes :=
  let* seq := Marshal_setStruct attrs in
  (* unwrap the outer SEQUENCE *)
  let* (raw, _) := asn1.UnmarshalRawValue seq in
  Ok (elems (asn1.Bytes raw)).

(** [GetValues] retrieves the attributes with the given OID. *)
Fixpoint GetValues (attrs : Attributes) (oid : asn1.ObjectIdentifier)
  : result (list AnySet) :=
  match attrs with
  | [] => Ok []
  | attr :: attrs' =>
      if asn1.Equal (Type_ attr) oid then
        let* val := Value attr in
        let* vals := GetValues attrs' oid in
        Ok (val :: vals)
      else GetValues attrs' oid
  end.

(** [GetOnlyAttributeValueBytes] gets an attribute value, returning an
    error if the attribute occurs multiple times or has multiple
    values. *)
Definition GetOnlyAttributeValueBytes (attrs : Attributes)
  (oid : asn1.ObjectIdentifier) : result asn1.RawValue :=
  let* vals := GetValues attrs oid in
  if negb (len vals =? 1) then
    Err (Errorf "expected 1 attribute found %d" [len vals])
  else
    let val0 := nth 0 vals (NewAnySet []) in
    if negb (len (Elements val0) =? 1) then
      Err (Errorf "expected 1 attribute value found %d"
             [len (Elements val0)])
    else Ok (nth 0 (Elements val0) asn1.zeroRawValue).

(** *** IssuerAndSerialNumber *)

Record IssuerAndSerialNumber : Type := {
  Issuer : asn1.RawValue;
  SerialNumber : Z
}.

(** [asn1.Marshal(sid)] for an [IssuerAndSerialNumber]: a SEQUENCE of
    the issuer and the INTEGER serial number. *)
Definition Marshal_IssuerAndSerialNumber (sid : IssuerAndSerialNumber)
  : bytes :=
  asn1.encodeTLV asn1.ClassUniversal asn1.TagSequence true
    (asn1.MarshalRawValue (Issuer sid)
       ++ asn1.MarshalBigInt (SerialNumber sid)).

(** [asn1.Unmarshal(b, &isn)] for an [IssuerAndSerialNumber]: a
    universal, constructed SEQUENCE whose first two elements are any
    TLV and a primitive universal INTEGER; further elements of the
    sequence are let through. *)
Definition Unmarshal_IssuerAndSerialNumber (bs : bytes)
  : result (IssuerAndSerialNumber * bytes) :=
  match bs with
  | [] => Err (SyntaxError "sequence truncated")
  | _ =>
      let* (t, rest) := asn1.parseTagAndLength bs in
      if negb (asn1.tl_class t =? asn1.ClassUniversal)
         || negb (asn1.tl_tag t =? asn1.TagSequence)
         || negb (asn1.tl_isCompound t)
      then Err (StructuralError "tags don't match")
      else if len rest <? asn1.tl_length t then
        Err (SyntaxError "data truncated")
      else
        let n := Z.to_nat (asn1.tl_length t) in
        let innerBytes := firstn n rest in
        let* (issuer, inner) := asn1.UnmarshalRawValue innerBytes in
        match inner with
        | [] => Err (SyntaxError "sequence truncated")
        | _ =>
            let* (ti, irest) := asn1.parseTagAndLength inner in
            if negb (asn1.tl_class ti =? asn1.ClassUniversal)
               || negb (asn1.tl_tag ti =? asn1.TagInteger)
               || asn1.tl_isCompound ti
            then Err (StructuralError "tags don't match")
            else if len irest <? asn1.tl_length ti then
              Err (SyntaxError "data truncated")
            else
              let* serial :=
                asn1.parseBigInt
                  (firstn (Z.to_nat (asn1.tl_length ti)) irest) in
              Ok ({| Issuer := issuer; SerialNumber := serial |},
                  skipn n rest)
        end
  end.

(** [NewIssuerAndSerialNumber] creates an IssuerAndSerialNumber SID for
    the given cert. *)
Definition NewIssuerAndSerialNumber (cert : x509.Certificate)
  : result asn1.RawValue :=
  let* (issuer, _) := asn1.UnmarshalRawValue (x509.RawIssuer cert) in
  let sid :=
    {| Issuer := issuer; SerialNumber := x509.SerialNumber cert |} in
  let der := Marshal_IssuerAndSerialNumber sid in
  let* (rv, _) := asn1.UnmarshalRawValue der in
  Ok rv.

(** *** SignerInfo *)

Record SignerInfo : Type := {
  si_Version : Z;
  SID : asn1.RawValue;
  si_DigestAlgorithm : pkix.AlgorithmIdentifier;
  SignedAttrs : Attributes;
  SignatureAlgorithm : pkix.AlgorithmIdentifier;
  Signature : option bytes;
  UnsignedAttrs : Attributes
}.

(** [issuerAndSerialNumberSID] gets the SID, assuming it is an
    issuerAndSerialNumber. *)
Definition issuerAndSerialNumberSID (si : SignerInfo)
  : result IssuerAndSerialNumber :=
  if negb (asn1.Class (SID si) =? asn1.ClassUniversal)
     || negb (asn1.Tag (SID si) =? asn1.TagSequence)
  then Err ErrWrongType
  else
    let* (isn, rest) :=
      Unmarshal_IssuerAndSerialNumber (asn1.FullBytes (SID si)) in
    if 0 <? len rest then Err (ErrorString "unexpected trailing data")
    else Ok isn.

(** [subjectKeyIdentifierSID] gets the SID, assuming it is a
    subjectKeyIdentifier. *)
Definition subjectKeyIdentifierSID (si : SignerInfo) : result bytes :=
  if negb (asn1.Class (SID si) =? asn1.ClassContextSpecific)
     || negb (asn1.Tag (SID si) =? 0)
  then Err ErrWrongType
  else Ok (elems (asn1.Bytes (SID si))).

(** The version 1 loop of [FindCertificate]: the first certificate with
    the issuer and the serial number of the SID. *)
Fixpoint findByIssuerAndSerial (isn : IssuerAndSerialNumber)
  (certs : list x509.Certificate) : option x509.Certificate :=
  match certs with
  | [] => None
  | cert :: certs' =>
      if bytes_Equal (x509.RawIssuer cert) (asn1.FullBytes (Issuer isn))
         && (SerialNumber isn =? x509.SerialNumber cert)
      then Some cert
      else findByIssuerAndSerial isn certs'
  end.

(** The inner loop of version 3: does an extension of the certificate
    carry the subject key identifier [ski]? *)
Fixpoint hasSubjectKeyIdentifier (ski : bytes)
  (exts : list pkix.Extension) : bool :=
  match exts with
  | [] => false
  | ext :: exts' =>
      if asn1.Equal oidSubjectKeyIdentifier (pkix.Id ext) then
        if bytes_Equal ski (pkix.Value ext) then true
        else hasSubjectKeyIdentifier ski exts'
      else hasSubjectKeyIdentifier ski exts'
  end.

(** The version 3 loop of [FindCertificate]. *)
Fixpoint findBySubjectKeyIdentifier (ski : bytes)
  (certs : list x509.Certificate) : option x509.Certificate :=
  match certs with
  | [] => None
  | cert :: certs' =>
      if hasSubjectKeyIdentifier ski (x509.Extensions cert) then Some cert
      else findBySubjectKeyIdentifier ski certs'
  end.

(** [FindCertificate] finds this SignerInfo's certificate in a slice of
    certificates. *)
Definition FindCertificate (si : SignerInfo)
  (certs : list x509.Certificate) : result x509.Certificate :=
  if len certs =? 0 then Err (ErrorString "no certificates")
  else
    let found :=
      if si_Version si =? 1 then
        (* SID is issuer and serial number *)
        let* isn := issuerAndSerialNumberSID si in
        Ok (findByIssuerAndSerial isn certs)
      else if si_Version si =? 3 then
        (* SID is SubjectKeyIdentifier *)
        let* ski := subjectKeyIdentifierSID si in
        Ok (findBySubjectKeyIdentifier ski certs)
      else Err (ErrorString "unknown SignerInfo version") in
    let* found := found in
    match found with
    | Some cert => Ok cert
    | None => Err (ErrorString "no matching certificate")
    end.

(** [X509SignatureAlgorithm] gets the [x509.SignatureAlgorithm] that
    should be used for verifying this SignerInfo's signature.  A missing
    key of either map gives the zero value,
    [x509.UnknownSignatureAlgorithm]. *)
Definition X509SignatureAlgorithm (si : SignerInfo)
  : x509.SignatureAlgorithm :=
  let sigOID := asn1.String (pkix.Algorithm (SignatureAlgorithm si)) in
  let digestOID := asn1.String (pkix.Algorithm (si_DigestAlgorithm si)) in
  default x509.UnknownSignatureAlgorithm
    (signatureAlgorithms !! sigOID ≫= fun byDigest => byDigest !! digestOID).

(** *** SignedData *)

Record SignedData : Type := {
  Version : Z;
  DigestAlgorithms : list pkix.AlgorithmIdentifier;
  EncapContentInfo : EncapsulatedContentInfo;
  Certificates : list asn1.RawValue;
  CRLs : list asn1.RawValue;
  SignerInfos : list SignerInfo
}.

(** [NewSignedData] creates a new SignedData. *)
Definition NewSignedData (eci : EncapsulatedContentInfo)
  : result SignedData :=
  (* The version is picked based on which CMS features are used. We only
     use version 1 features, except for supporting non-data econtent. *)
  let version := 1 in
  let version := if negb (IsTypeData eci) then 3 else version in
  Ok {| Version := version;
        DigestAlgorithms := [];
        EncapContentInfo := eci;
        Certificates := [];
        CRLs := [];
        SignerInfos := [] |}.

(** Methods on [*SignedData] mutate the receiver and may return an
    error: a computation takes the aggregate and gives its outcome
    with the aggregate as it leaves it, also when it fails. *)
Definition Builder (A : Type) : Type :=
  SignedData -> result A * SignedData.

Definition ret {A} (a : A) : Builder A := fun sd => (Ok a, sd).

Definition lift {A} (r : result A) : Builder A := fun sd => (r, sd).

Definition bindB {A B} (m : Builder A) (k : A -> Builder B) : Builder B :=
  fun sd =>
    match m sd with
    | (Ok a, sd') => k a sd'
    | (Err e, sd') => (Err e, sd')
    end.

Notation "'let!' x ':=' m 'in' k" := (bindB m (fun x => k))
  (at level 10, x pattern, m at level 100, k at level 200).

(** [sd.addCertificate] adds a [*x509.Certificate]. *)
Definition addCertificate (cert : x509.Certificate) : Builder unit :=
  fun sd =>
    if existsb
         (fun existing =>
            bytes_Equal (elems (asn1.Bytes existing)) (x509.Raw cert))
         (Certificates sd)
    then (Err (ErrorString "certificate already added"), sd)
    else
      match asn1.UnmarshalRawValue (x509.Raw cert) with
      | Err e => (Err e, sd)
      | Ok (rv, _) =>
          (Ok tt,
           {| Version := Version sd;
              DigestAlgorithms := DigestAlgorithms sd;
              EncapContentInfo := EncapContentInfo sd;
              Certificates := Certificates sd ++ [rv];
              CRLs := CRLs sd;
              SignerInfos := SignerInfos sd |})
      end.

(** [sd.addDigestAlgorithm] adds a new AlgorithmIdentifier if it doesn't
    exist yet. *)
Definition addDigestAlgorithm (algo : pkix.AlgorithmIdentifier)
  : Builder unit :=
  fun sd =>
    if existsb
         (fun existing =>
            asn1.Equal (pkix.Algorithm existing) (pkix.Algorithm algo))
         (DigestAlgorithms sd)
    then (Ok tt, sd)
    else
      (Ok tt,
       {| Version := Version sd;
          DigestAlgorithms := DigestAlgorithms sd ++ [algo];
          EncapContentInfo := EncapContentInfo sd;
          Certificates := Certificates sd;
          CRLs := CRLs sd;
          SignerInfos := SignerInfos sd |}).

(** [sd.SignerInfos = append(sd.SignerInfos, si)]. *)
Definition appendSignerInfo (si : SignerInfo) : Builder unit :=
  fun sd =>
    (Ok tt,
     {| Version := Version sd;
        DigestAlgorithms := DigestAlgorithms sd;
        EncapContentInfo := EncapContentInfo sd;
        Certificates := Certificates sd;
        CRLs := CRLs sd;
        SignerInfos := SignerInfos sd ++ [si] |}).

(** The chain loop of [AddSignerInfo]: every certificate of the chain is
    added; [cert] is the last one whose public key is the signer's. *)
Fixpoint AddSignerInfo_chain (pub : bytes) (chain : list x509.Certificate)
  (cert : option x509.Certificate) : Builder (option x509.Certificate) :=
  match chain with
  | [] => ret cert
  | c :: chain' =>
      let! _ := addCertificate c in
      let! certPub := lift (x509.MarshalPKIXPublicKey (x509.PublicKey c)) in
      AddSignerInfo_chain pub chain'
        (if bytes_Equal pub certPub then Some c else cert)
  end.

Section WithCrypto.

(** The hash primitives of package [crypto]: [h.Available()], and the
    digest [h.New()] gives after [Write(data)] and [Sum(nil)]. *)
Variable Available : crypto.Hash -> bool.
Variable Sum : crypto.Hash -> bytes -> bytes.

(** [Hash] gets the [crypto.Hash] associated with this SignerInfo's
    DigestAlgorithm. *)
Definition Hash (si : SignerInfo) : result crypto.Hash :=
  let algo := asn1.String (pkix.Algorithm (si_DigestAlgorithm si)) in
  match digestAlgorithmToHash !! algo with
  | None => Err (ErrorfS "unknown digest algorithm: %s" algo)
  | Some hash =>
      if negb (Available hash) then
        Err (ErrorfS "Hash not avaialbe: %s" algo)
      else Ok hash
  end.

(** [AddSignerInfo] adds a SignerInfo to the SignedData. *)
Definition AddSignerInfo (chain : list x509.Certificate)
  (signer : crypto.Signer) : Builder unit :=
  (* figure out which certificate is associated with signer. *)
  let! pub := lift (x509.MarshalPKIXPublicKey (crypto.Public signer)) in
  let! cert := AddSignerInfo_chain pub chain None in
  match cert with
  | None =>
      lift (Err (ErrorString "No certificate matching signer's public key"))
  | Some cert =>
      let! sid := lift (NewIssuerAndSerialNumber cert) in
      match signatureAlgorithmToDigestAlgorithm
              (x509.SignatureAlgorithm_ cert) with
      | None => lift (Err (ErrorString "unsupported digest algorithm"))
      | Some digestAlgorithm =>
      match signatureAlgorithmToSignatureAlgorithm
              (x509.SignatureAlgorithm_ cert) with
      | None => lift (Err (ErrorString "unsupported signature algorithm"))
      | Some signatureAlgorithm =>
          let si :=
            {| si_Version := 1;
               SID := sid;
               si_DigestAlgorithm :=
                 {| pkix.Algorithm := digestAlgorithm;
                    pkix.Parameters := asn1.zeroRawValue |};
               SignedAttrs := [];
               SignatureAlgorithm :=
                 {| pkix.Algorithm := signatureAlgorithm;
                    pkix.Parameters := asn1.zeroRawValue |};
               Signature := None;
               UnsignedAttrs := [] |} in
          (* Get the message *)
          let! content :=
            (fun sd => (EContentValue (EncapContentInfo sd), sd)) in
          match content with
          | None => lift (Err (ErrorString "already detached"))
          | Some content =>
              (* Digest the message. *)
              let! hash := lift (Hash si) in
              let md := Sum hash content in
              (* Build our SignedAttributes *)
              let! mdAttr :=
                lift (NewAttribute oidAttributeMessageDigest
                        (BytesValue md)) in
              let! ctAttr :=
                lift (NewAttribute oidAttributeContentType
                        (OIDValue oidData)) in
              let signedAttrs := SignedAttrs si ++ [mdAttr; ctAttr] in
              (* Signature is over the marshaled signed attributes *)
              let! sm := lift (MarshaledForSigning signedAttrs) in
              let smd := Sum hash sm in
              let! signature := lift (crypto.Sign signer smd hash) in
              let si :=
                {| si_Version := si_Version si;
                   SID := SID si;
                   si_DigestAlgorithm := si_DigestAlgorithm si;
                   SignedAttrs := signedAttrs;
                   SignatureAlgorithm := SignatureAlgorithm si;
                   Signature := Some signature;
                   UnsignedAttrs := UnsignedAttrs si |} in
              let! _ := addDigestAlgorithm (si_DigestAlgorithm si) in
              appendSignerInfo si
          end
      end
      end
  end.

End WithCrypto.

(** *** The signed attributes of a SignerInfo *)

(** [GetContentTypeAttribute] gets the signed ContentType attribute
    from the SignerInfo. *)
Definition GetContentTypeAttribute (si : SignerInfo)
  : result asn1.ObjectIdentifier :=
  let* rv :=
    GetOnlyAttributeValueBytes (SignedAttrs si) oidAttributeContentType in
  let* (ct, rest) := asn1.UnmarshalObjectIdentifier (asn1.FullBytes rv) in
  if 0 <? len rest then Err (ErrorString "unexpected trailing data")
  else Ok ct.

(** [GetMessageDigestAttribute] gets the signed MessageDigest attribute
    from the SignerInfo. *)
Definition GetMessageDigestAttribute (si : SignerInfo)
  : result (option bytes) :=
  let* rv :=
    GetOnlyAttributeValueBytes (SignedAttrs si) oidAttributeMessageDigest in
  if negb (asn1.Class rv =? asn1.ClassUniversal) then
    Err (Errorf "expected class %d, got %d"
           [asn1.ClassUniversal; asn1.Class rv])
  else if negb (asn1.Tag rv =? asn1.TagOctetString) then
    Err (Errorf "expected tag %d, got %d"
           [asn1.TagOctetString; asn1.Tag rv])
  else Ok (asn1.Bytes rv).

(** *** The certificates of a SignedData *)

Section WithX509.

(** [x509.ParseCertificate], of package [crypto/x509]. *)
Variable ParseCertificate : bytes -> result x509.Certificate.

(** The loop of [X509Certificates] over the certificate set. *)
Fixpoint X509Certificates_loop (raws : list asn1.RawValue)
  : result (list x509.Certificate) :=
  match raws with
  | [] => Ok []
  | raw :: raws' =>
      if negb (asn1.Class raw =? asn1.ClassUniversal)
         || negb (asn1.Tag raw =? asn1.TagSequence)
      then
        Err (Errorf "Unsupported certificate type (class %d, tag %d)"
               [asn1.Class raw; asn1.Tag raw])
      else
        let* cert := ParseCertificate (asn1.FullBytes raw) in
        let* certs := X509Certificates_loop raws' in
        Ok (cert :: certs)
  end.

(** [X509Certificates] gets the certificates, assuming that they're
    X.509 encoded.  A missing certificate set and an empty one both
    give no certificate and no error. *)
Definition X509Certificates (sd : SignedData)
  : result (list x509.Certificate) :=
  X509Certificates_loop (Certificates sd).

End WithX509.

(** * Vocabulary of the statements *)

(** [c] is the first element of [l] that satisfies [P]. *)
Definition FirstMatch {A} (P : A -> Prop) (l : list A) (c : A) : Prop :=
  exists pre post,
    l = pre ++ c :: post /\ P c /\ forall c', In c' pre -> ~ P c'.

(** The certificate has the issuer bytes and the serial number of the
    issuer-and-serial-number SID. *)
Definition MatchesIssuerAndSerial (isn : IssuerAndSerialNumber)
  (cert : x509.Certificate) : Prop :=
  x509.RawIssuer cert = asn1.FullBytes (Issuer isn)
  /\ x509.SerialNumber cert = SerialNumber isn.

(** An extension of the certificate is a subject key identifier of
    value [ski]. *)
Definition MatchesSubjectKeyIdentifier (ski : bytes)
  (cert : x509.Certificate) : Prop :=
  exists ext,
    In ext (x509.Extensions cert)
    /\ pkix.Id ext = [2; 5; 29; 14]
    /\ pkix.Value ext = ski.

(** The attributes of [attrs] whose type is [oid], in order. *)
Definition AttributesOfType (oid : asn1.ObjectIdentifier)
  (attrs : Attributes) : list Attribute :=
  List.filter (fun a => bool_decide (Type_ a = oid)) attrs.

(** No character of the string is a dot. *)
Fixpoint nodot (s : string) : Prop :=
  match s with
  | EmptyString => True
  | String.String c s' => c <> "."%char /\ nodot s'
  end.

(** The first value filed under [oid] in an association list. *)
Fixpoint assocOID {V} (oid : asn1.ObjectIdentifier)
  (l : list (asn1.ObjectIdentifier * V)) : option V :=
  match l with
  | [] => None
  | (o, v) :: l' => if asn1.Equal o oid then Some v else assocOID oid l'
  end.

(** An association list over OIDs as the map literal of the source has
    it, keyed by the strings of the OIDs. *)
Definition byString {V} (l : list (asn1.ObjectIdentifier * V))
  : list (string * V) :=
  map (fun p => (asn1.String (fst p), snd p)) l.

(** The five digests the registry knows, by OID. *)
Definition supportedDigests : list asn1.ObjectIdentifier :=
  [ [1; 3; 14; 3; 2; 26];
    [1; 2; 840; 113549; 2; 5];
    [2; 16; 840; 1; 101; 3; 4; 2; 1];
    [2; 16; 840; 1; 101; 3; 4; 2; 2];
    [2; 16; 840; 1; 101; 3; 4; 2; 3] ].



(** Reading the TLVs [segs] one after another from [b] leaves
    [rest]. *)
Inductive Segments : bytes -> list asn1.RawValue -> bytes -> Prop :=
  | Segments_nil rest : Segments rest [] rest
  | Segments_cons b seg b' segs rest :
      b <> [] ->
      asn1.UnmarshalRawValue b = Ok (seg, b') ->
      Segments b' segs rest ->
      Segments b (seg :: segs) rest.

(** A primitive OCTET STRING of the universal class. *)
Definition PrimitiveOctetString (rv : asn1.RawValue) : Prop :=
  asn1.Class rv = 0 /\ asn1.Tag rv = 4 /\ asn1.IsCompound rv = false.

(** The content octets of a TLV. *)
Definition contentOf (rv : asn1.RawValue) : bytes := elems (asn1.Bytes rv).

(** [rvs] are the certificates of [chain] as [addCertificate] files
    them: each one read as a TLV from the raw bytes of its
    certificate. *)
Definition Registered (chain : list x509.Certificate)
  (rvs : list asn1.RawValue) : Prop :=
  Forall2
    (fun c rv =>
       exists rest, asn1.UnmarshalRawValue (x509.Raw c) = Ok (rv, rest))
    chain rvs.

(** [sd'] is [sd] but for its certificate set. *)
Definition SameButCertificates (sd sd' : SignedData) : Prop :=
  Version sd' = Version sd
  /\ DigestAlgorithms sd' = DigestAlgorithms sd
  /\ EncapContentInfo sd' = EncapContentInfo sd
  /\ CRLs sd' = CRLs sd
  /\ SignerInfos sd' = SignerInfos sd.

(** The SignerInfo [AddSignerInfo] builds from its parts. *)
Definition builtSignerInfo (sid : asn1.RawValue)
  (digestAlgorithm signatureAlgorithm : asn1.ObjectIdentifier)
  (signedAttrs : Attributes) (signature : bytes) : SignerInfo :=
  {| si_Version := 1;
     SID := sid;
     si_DigestAlgorithm :=
       {| pkix.Algorithm := digestAlgorithm;
          pkix.Parameters := asn1.zeroRawValue |};
     SignedAttrs := signedAttrs;
     SignatureAlgorithm :=
       {| pkix.Algorithm := signatureAlgorithm;
          pkix.Parameters := asn1.zeroRawValue |};
     Signature := Some signature;
     UnsignedAttrs := [] |}.

(** The digest algorithms of a SignedData are filed once each, and the
    digest algorithm of every signer info is among them. *)
Definition DigestAlgorithmsCoverSigners (sd : SignedData) : Prop :=
  NoDup (map pkix.Algorithm (DigestAlgorithms sd))
  /\ forall si,
       In si (SignerInfos sd) ->
       In (pkix.Algorithm (si_DigestAlgorithm si))
          (map pkix.Algorithm (DigestAlgorithms sd)).

(** [c] is the last certificate of [chain] whose public key marshals to
    [pub]. *)
Definition LastWithKey (pub : bytes) (chain : list x509.Certificate)
  (c : x509.Certificate) : Prop :=
  exists pre post,
    chain = pre ++ c :: post
    /\ x509.MarshalPKIXPublicKey (x509.PublicKey c) = Ok pub
    /\ forall c',
         In c' post ->
         x509.MarshalPKIXPublicKey (x509.PublicKey c') <> Ok pub.



(** The encoding of the certificate is one universal SEQUENCE, and
    parsing it gives the certificate. *)
Definition ParsesBack (ParseCertificate : bytes -> result x509.Certificate)
  (c : x509.Certificate) : Prop :=
  exists rv,
    asn1.UnmarshalRawValue (x509.Raw c) = Ok (rv, [])
    /\ asn1.Class rv = asn1.ClassUniversal
    /\ asn1.Tag rv = asn1.TagSequence
    /\ ParseCertificate (x509.Raw c) = Ok c.

(** The arcs of the OID are natural numbers that [encoding/asn1] reads
    back: the first two taken together, and each of the others, are at
    most [MaxInt32]. *)
Definition ReadableOID (oid : asn1.ObjectIdentifier) : Prop :=
  match oid with
  | o0 :: o1 :: arcs =>
      0 <= o0 /\ 0 <= o1 /\ o0 * 40 + o1 <= asn1.MaxInt32
      /\ Forall (fun x => 0 <= x <= asn1.MaxInt32) arcs
  | _ => False
  end.

(** The entry [raw] of a certificate set is a universal SEQUENCE that
    [ParseCertificate] parses to [c]. *)
Definition X509Entry (ParseCertificate : bytes -> result x509.Certificate)
  (raw : asn1.RawValue) (c : x509.Certificate) : Prop :=
  asn1.Class raw = asn1.ClassUniversal
  /\ asn1.Tag raw = asn1.TagSequence
  /\ ParseCertificate (asn1.FullBytes raw) = Ok c.

(** The error [X509Certificates] gives for the entry [raw]. *)
Definition X509EntryError
  (ParseCertificate : bytes -> result x509.Certificate)
  (raw : asn1.RawValue) (e : error) : Prop :=
  ((asn1.Class raw <> asn1.ClassUniversal
    \/ asn1.Tag raw <> asn1.TagSequence)
   /\ e = Errorf "Unsupported certificate type (class %d, tag %d)"
            [asn1.Class raw; asn1.Tag raw])
  \/ (asn1.Class raw = asn1.ClassUniversal
      /\ asn1.Tag raw = asn1.TagSequence
      /\ ParseCertificate (asn1.FullBytes raw) = Err e).

(** * Values for the examples *)

(** Two certificates, cut down to the fields the package reads.  [Raw]
    and [RawIssuer] are short DER values. *)
Definition exampleCert : x509.Certificate :=
  {| x509.Raw := [48; 3; 2; 1; 5];
     x509.RawIssuer := [48; 0];
     x509.SerialNumber := 7;
     x509.PublicKey := crypto.PKIXKey [1; 2; 3];
     x509.SignatureAlgorithm_ := x509.SHA256WithRSA;
     x509.Extensions :=
       [{| pkix.Id := [2; 5; 29; 14]; pkix.Critical := false;
           pkix.Value := [4; 2; 10; 11] |}] |}.

Definition otherCert : x509.Certificate :=
  {| x509.Raw := [48; 3; 2; 1; 6];
     x509.RawIssuer := [48; 0];
     x509.SerialNumber := 8;
     x509.PublicKey := crypto.PKIXKey [9; 9; 9];
     x509.SignatureAlgorithm_ := x509.SHA256WithRSA;
     x509.Extensions :=
       [{| pkix.Id := [2; 5; 29; 14]; pkix.Critical := false;
           pkix.Value := [4; 2; 12; 13] |}] |}.

(** A signer holding the key of [exampleCert]. *)
Definition exampleSigner : crypto.Signer :=
  {| crypto.Public := crypto.PKIXKey [1; 2; 3];
     crypto.Sign := fun digest _ => Ok (digest ++ [0]) |}.

(** Stand-ins for the hash primitives in the examples: every hash is
    available, and the digest of [data] is two bytes. *)
Definition exampleAvailable (h : crypto.Hash) : bool := true.
Definition exampleSum (h : crypto.Hash) (data : bytes) : bytes :=
  [byte_of (len data); 170].

Definition noAlgorithm : pkix.AlgorithmIdentifier :=
  {| pkix.Algorithm := []; pkix.Parameters := asn1.zeroRawValue |}.

(** A version 1 SignerInfo whose SID names [exampleCert]: issuer
    [30 00], serial number 7. *)
Definition exampleSignerInfoV1 : SignerInfo :=
  {| si_Version := 1;
     SID := {| asn1.Class := 0; asn1.Tag := 16; asn1.IsCompound := true;
               asn1.Bytes := Some [48; 0; 2; 1; 7];
               asn1.FullBytes := [48; 5; 48; 0; 2; 1; 7] |};
     si_DigestAlgorithm := noAlgorithm;
     SignedAttrs := [];
     SignatureAlgorithm := noAlgorithm;
     Signature := None;
     UnsignedAttrs := [] |}.

(** The same SignerInfo with the illegal version 2. *)
Definition exampleSignerInfoV2 : SignerInfo :=
  {| si_Version := 2;
     SID := SID exampleSignerInfoV1;
     si_DigestAlgorithm := noAlgorithm;
     SignedAttrs := [];
     SignatureAlgorithm := noAlgorithm;
     Signature := None;
     UnsignedAttrs := [] |}.


(** An attached content carried as a constructed OCTET STRING of the
    two segments [61] and [62]. *)
Definition exampleConstructed : EncapsulatedContentInfo :=
  {| EContentType := oidData;
     EContent :=
       {| asn1.Class := asn1.ClassContextSpecific; asn1.Tag := 0;
          asn1.IsCompound := true;
          asn1.Bytes := Some [36; 6; 4; 1; 97; 4; 1; 98];
          asn1.FullBytes := [160; 8; 36; 6; 4; 1; 97; 4; 1; 98] |} |}.

(** The same with its first segment constructed in turn. *)
Definition exampleNested : EncapsulatedContentInfo :=
  {| EContentType := oidData;
     EContent :=
       {| asn1.Class := asn1.ClassContextSpecific; asn1.Tag := 0;
          asn1.IsCompound := true;
          asn1.Bytes := Some [36; 8; 36; 3; 4; 1; 97; 4; 1; 98];
          asn1.FullBytes := [160; 10; 36; 8; 36; 3; 4; 1; 97; 4; 1; 98] |} |}.

(** [exampleCert] as [addCertificate] files it. *)
Definition exampleCertRawValue : asn1.RawValue :=
  {| asn1.Class := 0; asn1.Tag := 16; asn1.IsCompound := true;
     asn1.Bytes := Some [2; 1; 5]; asn1.FullBytes := [48; 3; 2; 1; 5] |}.

(** The content "hello" of type id-data, attached, and the SignedData
    [NewSignedData] makes of it. *)
Definition exampleContent : EncapsulatedContentInfo :=
  {| EContentType := oidData;
     EContent :=
       {| asn1.Class := asn1.ClassContextSpecific; asn1.Tag := 0;
          asn1.IsCompound := true;
          asn1.Bytes := Some [4; 5; 104; 101; 108; 108; 111];
          asn1.FullBytes := [] |} |}.

Definition exampleSignedData : SignedData :=
  {| Version := 1; DigestAlgorithms := [];
     EncapContentInfo := exampleContent;
     Certificates := []; CRLs := []; SignerInfos := [] |}.

(** A SignedData whose content is detached. *)
Definition exampleDetached : SignedData :=
  {| Version := 1; DigestAlgorithms := [];
     EncapContentInfo :=
       {| EContentType := oidData; EContent := asn1.zeroRawValue |};
     Certificates := []; CRLs := []; SignerInfos := [] |}.

(** A SignedData around a content of type id-ct-TSTInfo. *)
Definition exampleTSTInfoSignedData : SignedData :=
  {| Version := 3; DigestAlgorithms := [];
     EncapContentInfo :=
       {| EContentType := oidTSTInfo;
          EContent :=
            {| asn1.Class := asn1.ClassContextSpecific; asn1.Tag := 0;
               asn1.IsCompound := true;
               asn1.Bytes := Some [4; 2; 48; 0];
               asn1.FullBytes := [] |} |};
     Certificates := []; CRLs := []; SignerInfos := [] |}.


(** The signed attributes [AddSignerInfo] builds over "hello" with the
    stand-in digest. *)
Definition exampleSignedAttrs : Attributes :=
  [ {| Type_ := oidAttributeMessageDigest;
       RawValue :=
         {| asn1.Class := 0; asn1.Tag := 17; asn1.IsCompound := true;
            asn1.Bytes := Some [4; 2; 5; 170];
            asn1.FullBytes := [49; 4; 4; 2; 5; 170] |} |};
    {| Type_ := oidAttributeContentType;
       RawValue :=
         {| asn1.Class := 0; asn1.Tag := 17; asn1.IsCompound := true;
            asn1.Bytes := Some [6; 9; 42; 134; 72; 134; 247; 13; 1; 7; 1];
            asn1.FullBytes :=
              [49; 11; 6; 9; 42; 134; 72; 134; 247; 13; 1; 7; 1] |} |} ].

(** A stand-in for [x509.ParseCertificate] in the examples: it knows the
    encodings of the two example certificates. *)
Definition exampleParseCertificate (der : bytes) : result x509.Certificate :=
  if bytes_Equal der (x509.Raw exampleCert) then Ok exampleCert
  else if bytes_Equal der (x509.Raw otherCert) then Ok otherCert
  else Err (ErrorString "x509: malformed certificate").

(** The content type attribute [NewAttribute] makes of id-ct-TSTInfo,
    and a SignerInfo that carries it after a message digest
    attribute. *)
Definition exampleTSTInfoContentType : Attribute :=
  {| Type_ := oidAttributeContentType;
     RawValue :=
       {| asn1.Class := 0; asn1.Tag := 17; asn1.IsCompound := true;
          asn1.Bytes :=
            Some [6; 11; 42; 134; 72; 134; 247; 13; 1; 9; 16; 1; 4];
          asn1.FullBytes :=
            [49; 13; 6; 11; 42; 134; 72; 134; 247; 13; 1; 9; 16; 1; 4] |} |}.

Definition exampleTSTInfoSignerInfo : SignerInfo :=
  {| si_Version := 1;
     SID := asn1.zeroRawValue;
     si_DigestAlgorithm := noAlgorithm;
     SignedAttrs := firstn 1 exampleSignedAttrs ++ [exampleTSTInfoContentType];
     SignatureAlgorithm := noAlgorithm;
     Signature := None;
     UnsignedAttrs := [] |}.

(** * Properties *)

(** ** Equality tests *)

Lemma bytes_Equal_eq (a b : bytes) : bytes_Equal a b = true <-> a = b.
Proof.
  revert b; induction a as [|x a IH]; intros [|y b]; simpl;
    try (split; [discriminate | congruence]); [tauto|].
  rewrite andb_true_iff, Z.eqb_eq, IH.
  split; [intros [-> ->]; reflexivity | intros [= -> ->]; auto].
Qed.

Lemma bytes_Equal_neq (a b : bytes) : bytes_Equal a b = false <-> a <> b.
Proof.
  rewrite <- bytes_Equal_eq. destruct (bytes_Equal a b); split; congruence.
Qed.

Lemma Equal_eq (a b : asn1.ObjectIdentifier) :
  asn1.Equal a b = true <-> a = b.
Proof.
  revert b; induction a as [|x a IH]; intros [|y b]; simpl;
    try (split; [discriminate | congruence]); [tauto|].
  rewrite andb_true_iff, Z.eqb_eq, IH.
  split; [intros [-> ->]; reflexivity | intros [= -> ->]; auto].
Qed.

Lemma Equal_neq (a b : asn1.ObjectIdentifier) :
  asn1.Equal a b = false <-> a <> b.
Proof.
  rewrite <- Equal_eq. destruct (asn1.Equal a b); split; congruence.
Qed.

(** ** NewSignedData *)

(** C3: [NewSignedData] never fails; the version of the SignedData it
    returns is 1 when the content type of [eci] is id-data and 3
    otherwise. *)
Theorem NewSignedData_version (eci : EncapsulatedContentInfo) :
  exists sd,
    NewSignedData eci = Ok sd
    /\ EncapContentInfo sd = eci
    /\ (EContentType eci = [1; 2; 840; 113549; 1; 7; 1] -> Version sd = 1)
    /\ (EContentType eci <> [1; 2; 840; 113549; 1; 7; 1] -> Version sd = 3).
Proof.
  unfold NewSignedData, IsTypeData.
  eexists; split; [reflexivity|]; simpl.
  split; [reflexivity|].
  destruct (asn1.Equal (EContentType eci) oidData) eqn:E; simpl.
  - apply Equal_eq in E. split; [reflexivity | intros H; elim H; exact E].
  - apply Equal_neq in E. split; [intros H; elim E; exact H | reflexivity].
Qed.

(** ** FindCertificate *)

Lemma findByIssuerAndSerial_Some isn certs c :
  findByIssuerAndSerial isn certs = Some c
  <-> FirstMatch (MatchesIssuerAndSerial isn) certs c.
Proof.
  unfold FirstMatch, MatchesIssuerAndSerial.
  induction certs as [|x certs IH]; simpl.
  - split; [discriminate|]. intros (pre & post & H & _).
    destruct pre; discriminate.
  - destruct (bytes_Equal _ _) eqn:Eb; simpl.
    + destruct (Z.eqb_spec (SerialNumber isn) (x509.SerialNumber x))
        as [Es|Es].
      * apply bytes_Equal_eq in Eb. split.
        -- intros [= <-]. exists [], certs. simpl. intuition.
        -- intros (pre & post & H & [Hi Hs] & Hpre).
           destruct pre as [|y pre]; simpl in H; injection H as -> ->.
           ++ reflexivity.
           ++ exfalso. apply (Hpre y); simpl; auto.
      * rewrite IH. split.
        -- intros (pre & post & -> & Hc & Hpre).
           exists (x :: pre), post. simpl. split; [reflexivity|].
           split; [exact Hc|]. intros c' [<-|Hin]; [|auto].
           intros [_ Hs]. congruence.
        -- intros (pre & post & H & Hc & Hpre).
           destruct pre as [|y pre]; simpl in H; injection H as -> ->.
           ++ destruct Hc as [_ Hs]. congruence.
           ++ exists pre, post. split; [reflexivity|].
              split; [exact Hc|]. intros c' Hin. apply Hpre. simpl; auto.
    + apply bytes_Equal_neq in Eb. rewrite IH. split.
      * intros (pre & post & -> & Hc & Hpre).
        exists (x :: pre), post. simpl. split; [reflexivity|].
        split; [exact Hc|]. intros c' [<-|Hin]; [|auto].
        intros [Hi _]. congruence.
      * intros (pre & post & H & Hc & Hpre).
        destruct pre as [|y pre]; simpl in H; injection H as -> ->.
        -- destruct Hc as [Hi _]. congruence.
        -- exists pre, post. split; [reflexivity|].
           split; [exact Hc|]. intros c' Hin. apply Hpre. simpl; auto.
Qed.

Lemma findByIssuerAndSerial_None isn certs :
  findByIssuerAndSerial isn certs = None
  <-> forall c, In c certs -> ~ MatchesIssuerAndSerial isn c.
Proof.
  unfold MatchesIssuerAndSerial.
  induction certs as [|x certs IH]; simpl; [tauto|].
  destruct (bytes_Equal _ _) eqn:Eb; simpl.
  - destruct (Z.eqb_spec (SerialNumber isn) (x509.SerialNumber x))
      as [Es|Es].
    + apply bytes_Equal_eq in Eb. split; [discriminate|].
      intros H. exfalso. apply (H x); auto.
    + rewrite IH. split.
      * intros H c [<-|Hin]; [intros [_ Hs]; congruence | auto].
      * intros H c Hin. apply H. auto.
  - apply bytes_Equal_neq in Eb. rewrite IH. split.
    + intros H c [<-|Hin]; [intros [Hi _]; congruence | auto].
    + intros H c Hin. apply H. auto.
Qed.

Lemma hasSubjectKeyIdentifier_true ski exts :
  hasSubjectKeyIdentifier ski exts = true
  <-> exists ext,
        In ext exts /\ pkix.Id ext = [2; 5; 29; 14] /\ pkix.Value ext = ski.
Proof.
  induction exts as [|x exts IH]; cbn [hasSubjectKeyIdentifier In].
  - split; [discriminate | intros (? & [] & _)].
  - destruct (asn1.Equal oidSubjectKeyIdentifier (pkix.Id x)) eqn:Eo.
    + apply Equal_eq in Eo. destruct (bytes_Equal ski (pkix.Value x)) eqn:Eb.
      * apply bytes_Equal_eq in Eb. split; [|reflexivity].
        intros _. exists x. auto.
      * apply bytes_Equal_neq in Eb. rewrite IH. split.
        -- intros (e & Hin & H). exists e. auto.
        -- intros (e & [<-|Hin] & Hid & Hv); [congruence|]. exists e. auto.
    + apply Equal_neq in Eo. rewrite IH. split.
      * intros (e & Hin & H). exists e. auto.
      * intros (e & [<-|Hin] & Hid & Hv).
        -- elim Eo. symmetry. exact Hid.
        -- exists e. auto.
Qed.

Lemma findBySubjectKeyIdentifier_Some ski certs c :
  findBySubjectKeyIdentifier ski certs = Some c
  <-> FirstMatch (MatchesSubjectKeyIdentifier ski) certs c.
Proof.
  unfold FirstMatch, MatchesSubjectKeyIdentifier.
  induction certs as [|x certs IH]; simpl.
  - split; [discriminate|]. intros (pre & post & H & _).
    destruct pre; discriminate.
  - destruct (hasSubjectKeyIdentifier ski (x509.Extensions x)) eqn:Eh.
    + apply hasSubjectKeyIdentifier_true in Eh. split.
      * intros [= <-]. exists [], certs. simpl. intuition.
      * intros (pre & post & H & Hc & Hpre).
        destruct pre as [|y pre]; simpl in H; injection H as -> ->.
        -- reflexivity.
        -- exfalso. apply (Hpre y); simpl; auto.
    + assert (Hx : ~ exists ext, In ext (x509.Extensions x)
                     /\ pkix.Id ext = [2; 5; 29; 14] /\ pkix.Value ext = ski).
      { rewrite <- hasSubjectKeyIdentifier_true. congruence. }
      rewrite IH. split.
      * intros (pre & post & -> & Hc & Hpre).
        exists (x :: pre), post. simpl. split; [reflexivity|].
        split; [exact Hc|]. intros c' [<-|Hin]; auto.
      * intros (pre & post & H & Hc & Hpre).
        destruct pre as [|y pre]; simpl in H; injection H as -> ->.
        -- contradiction.
        -- exists pre, post. split; [reflexivity|].
           split; [exact Hc|]. intros c' Hin. apply Hpre. simpl; auto.
Qed.

Lemma findBySubjectKeyIdentifier_None ski certs :
  findBySubjectKeyIdentifier ski certs = None
  <-> forall c, In c certs -> ~ MatchesSubjectKeyIdentifier ski c.
Proof.
  unfold MatchesSubjectKeyIdentifier.
  induction certs as [|x certs IH]; simpl; [tauto|].
  destruct (hasSubjectKeyIdentifier ski (x509.Extensions x)) eqn:Eh.
  - apply hasSubjectKeyIdentifier_true in Eh. split; [discriminate|].
    intros H. exfalso. apply (H x); auto.
  - assert (Hx : ~ exists ext, In ext (x509.Extensions x)
                   /\ pkix.Id ext = [2; 5; 29; 14] /\ pkix.Value ext = ski).
    { rewrite <- hasSubjectKeyIdentifier_true. congruence. }
    rewrite IH. split.
    + intros H c [<-|Hin]; auto.
    + intros H c Hin. apply H. auto.
Qed.

(** C10: with no candidate certificate, [FindCertificate] returns the
    error "no certificates" whatever the version of the SignerInfo, the
    illegal ones included: the test comes before the dispatch. *)
Theorem FindCertificate_no_certificates (si : SignerInfo) :
  FindCertificate si [] = Err (ErrorString "no certificates").
Proof. reflexivity. Qed.

Lemma FindCertificate_nonempty si certs :
  certs <> [] ->
  FindCertificate si certs
  = let* found :=
      (if si_Version si =? 1 then
         let* isn := issuerAndSerialNumberSID si in
         Ok (findByIssuerAndSerial isn certs)
       else if si_Version si =? 3 then
         let* ski := subjectKeyIdentifierSID si in
         Ok (findBySubjectKeyIdentifier ski certs)
       else Err (ErrorString "unknown SignerInfo version")) in
    match found with
    | Some cert => Ok cert
    | None => Err (ErrorString "no matching certificate")
    end.
Proof. destruct certs; [congruence | reflexivity]. Qed.

(** C4, amended: for a list of candidates that is not empty,
    [FindCertificate] dispatches on the version.  With version 1 (resp.
    3) an error of decoding the SID as issuer and serial number (resp.
    subject key identifier) is returned as it is; otherwise the result
    is the first candidate, in list order, with the issuer bytes and the
    serial number of the SID (resp. with a subject key identifier
    extension of the SID's value), and "no matching certificate" exactly
    when no candidate has them.  Any other version gives "unknown
    SignerInfo version". *)
Theorem FindCertificate_dispatch (si : SignerInfo)
  (certs : list x509.Certificate) :
  certs <> [] ->
  (si_Version si = 1 ->
     (forall e, issuerAndSerialNumberSID si = Err e ->
                FindCertificate si certs = Err e)
     /\ (forall isn, issuerAndSerialNumberSID si = Ok isn ->
           (forall c, FindCertificate si certs = Ok c
                      <-> FirstMatch (MatchesIssuerAndSerial isn) certs c)
           /\ (FindCertificate si certs
               = Err (ErrorString "no matching certificate")
               <-> forall c, In c certs -> ~ MatchesIssuerAndSerial isn c)))
  /\ (si_Version si = 3 ->
        (forall e, subjectKeyIdentifierSID si = Err e ->
                   FindCertificate si certs = Err e)
        /\ (forall ski, subjectKeyIdentifierSID si = Ok ski ->
              (forall c, FindCertificate si certs = Ok c
                         <-> FirstMatch (MatchesSubjectKeyIdentifier ski)
                               certs c)
              /\ (FindCertificate si certs
                  = Err (ErrorString "no matching certificate")
                  <-> forall c, In c certs
                                -> ~ MatchesSubjectKeyIdentifier ski c)))
  /\ (si_Version si <> 1 -> si_Version si <> 3 ->
        FindCertificate si certs
        = Err (ErrorString "unknown SignerInfo version")).
Proof.
  intros Hne. rewrite (FindCertificate_nonempty si certs Hne).
  split; [|split].
  - intros ->. simpl. split.
    + intros e ->. reflexivity.
    + intros isn ->. simpl. split.
      * intros c. rewrite <- findByIssuerAndSerial_Some.
        destruct (findByIssuerAndSerial isn certs);
          split; congruence.
      * rewrite <- findByIssuerAndSerial_None.
        destruct (findByIssuerAndSerial isn certs);
          split; congruence.
  - intros ->. simpl. split.
    + intros e ->. reflexivity.
    + intros ski ->. simpl. split.
      * intros c. rewrite <- findBySubjectKeyIdentifier_Some.
        destruct (findBySubjectKeyIdentifier ski certs);
          split; congruence.
      * rewrite <- findBySubjectKeyIdentifier_None.
        destruct (findBySubjectKeyIdentifier ski certs);
          split; congruence.
  - intros H1 H3.
    destruct (Z.eqb_spec (si_Version si) 1); [contradiction|].
    destruct (Z.eqb_spec (si_Version si) 3); [contradiction|].
    reflexivity.
Qed.

(** The amended C4 at work: the SID of [exampleSignerInfoV1] decodes,
    and of two candidates the second one is found. *)
Lemma FindCertificate_dispatch_witness :
  FindCertificate exampleSignerInfoV1 [otherCert; exampleCert]
  = Ok exampleCert.
Proof.
  assert (Hne : [otherCert; exampleCert] <> []) by discriminate.
  destruct (FindCertificate_dispatch exampleSignerInfoV1 _ Hne) as [H1 _].
  destruct (H1 eq_refl) as [_ Hok].
  destruct (Hok {| Issuer :=
                     {| asn1.Class := 0; asn1.Tag := 16;
                        asn1.IsCompound := true; asn1.Bytes := Some [];
                        asn1.FullBytes := [48; 0] |};
                   SerialNumber := 7 |} eq_refl) as [Hiff _].
  apply Hiff. exists [otherCert], []. split; [reflexivity|].
  split; [split; reflexivity|].
  intros c' [<-|[]] [_ H]. discriminate H.
Defined.

(** C4 as it was stated fails where the list of candidates is empty: a
    SignerInfo of version 2 gets "no certificates", not "unknown
    SignerInfo version". *)
Lemma FindCertificate_version2_no_candidates :
  FindCertificate exampleSignerInfoV2 []
  = Err (ErrorString "no certificates")
  /\ FindCertificate exampleSignerInfoV2 []
     <> Err (ErrorString "unknown SignerInfo version").
Proof. split; [reflexivity | discriminate]. Qed.

(** Nor does a legal version with no matching candidate always get "no
    matching certificate": a version 1 SignerInfo whose SID is a
    subject key identifier gets [ErrWrongType]. *)
Example FindCertificate_version1_wrong_SID :
  FindCertificate
    {| si_Version := 1;
       SID := {| asn1.Class := 2; asn1.Tag := 0; asn1.IsCompound := false;
                 asn1.Bytes := Some [10; 11];
                 asn1.FullBytes := [128; 2; 10; 11] |};
       si_DigestAlgorithm := noAlgorithm;
       SignedAttrs := [];
       SignatureAlgorithm := noAlgorithm;
       Signature := None;
       UnsignedAttrs := [] |} [otherCert]
  = Err ErrWrongType.
Proof. reflexivity. Qed.

(** ** Attributes *)

Lemma len_one {A} (l : list A) : (len l =? 1) = true -> exists x, l = [x].
Proof.
  unfold len. intros H. apply Z.eqb_eq in H.
  destruct l as [|x [|y l]]; cbn [length] in H; try lia. eauto.
Qed.

Lemma GetValues_Ok attrs oid vals :
  GetValues attrs oid = Ok vals
  <-> Forall2 (fun a s => Value a = Ok s) (AttributesOfType oid attrs) vals.
Proof.
  unfold AttributesOfType. revert vals.
  induction attrs as [|a attrs IH]; intros vals; cbn [GetValues List.filter].
  - split.
    + intros [= <-]. constructor.
    + intros H. inversion H. reflexivity.
  - destruct (asn1.Equal (Type_ a) oid) eqn:E.
    + apply Equal_eq in E. rewrite bool_decide_eq_true_2 by exact E.
      destruct (Value a) as [s|e] eqn:Ev; cbn [bind].
      * destruct (GetValues attrs oid) as [vs|e] eqn:Eg; cbn [bind].
        -- split.
           ++ intros [= <-]. constructor; [exact Ev | apply IH; reflexivity].
           ++ intros H. inversion H as [|? s' ? vs' Hs Hrest]; subst.
              apply IH in Hrest. congruence.
        -- split; [discriminate|].
           intros H. inversion H as [|? s' ? vs' Hs Hrest]; subst.
           apply IH in Hrest. discriminate.
      * split; [discriminate|].
        intros H. inversion H as [|? s' ? vs' Hs Hrest]; subst. congruence.
    + apply Equal_neq in E. rewrite bool_decide_eq_false_2 by exact E.
      apply IH.
Qed.

(** C5: [GetOnlyAttributeValueBytes] returns a value exactly when one
    attribute of the list has the OID and its value set decodes to
    exactly one element, which is then the value returned; when no
    attribute or more than one has the OID it returns an error, and so
    it does when the one attribute with the OID has no value or more
    than one. *)
Theorem GetOnlyAttributeValueBytes_exactly_one (attrs : Attributes)
  (oid : asn1.ObjectIdentifier) :
  (forall v,
     GetOnlyAttributeValueBytes attrs oid = Ok v
     <-> exists a, AttributesOfType oid attrs = [a]
                   /\ Value a = Ok {| Elements := [v] |})
  /\ (length (AttributesOfType oid attrs) <> 1%nat ->
      exists e, GetOnlyAttributeValueBytes attrs oid = Err e)
  /\ (forall a s,
        AttributesOfType oid attrs = [a] -> Value a = Ok s ->
        length (Elements s) <> 1%nat ->
        exists e, GetOnlyAttributeValueBytes attrs oid = Err e).
Proof.
  unfold GetOnlyAttributeValueBytes.
  destruct (GetValues attrs oid) as [vals|e] eqn:Eg; cbn [bind].
  - apply GetValues_Ok in Eg. split; [|split].
    + intros v. split.
      * destruct (len vals =? 1) eqn:E1; cbn [negb]; [|discriminate].
        apply len_one in E1 as [s ->]. cbn [nth].
        destruct (len (Elements s) =? 1) eqn:E2; cbn [negb]; [|discriminate].
        destruct s as [elts]. cbn [Elements] in *.
        apply len_one in E2 as [elt ->]. cbn [nth].
        intros [= <-]. inversion Eg as [|a ? l ? Ha Hl]; subst.
        inversion Hl; subst. exists a. auto.
      * intros (a & Hf & Hv). rewrite Hf in Eg.
        inversion Eg as [|? s ? l Ha Hl]; subst. inversion Hl; subst.
        assert (s = {| Elements := [v] |}) as -> by congruence.
        reflexivity.
    + intros Hlen. apply Forall2_length in Eg. unfold len.
      destruct (Z.eqb_spec (Z.of_nat (length vals)) 1) as [H|H];
        [lia | cbn; eauto].
    + intros a s Hf Hv Hlen. rewrite Hf in Eg.
      inversion Eg as [|? s' ? l Ha Hl]; subst. inversion Hl; subst.
      assert (s' = s) as -> by congruence. cbn. unfold len.
      destruct (Z.eqb_spec (Z.of_nat (length (Elements s))) 1) as [H|H];
        [lia | cbn; eauto].
  - split; [|split]; eauto.
    intros v. split; [discriminate|]. intros (a & Hf & Hv).
    assert (H : GetValues attrs oid = Ok [{| Elements := [v] |}]).
    { apply GetValues_Ok. rewrite Hf. repeat constructor. exact Hv. }
    congruence.
Qed.

(** ** The string of an OID *)

Lemma pretty_N_char_nodot x : pretty_N_char x <> "."%char.
Proof. unfold pretty_N_char. repeat case_match; discriminate. Qed.

Lemma pretty_N_go_nodot x s : nodot s -> nodot (pretty_N_go x s).
Proof.
  revert s. induction (N.lt_wf_0 x) as [x _ IH]; intros s Hs.
  destruct (N.eq_dec x 0%N) as [->|Hx]; [exact Hs|].
  rewrite pretty_N_go_step by lia.
  apply IH; [apply N.div_lt; lia|].
  split; [apply pretty_N_char_nodot | exact Hs].
Qed.

Lemma pretty_N_go_length x s :
  (String.length s <= String.length (pretty_N_go x s))%nat.
Proof.
  revert s. induction (N.lt_wf_0 x) as [x _ IH]; intros s.
  destruct (N.eq_dec x 0%N) as [->|Hx]; [reflexivity|].
  rewrite pretty_N_go_step by lia.
  etransitivity; [|apply IH; apply N.div_lt; lia]. simpl. lia.
Qed.

Lemma pretty_N_go_nonempty x : (0 < x)%N -> pretty_N_go x "" <> "".
Proof.
  intros Hx H. rewrite pretty_N_go_step in H by exact Hx.
  pose proof (pretty_N_go_length (x `div` 10)%N
                (String.String (pretty_N_char (x `mod` 10)%N) "")) as Hl.
  rewrite H in Hl. simpl in Hl. lia.
Qed.

Lemma pretty_Z_nodot (z : Z) : nodot (pretty z).
Proof.
  destruct z as [|p|p]; unfold pretty, pretty_Z, pretty, pretty_positive,
    pretty, pretty_N.
  - simpl. split; [discriminate | exact I].
  - case_decide; [discriminate|]. apply pretty_N_go_nodot. exact I.
  - case_decide; [discriminate|]. simpl. split; [discriminate|].
    apply pretty_N_go_nodot. exact I.
Qed.

Lemma pretty_Z_nonempty (z : Z) : pretty z <> "".
Proof.
  destruct z as [|p|p]; unfold pretty, pretty_Z, pretty, pretty_positive,
    pretty, pretty_N.
  - discriminate.
  - case_decide; [discriminate|]. apply pretty_N_go_nonempty. lia.
  - discriminate.
Qed.

Lemma append_nil_l (s : string) : ("" ++ s)%string = s.
Proof. reflexivity. Qed.

Lemma append_cons c (s t : string) :
  (String.String c s ++ t)%string = String.String c (s ++ t)%string.
Proof. reflexivity. Qed.

Lemma app_dot_inj x y r r' :
  nodot x -> nodot y ->
  (x ++ "." ++ r = y ++ "." ++ r')%string -> x = y /\ r = r'.
Proof.
  revert y. induction x as [|c x IH]; intros [|d y] Hx Hy;
    rewrite ?append_cons, ?append_nil_l.
  - intros [= ->]. auto.
  - intros [= <- _]. destruct Hy as [Hd _]. congruence.
  - intros [= -> _]. destruct Hx as [Hc _]. congruence.
  - intros [= -> H]. destruct Hx as [_ Hx], Hy as [_ Hy].
    destruct (IH y Hx Hy H) as [-> ->]. auto.
Qed.

Lemma nodot_app_dot x y r : nodot x -> x <> (y ++ "." ++ r)%string.
Proof.
  revert y. induction x as [|c x IH]; intros [|d y] Hx;
    rewrite ?append_cons, ?append_nil_l; try discriminate.
  - intros [= -> _]. destruct Hx as [Hc _]. congruence.
  - intros [= -> H]. destruct Hx as [_ Hx]. exact (IH y Hx H).
Qed.

Lemma concat_dot_inj (l l' : list string) :
  Forall (fun s => nodot s /\ s <> "") l ->
  Forall (fun s => nodot s /\ s <> "") l' ->
  String.concat "." l = String.concat "." l' -> l = l'.
Proof.
  revert l'. induction l as [|x l IH]; intros l' Hl Hl' H.
  - destruct l' as [|y [|y' l']]; [reflexivity| |]; simpl in H;
      inversion Hl' as [|? ? [_ Hy] _]; subst.
    + congruence.
    + destruct y; [congruence | discriminate].
  - inversion Hl as [|? ? [Hx Hxe] Hl1]; subst.
    destruct l' as [|y l'].
    + destruct l as [|x' l]; simpl in H; [congruence|].
      destruct x; [congruence | discriminate].
    + inversion Hl' as [|? ? [Hy Hye] Hl1']; subst.
      destruct l as [|x' l], l' as [|y' l'].
      * simpl in H. congruence.
      * exfalso. exact (nodot_app_dot _ _ _ Hx H).
      * exfalso. symmetry in H. exact (nodot_app_dot _ _ _ Hy H).
      * change ((x ++ "." ++ String.concat "." (x' :: l))%string
                = (y ++ "." ++ String.concat "." (y' :: l'))%string) in H.
        apply app_dot_inj in H as [-> H]; [|assumption..].
        f_equal. apply IH; assumption.
Qed.

Lemma String_inj (a b : asn1.ObjectIdentifier) :
  asn1.String a = asn1.String b -> a = b.
Proof.
  unfold asn1.String. intros H. apply concat_dot_inj in H.
  - revert b H. induction a as [|x a IH]; intros [|y b]; simpl;
      try discriminate; [reflexivity|].
    intros [= Hxy H]. apply (inj pretty) in Hxy. f_equal; auto.
  - apply List.Forall_forall. intros s Hs.
    apply in_map_iff in Hs as (z & <- & _).
    split; [apply pretty_Z_nodot | apply pretty_Z_nonempty].
  - apply List.Forall_forall. intros s Hs.
    apply in_map_iff in Hs as (z & <- & _).
    split; [apply pretty_Z_nodot | apply pretty_Z_nonempty].
Qed.

(** A map literal keyed by the strings of OIDs is read by the string of
    an OID as the association list over the OIDs is read by the OID. *)
Lemma lookup_byString {V} (l : list (asn1.ObjectIdentifier * V)) oid :
  (list_to_map (byString l) : gmap string V) !! asn1.String oid
  = assocOID oid l.
Proof.
  induction l as [|[o v] l IH]; cbn [byString map assocOID fst snd].
  - apply lookup_empty.
  - rewrite list_to_map_cons, lookup_insert. fold (byString l).
    destruct (asn1.Equal o oid) eqn:E.
    + apply Equal_eq in E. subst. rewrite decide_True; reflexivity.
    + apply Equal_neq in E. rewrite decide_False; [exact IH|].
      intros H. apply E. apply String_inj. exact H.
Qed.

(** ** The algorithm registry *)


Lemma signatureAlgorithms_lookup sigOID digestOID :
  signatureAlgorithms !! asn1.String sigOID
    ≫= (fun byDigest => byDigest !! asn1.String digestOID)
  = assocOID sigOID
      [ (oidSignatureAlgorithmRSA,
         [ (oidDigestAlgorithmSHA1, x509.SHA1WithRSA);
           (oidDigestAlgorithmMD5, x509.MD5WithRSA);
           (oidDigestAlgorithmSHA256, x509.SHA256WithRSA);
           (oidDigestAlgorithmSHA384, x509.SHA384WithRSA);
           (oidDigestAlgorithmSHA512, x509.SHA512WithRSA) ]);
        (oidSignatureAlgorithmECDSA,
         [ (oidDigestAlgorithmSHA1, x509.ECDSAWithSHA1);
           (oidDigestAlgorithmSHA256, x509.ECDSAWithSHA256);
           (oidDigestAlgorithmSHA384, x509.ECDSAWithSHA384);
           (oidDigestAlgorithmSHA512, x509.ECDSAWithSHA512) ]) ]
    ≫= assocOID digestOID.
Proof.
  pose proof
    (lookup_byString
       [ (oidSignatureAlgorithmRSA,
          (list_to_map
             (byString
                [ (oidDigestAlgorithmSHA1, x509.SHA1WithRSA);
                  (oidDigestAlgorithmMD5, x509.MD5WithRSA);
                  (oidDigestAlgorithmSHA256, x509.SHA256WithRSA);
                  (oidDigestAlgorithmSHA384, x509.SHA384WithRSA);
                  (oidDigestAlgorithmSHA512, x509.SHA512WithRSA) ])
           : gmap string x509.SignatureAlgorithm));
         (oidSignatureAlgorithmECDSA,
          list_to_map
            (byString
               [ (oidDigestAlgorithmSHA1, x509.ECDSAWithSHA1);
                 (oidDigestAlgorithmSHA256, x509.ECDSAWithSHA256);
                 (oidDigestAlgorithmSHA384, x509.ECDSAWithSHA384);
                 (oidDigestAlgorithmSHA512, x509.ECDSAWithSHA512) ]) ) ]
       sigOID) as H.
  change (signatureAlgorithms !! asn1.String sigOID) with
    ((list_to_map
        (byString
           [ (oidSignatureAlgorithmRSA,
              (list_to_map
                 (byString
                    [ (oidDigestAlgorithmSHA1, x509.SHA1WithRSA);
                      (oidDigestAlgorithmMD5, x509.MD5WithRSA);
                      (oidDigestAlgorithmSHA256, x509.SHA256WithRSA);
                      (oidDigestAlgorithmSHA384, x509.SHA384WithRSA);
                      (oidDigestAlgorithmSHA512, x509.SHA512WithRSA) ])
               : gmap string x509.SignatureAlgorithm));
             (oidSignatureAlgorithmECDSA,
              list_to_map
                (byString
                   [ (oidDigestAlgorithmSHA1, x509.ECDSAWithSHA1);
                     (oidDigestAlgorithmSHA256, x509.ECDSAWithSHA256);
                     (oidDigestAlgorithmSHA384, x509.ECDSAWithSHA384);
                     (oidDigestAlgorithmSHA512, x509.ECDSAWithSHA512) ]) ) ])
      : gmap string (gmap string x509.SignatureAlgorithm))
       !! asn1.String sigOID).
  rewrite H. cbn [assocOID].
  destruct (asn1.Equal oidSignatureAlgorithmRSA sigOID); cbn [mbind option_bind].
  { apply lookup_byString. }
  destruct (asn1.Equal oidSignatureAlgorithmECDSA sigOID);
    cbn [mbind option_bind]; [apply lookup_byString | reflexivity].
Qed.





(** ** Reading one TLV *)

Lemma parseBase128Int_loop_shorter shifted ret64 bs x rest :
  asn1.parseBase128Int_loop shifted ret64 bs = Ok (x, rest) ->
  (length rest < length bs)%nat.
Proof.
  revert shifted ret64.
  induction bs as [|b bs IH]; intros shifted ret64; simpl; [discriminate|].
  repeat case_match; try discriminate.
  - intros [= <- <-]. lia.
  - intros Hrec. apply IH in Hrec. lia.
Qed.

Lemma parseLength_loop_shorter n length0 bs x rest :
  asn1.parseLength_loop n length0 bs = Ok (x, rest) ->
  (length rest <= length bs)%nat.
Proof.
  revert length0 bs.
  induction n as [|n IH]; intros length0 bs; simpl.
  - intros [= <- <-]. lia.
  - destruct bs as [|b bs]; [discriminate|].
    repeat case_match; try discriminate.
    intros Hrec. apply IH in Hrec. simpl. lia.
Qed.

Lemma parseTagAndLength_shorter bs t rest :
  asn1.parseTagAndLength bs = Ok (t, rest) ->
  (length rest < length bs)%nat.
Proof.
  unfold asn1.parseTagAndLength. destruct bs as [|b bs]; [discriminate|].
  cbn zeta.
  destruct (Z.land b 31 =? 31).
  - unfold asn1.parseBase128Int.
    destruct (asn1.parseBase128Int_loop 0 0 bs) as [[x r]|e] eqn:Ep;
      cbn [bind]; [|discriminate].
    apply parseBase128Int_loop_shorter in Ep.
    destruct (x <? 31); cbn [bind]; [discriminate|].
    destruct r as [|b' r]; [discriminate|].
    destruct (Z.land b' 128 =? 0).
    + intros [= <- <-]. simpl in *. lia.
    + destruct (Z.land b' 127 =? 0); [discriminate|].
      destruct (asn1.parseLength_loop _ 0 r) as [[l r']|e] eqn:El;
        cbn [bind]; [|discriminate].
      apply parseLength_loop_shorter in El.
      destruct (l <? 128); [discriminate|].
      intros [= <- <-]. simpl in *. lia.
  - cbn [bind].
    destruct bs as [|b' r]; [discriminate|].
    destruct (Z.land b' 128 =? 0).
    + intros [= <- <-]. simpl in *. lia.
    + destruct (Z.land b' 127 =? 0); [discriminate|].
      destruct (asn1.parseLength_loop _ 0 r) as [[l r']|e] eqn:El;
        cbn [bind]; [|discriminate].
      apply parseLength_loop_shorter in El.
      destruct (l <? 128); [discriminate|].
      intros [= <- <-]. simpl in *. lia.
Qed.

(** A TLV that is read takes at least its two header bytes. *)
Lemma UnmarshalRawValue_shorter bs rv rest :
  asn1.UnmarshalRawValue bs = Ok (rv, rest) ->
  (length rest < length bs)%nat.
Proof.
  unfold asn1.UnmarshalRawValue. destruct bs as [|b bs]; [discriminate|].
  destruct (asn1.parseTagAndLength (b :: bs)) as [[t r]|e] eqn:Ep;
    cbn [bind]; [|discriminate].
  apply parseTagAndLength_shorter in Ep.
  destruct (len r <? asn1.tl_length t); [discriminate|].
  intros [= <- <-]. rewrite length_skipn. lia.
Qed.

(** ** EContentValue *)

Lemma len_pos {A} (l : list A) : l <> [] -> (0 <? len l) = true.
Proof.
  intros H. destruct l; [congruence|]. unfold len. simpl length.
  apply Z.ltb_lt. lia.
Qed.

Lemma segment_check (rv : asn1.RawValue) :
  negb (asn1.Class rv =? asn1.ClassUniversal)
  || negb (asn1.Tag rv =? asn1.TagOctetString)
  || asn1.IsCompound rv = false
  <-> PrimitiveOctetString rv.
Proof.
  unfold PrimitiveOctetString, asn1.ClassUniversal, asn1.TagOctetString.
  destruct (Z.eqb_spec (asn1.Class rv) 0), (Z.eqb_spec (asn1.Tag rv) 4),
    (asn1.IsCompound rv); simpl; intuition congruence.
Qed.

Lemma segment_check_bad (rv : asn1.RawValue) :
  ~ PrimitiveOctetString rv ->
  negb (asn1.Class rv =? asn1.ClassUniversal)
  || negb (asn1.Tag rv =? asn1.TagOctetString)
  || asn1.IsCompound rv = true.
Proof.
  rewrite <- segment_check. destruct (_ || _); congruence.
Qed.

Lemma elems_append_bytes value xs :
  elems (fold_left append_bytes xs value) = elems value ++ concat xs.
Proof.
  revert value. induction xs as [|x xs IH]; intros value; simpl.
  - rewrite app_nil_r. reflexivity.
  - rewrite IH, app_assoc. f_equal.
    destruct value as [v|], x; simpl; rewrite ?app_nil_r; reflexivity.
Qed.

(** The loop over segments that are all primitive OCTET STRINGs ends
    with their contents appended in order, the fuel not used up. *)
Lemma EContentValue_loop_segments segs b value fuel :
  Segments b segs [] -> Forall PrimitiveOctetString segs ->
  (length b <= fuel)%nat ->
  EContentValue_loop fuel b value
  = Ok (fold_left append_bytes (map contentOf segs) value).
Proof.
  revert b value fuel.
  induction segs as [|seg segs IH]; intros b value fuel Hs Hp Hf.
  - inversion Hs; subst. destruct fuel; reflexivity.
  - inversion Hs as [|? ? b' ? ? Hne Hu Hs']; subst.
    inversion Hp as [|? ? Hseg Hp']; subst.
    destruct fuel as [|fuel]; [destruct b; [congruence | simpl in Hf; lia]|].
    cbn [EContentValue_loop]. rewrite (len_pos b Hne), Hu. cbn [bind].
    apply segment_check in Hseg. rewrite Hseg.
    apply UnmarshalRawValue_shorter in Hu.
    apply IH; [assumption | assumption | lia].
Qed.

(** The loop stops with an error at the first segment that is not a
    primitive OCTET STRING. *)
Lemma EContentValue_loop_bad pre bad post b rest value fuel :
  Segments b (pre ++ bad :: post) rest -> Forall PrimitiveOctetString pre ->
  ~ PrimitiveOctetString bad ->
  (length b <= fuel)%nat ->
  EContentValue_loop fuel b value = Err (badDataContent bad).
Proof.
  revert b value fuel.
  induction pre as [|seg pre IH]; intros b value fuel Hs Hp Hb Hf;
    inversion Hs as [|? ? b' ? ? Hne Hu Hs']; subst;
    (destruct fuel as [|fuel];
     [destruct b; [congruence | simpl in Hf; lia]|]);
    cbn [EContentValue_loop]; rewrite (len_pos b Hne), Hu; cbn [bind].
  - rewrite (segment_check_bad bad Hb). reflexivity.
  - inversion Hp as [|? ? Hseg Hp']; subst.
    apply segment_check in Hseg. rewrite Hseg.
    apply UnmarshalRawValue_shorter in Hu.
    apply (IH b'); [assumption | assumption | assumption | lia].
Qed.

Lemma PrimitiveOctetString_dec rv :
  PrimitiveOctetString rv \/ ~ PrimitiveOctetString rv.
Proof.
  rewrite <- segment_check. destruct (_ || _); [right | left]; congruence.
Qed.

Lemma first_bad_segment segs :
  Exists (fun s => ~ PrimitiveOctetString s) segs ->
  exists pre bad post,
    segs = pre ++ bad :: post
    /\ Forall PrimitiveOctetString pre /\ ~ PrimitiveOctetString bad.
Proof.
  induction segs as [|s segs IH]; intros H; [inversion H|].
  destruct (PrimitiveOctetString_dec s) as [Hs|Hs].
  - inversion H as [? ? Hbad|? ? Hex]; subst; [contradiction|].
    destruct (IH Hex) as (pre & bad & post & -> & Hpre & Hbad).
    exists (s :: pre), bad, post. repeat split; auto.
  - exists [], s, segs. repeat split; auto.
Qed.

(** C6: [EContentValue] returns nil, without error, when the eContent
    field is absent.  When the field holds one universal OCTET STRING
    and nothing more, a primitive one gives its content bytes as they
    are; a constructed one whose content reads as a sequence of
    primitive universal OCTET STRINGs gives the concatenation of their
    contents in order; and a constructed one among whose segments one is
    constructed itself, or is not a universal OCTET STRING, gives an
    error. *)
Theorem EContentValue_spec (eci : EncapsulatedContentInfo) :
  (asn1.Bytes (EContent eci) = None -> EContentValue eci = Ok None)
  /\ (forall b octets,
        asn1.Bytes (EContent eci) = Some b ->
        asn1.UnmarshalRawValue b = Ok (octets, []) ->
        asn1.Class octets = asn1.ClassUniversal ->
        asn1.Tag octets = asn1.TagOctetString ->
        (asn1.IsCompound octets = false ->
         EContentValue eci = Ok (asn1.Bytes octets))
        /\ (asn1.IsCompound octets = true ->
            (forall segs,
               Segments (contentOf octets) segs [] ->
               Forall PrimitiveOctetString segs ->
               exists value,
                 EContentValue eci = Ok value
                 /\ elems value = concat (map contentOf segs))
            /\ (forall segs rest,
                  Segments (contentOf octets) segs rest ->
                  Exists (fun s => ~ PrimitiveOctetString s) segs ->
                  exists e, EContentValue eci = Err e))).
Proof.
  unfold EContentValue. split.
  - intros ->. reflexivity.
  - intros b octets -> Hu Hc Ht. rewrite Hu. cbn [bind].
    rewrite Hc, Ht. cbn. split.
    + intros ->. reflexivity.
    + intros ->. split.
      * intros segs Hs Hp. eexists. split.
        -- apply EContentValue_loop_segments; [exact Hs | exact Hp | lia].
        -- apply elems_append_bytes.
      * intros segs rest Hs Hex.
        destruct (first_bad_segment segs Hex)
          as (pre & bad & post & -> & Hpre & Hbad).
        eexists.
        apply (EContentValue_loop_bad pre bad post _ rest);
          [exact Hs | exact Hpre | exact Hbad | lia].
Qed.

(** C6 at work: the constructed content of [exampleConstructed]
    reassembles to the bytes [61 62]. *)
Lemma EContentValue_spec_witness :
  exists value,
    EContentValue exampleConstructed = Ok value /\ elems value = [97; 98].
Proof.
  destruct (EContentValue_spec exampleConstructed) as [_ H].
  destruct (H [36; 6; 4; 1; 97; 4; 1; 98]
              {| asn1.Class := 0; asn1.Tag := 4; asn1.IsCompound := true;
                 asn1.Bytes := Some [4; 1; 97; 4; 1; 98];
                 asn1.FullBytes := [36; 6; 4; 1; 97; 4; 1; 98] |}
              eq_refl eq_refl eq_refl eq_refl) as [_ Hc].
  destruct (Hc eq_refl) as [Hgood _].
  apply (Hgood
           [ {| asn1.Class := 0; asn1.Tag := 4; asn1.IsCompound := false;
                asn1.Bytes := Some [97]; asn1.FullBytes := [4; 1; 97] |};
             {| asn1.Class := 0; asn1.Tag := 4; asn1.IsCompound := false;
                asn1.Bytes := Some [98]; asn1.FullBytes := [4; 1; 98] |} ]).
  - eapply Segments_cons; [discriminate | reflexivity |].
    eapply Segments_cons; [discriminate | reflexivity |].
    apply Segments_nil.
  - repeat constructor.
Defined.

(** A segment that is constructed itself is rejected. *)
Example EContentValue_nested :
  EContentValue exampleNested
  = Err (Errorf "bad data content (class: %d tag: %d)" [0; 4]).
Proof. reflexivity. Qed.

(** ** Writing and reading the header of a TLV *)

Lemma land_shiftl8_byte a b : 0 <= b < 256 -> Z.land (Z.shiftl a 8) b = 0.
Proof.
  intros Hb. apply Z.bits_inj'. intros n Hn.
  rewrite Z.land_spec, Z.bits_0.
  destruct (Z.lt_ge_cases n 8) as [H|H].
  - rewrite Z.shiftl_spec_low by exact H. reflexivity.
  - destruct (Z.eq_dec b 0) as [->|Hb0].
    + rewrite Z.bits_0. apply andb_false_r.
    + rewrite (Z.bits_above_log2 b n); [apply andb_false_r | lia |].
      apply Z.lt_le_trans with 8; [|exact H].
      apply Z.log2_lt_pow2; lia.
Qed.

Lemma lor_shiftl8_byte a b :
  0 <= b < 256 -> Z.lor (Z.shiftl a 8) b = a * 256 + b.
Proof.
  intros Hb. pose proof (Z.add_lor_land (Z.shiftl a 8) b) as H.
  rewrite land_shiftl8_byte in H by exact Hb.
  rewrite Z.shiftl_mul_pow2 by lia. rewrite Z.shiftl_mul_pow2 in H by lia. change (2 ^ 8) with 256 in *. lia.
Qed.

(** A property of bytes checked on each of the 256 values. *)
Lemma byte_cases (P : Z -> bool) :
  forallb P (map Z.of_nat (seq 0 256)) = true ->
  forall b, 0 <= b < 256 -> P b = true.
Proof.
  intros H b Hb. rewrite forallb_forall in H. apply H.
  apply in_map_iff. exists (Z.to_nat b). split; [lia|].
  apply in_seq. lia.
Qed.

Lemma byte_of_range x : 0 <= byte_of x < 256.
Proof. unfold byte_of. apply Z.mod_pos_bound. lia. Qed.

Lemma appendLength_loop_app n dst i :
  asn1.appendLength_loop n dst i = dst ++ asn1.appendLength_loop n [] i.
Proof.
  revert dst. induction n as [|n IH]; intros dst; simpl.
  - rewrite app_nil_r. reflexivity.
  - rewrite IH. rewrite (IH [_]). rewrite <- app_assoc. reflexivity.
Qed.

Lemma appendLength_loop_S n i :
  asn1.appendLength_loop (S n) [] i
  = byte_of (Z.shiftr i (Z.of_nat n * 8)) :: asn1.appendLength_loop n [] i.
Proof. simpl. rewrite appendLength_loop_app. reflexivity. Qed.

(** Five length octets or more are never read through. *)
Lemma parseLength_loop_five n b1 b2 b3 b4 b5 l :
  0 <= b1 < 256 -> 0 <= b2 < 256 -> 0 <= b3 < 256 -> 0 <= b4 < 256 ->
  exists e,
    asn1.parseLength_loop (S (S (S (S (S n))))) 0
      (b1 :: b2 :: b3 :: b4 :: b5 :: l) = Err e.
Proof.
  intros H1 H2 H3 H4.
  cbn [asn1.parseLength_loop].
  change (0 >=? 8388608) with false. cbn iota.
  rewrite (lor_shiftl8_byte 0 b1 H1). 
  destruct (Z.eqb_spec (0 * 256 + b1) 0); [eauto|].
  destruct (Z.geb_spec (0 * 256 + b1) 8388608); [eauto|].
  rewrite (lor_shiftl8_byte _ b2 H2).
  destruct (Z.eqb_spec ((0 * 256 + b1) * 256 + b2) 0); [eauto|].
  destruct (Z.geb_spec ((0 * 256 + b1) * 256 + b2) 8388608); [eauto|].
  rewrite (lor_shiftl8_byte _ b3 H3).
  destruct (Z.eqb_spec (((0 * 256 + b1) * 256 + b2) * 256 + b3) 0); [eauto|].
  destruct (Z.geb_spec (((0 * 256 + b1) * 256 + b2) * 256 + b3) 8388608);
    [eauto|].
  rewrite (lor_shiftl8_byte _ b4 H4).
  destruct (Z.eqb_spec
              ((((0 * 256 + b1) * 256 + b2) * 256 + b3) * 256 + b4) 0);
    [eauto|].
  destruct (Z.geb_spec
              ((((0 * 256 + b1) * 256 + b2) * 256 + b3) * 256 + b4) 8388608);
    [eauto|].
  lia.
Qed.

Lemma lengthLength_cases n :
  0 <= n ->
  (n < 256 /\ asn1.lengthLength n = 1)
  \/ (256 <= n < 65536 /\ asn1.lengthLength n = 2)
  \/ (65536 <= n < 16777216 /\ asn1.lengthLength n = 3)
  \/ (16777216 <= n < 4294967296 /\ asn1.lengthLength n = 4)
  \/ (4294967296 <= n /\ 5 <= asn1.lengthLength n <= 9).
Proof.
  intros Hn. unfold asn1.lengthLength. cbn [asn1.lengthLength_loop].
  rewrite !Z.shiftr_shiftr by lia. rewrite !Z.shiftr_div_pow2 by lia.
  repeat match goal with
    | |- context [2 ^ ?k] =>
        let v := eval vm_compute in (2 ^ k) in change (2 ^ k) with v
    end.
  repeat match goal with
    | |- context [?a >? 255] => destruct (Z.gtb_spec a 255)
    end; Z.div_mod_to_equations; lia.
Qed.

(** The identifier octet of a tag below 31 is read back as it was
    written. *)
Lemma identifier_octet c t (comp : bool) :
  0 <= c < 4 -> 0 <= t < 31 ->
  let b0 := byte_of (Z.shiftl (byte_of c) 6) in
  let b := Z.lor (if comp then Z.lor b0 32 else b0) (byte_of t) in
  Z.shiftr b 6 = c /\ (Z.land b 32 =? 32) = comp /\ Z.land b 31 = t.
Proof.
  intros Hc Ht.
  assert (Hc' : c = 0 \/ c = 1 \/ c = 2 \/ c = 3) by lia.
  assert (Ht' : exists k, (k < 31)%nat /\ t = Z.of_nat k).
  { exists (Z.to_nat t). lia. }
  destruct Ht' as (k & Hk & ->).
  do 31 (destruct k as [|k]; [destruct comp;
    destruct Hc' as [->|[->|[->| ->]]]; vm_compute; auto|]).
  lia.
Qed.

Lemma low_byte_bits b :
  0 <= b < 128 ->
  (Z.land b 128 =? 0) = true /\ Z.land b 127 = b.
Proof.
  intros Hb.
  pose proof (byte_cases
    (fun b => (128 <=? b) || ((Z.land b 128 =? 0) && (Z.land b 127 =? b)))
    eq_refl b ltac:(lia)) as H.
  cbv beta in H. destruct (Z.leb_spec 128 b); [lia|]. simpl in H.
  apply andb_true_iff in H as [H1 H2]. apply Z.eqb_eq in H2. auto.
Qed.

Ltac length_octets :=
  rewrite ?appendLength_loop_S; cbn [asn1.appendLength_loop app];
  repeat match goal with
    | |- context [Z.of_nat ?k * 8] =>
        let v := eval vm_compute in (Z.of_nat k * 8) in
        change (Z.of_nat k * 8) with v
    end.

Ltac length_arith := unfold byte_of in *; Z.div_mod_to_equations; lia.

Ltac read_length_octets :=
  cbn [asn1.parseLength_loop]; change (0 >=? 8388608) with false;
  rewrite ?Z.shiftr_div_pow2 by lia;
  rewrite ?lor_shiftl8_byte by apply byte_of_range;
  repeat match goal with
    | |- context [2 ^ ?k] =>
        let v := eval vm_compute in (2 ^ k) in change (2 ^ k) with v
    end;
  repeat first
    [ progress cbn [bind]
    | match goal with
      | |- context [?a =? 0] => destruct (Z.eqb_spec a 0)
      | |- context [?a >=? 8388608] => destruct (Z.geb_spec a 8388608)
      | |- context [?a <? 128] => destruct (Z.ltb_spec a 128)
      end ];
  first [ solve [eauto]
        | exfalso; length_arith
        | do 2 f_equal; f_equal; length_arith ].

Lemma parseTagAndLength_appendTagAndLength c t comp n tail :
  0 <= c < 4 -> 0 <= t < 31 -> 0 <= n ->
  (n < 2147483648 ->
   asn1.parseTagAndLength
     (asn1.appendTagAndLength []
        {| asn1.tl_class := c; asn1.tl_tag := t; asn1.tl_length := n;
           asn1.tl_isCompound := comp |} ++ tail)
   = Ok ({| asn1.tl_class := c; asn1.tl_tag := t; asn1.tl_length := n;
            asn1.tl_isCompound := comp |}, tail))
  /\ (2147483648 <= n ->
      exists e,
        asn1.parseTagAndLength
          (asn1.appendTagAndLength []
             {| asn1.tl_class := c; asn1.tl_tag := t; asn1.tl_length := n;
                asn1.tl_isCompound := comp |} ++ tail) = Err e).
Proof.
  intros Hc Ht Hn.
  destruct (identifier_octet c t comp Hc Ht) as (H1 & H2 & H3).
  cbv zeta in H1, H2, H3.
  unfold asn1.appendTagAndLength.
  cbn [asn1.tl_class asn1.tl_tag asn1.tl_length asn1.tl_isCompound app].
  destruct (Z.geb_spec t 31) as [?|_]; [lia|].
  set (b := Z.lor _ (byte_of t)) in *.
  assert (Htag : (t =? 31) = false) by (apply Z.eqb_neq; lia).
  destruct (Z.geb_spec n 128) as [Hbig|Hsmall].
  - unfold asn1.appendLength. rewrite appendLength_loop_app.
    cbn [app].
    destruct (lengthLength_cases n Hn)
      as [[Hr Hl]|[[Hr Hl]|[[Hr Hl]|[[Hr Hl]|[Hr Hl]]]]].
    + (* one length octet *)
      rewrite Hl. change (Z.to_nat 1) with 1%nat. length_octets.
      unfold asn1.parseTagAndLength. rewrite H1, H2, H3, Htag. cbn [bind].
      change (Z.land (Z.lor 128 (byte_of 1)) 128 =? 0) with false.
      change (Z.land (Z.lor 128 (byte_of 1)) 127) with 1.
      change (1 =? 0) with false. change (Z.to_nat 1) with 1%nat.
      cbv iota.
      split; intros Hlim; read_length_octets.
    + (* two length octets *)
      rewrite Hl. change (Z.to_nat 2) with 2%nat. length_octets.
      unfold asn1.parseTagAndLength. rewrite H1, H2, H3, Htag. cbn [bind].
      change (Z.land (Z.lor 128 (byte_of 2)) 128 =? 0) with false.
      change (Z.land (Z.lor 128 (byte_of 2)) 127) with 2.
      change (2 =? 0) with false. change (Z.to_nat 2) with 2%nat.
      cbv iota.
      split; intros Hlim; read_length_octets.
    + (* three length octets *)
      rewrite Hl. change (Z.to_nat 3) with 3%nat. length_octets.
      unfold asn1.parseTagAndLength. rewrite H1, H2, H3, Htag. cbn [bind].
      change (Z.land (Z.lor 128 (byte_of 3)) 128 =? 0) with false.
      change (Z.land (Z.lor 128 (byte_of 3)) 127) with 3.
      change (3 =? 0) with false. change (Z.to_nat 3) with 3%nat.
      cbv iota.
      split; intros Hlim; read_length_octets.
    + (* four length octets *)
      rewrite Hl. change (Z.to_nat 4) with 4%nat. length_octets.
      unfold asn1.parseTagAndLength. rewrite H1, H2, H3, Htag. cbn [bind].
      change (Z.land (Z.lor 128 (byte_of 4)) 128 =? 0) with false.
      change (Z.land (Z.lor 128 (byte_of 4)) 127) with 4.
      change (4 =? 0) with false. change (Z.to_nat 4) with 4%nat.
      cbv iota.
      split; intros Hlim; read_length_octets.
    + (* five length octets or more: never read through *)
      split; [lia | intros _].
      assert (Hk : exists k, asn1.lengthLength n = Z.of_nat (5 + k)
                             /\ (k < 5)%nat).
      { exists (Z.to_nat (asn1.lengthLength n - 5)). lia. }
      destruct Hk as (k & Hk & Hk5). rewrite Hk.
      rewrite Nat2Z.id. cbn [Nat.add].
      rewrite !appendLength_loop_S.
      unfold asn1.parseTagAndLength. rewrite H1, H2, H3, Htag. cbn [bind].
      cbv zeta. cbn [app].
      do 5 (destruct k as [|k]; [
        match goal with
        | |- context [Z.lor 128 (byte_of (Z.of_nat ?m))] =>
            let v := eval vm_compute in (Z.lor 128 (byte_of (Z.of_nat m))) in
            change (Z.lor 128 (byte_of (Z.of_nat m))) with v
        end;
        match goal with
        | |- context [Z.land ?v 128 =? 0] =>
            change (Z.land v 128 =? 0) with false;
            let w := eval vm_compute in (Z.to_nat (Z.land v 127)) in
            change (Z.to_nat (Z.land v 127)) with w;
            change (Z.land v 127 =? 0) with false
        end;
        cbv iota;
        match goal with
        | |- context [asn1.parseLength_loop (S (S (S (S (S ?m))))) 0
                        (?b1 :: ?b2 :: ?b3 :: ?b4 :: ?b5 :: ?l)] =>
            destruct (parseLength_loop_five m b1 b2 b3 b4 b5 l
                        (byte_of_range _) (byte_of_range _)
                        (byte_of_range _) (byte_of_range _)) as [e He];
            rewrite He; cbn [bind]; eauto
        end |]).
      lia.
  - split; [intros _ | lia].
    destruct (low_byte_bits n ltac:(lia)) as [Hl1 Hl2]. cbn [app].
    unfold asn1.parseTagAndLength. rewrite H1, H2, H3, Htag. cbn [bind].
    replace (byte_of n) with n
      by (unfold byte_of; rewrite Z.mod_small; lia).
    rewrite Hl1, Hl2. reflexivity.
Qed.

Lemma len_app {A} (l1 l2 : list A) : len (l1 ++ l2) = len l1 + len l2.
Proof. unfold len. rewrite length_app. lia. Qed.

Lemma len_nonneg {A} (l : list A) : 0 <= len l.
Proof. unfold len. lia. Qed.

(** A TLV written with [encodeTLV] under a tag below 31 is read back
    whole when its content is shorter than 2^31 bytes, and is refused
    when it is not. *)
Lemma UnmarshalRawValue_encodeTLV c t comp body rest :
  0 <= c < 4 -> 0 <= t < 31 ->
  (len body < 2147483648 ->
   asn1.UnmarshalRawValue (asn1.encodeTLV c t comp body ++ rest)
   = Ok ({| asn1.Class := c; asn1.Tag := t; asn1.IsCompound := comp;
            asn1.Bytes := Some body;
            asn1.FullBytes := asn1.encodeTLV c t comp body |}, rest))
  /\ (2147483648 <= len body ->
      exists e,
        asn1.UnmarshalRawValue (asn1.encodeTLV c t comp body ++ rest)
        = Err e).
Proof.
  intros Hc Ht. unfold asn1.encodeTLV. rewrite <- app_assoc.
  destruct (parseTagAndLength_appendTagAndLength c t comp (len body)
              (body ++ rest) Hc Ht (len_nonneg body)) as [Hok Herr].
  set (hdr := asn1.appendTagAndLength [] _) in *.
  unfold asn1.UnmarshalRawValue.
  destruct (hdr ++ body ++ rest) as [|x l] eqn:E.
  - split; [|eauto]. intros Hlim. specialize (Hok Hlim). discriminate Hok.
  - split.
    + intros Hlim. rewrite (Hok Hlim). rewrite <- E. cbn [bind asn1.tl_length
        asn1.tl_class asn1.tl_tag asn1.tl_isCompound].
      destruct (Z.ltb_spec (len (body ++ rest)) (len body)) as [H|_];
        [rewrite len_app in H; pose proof (len_nonneg rest); lia|].
      unfold len. rewrite Nat2Z.id.
      rewrite firstn_app, Nat.sub_diag, firstn_all, firstn_O, app_nil_r.
      rewrite skipn_app, Nat.sub_diag, skipn_all, skipn_O. cbn [app].
      do 3 f_equal.
      replace (length (hdr ++ body ++ rest) - length (body ++ rest)
               + length body)%nat
        with (length (hdr ++ body)) by (rewrite !length_app; lia).
      rewrite app_assoc, firstn_app, Nat.sub_diag, firstn_all, firstn_O,
        app_nil_r. reflexivity.
    + intros Hlim. destruct (Herr Hlim) as [e He]. rewrite He. eauto.
Qed.

(** ** MarshaledForSigning *)




(** ** The chain loop of AddSignerInfo *)

Lemma SameButCertificates_refl sd : SameButCertificates sd sd.
Proof. repeat split. Qed.

Lemma SameButCertificates_trans sd1 sd2 sd3 :
  SameButCertificates sd1 sd2 -> SameButCertificates sd2 sd3 ->
  SameButCertificates sd1 sd3.
Proof.
  unfold SameButCertificates. intros (?&?&?&?&?) (?&?&?&?&?).
  repeat split; congruence.
Qed.

(** [addCertificate] either fails and leaves the SignedData as it was,
    or files the certificate at the end of the certificate set. *)
Lemma addCertificate_cases cert sd r sd' :
  addCertificate cert sd = (r, sd') ->
  (exists e, r = Err e /\ sd' = sd)
  \/ (r = Ok tt
      /\ SameButCertificates sd sd'
      /\ exists rv rest,
           asn1.UnmarshalRawValue (x509.Raw cert) = Ok (rv, rest)
           /\ Certificates sd' = Certificates sd ++ [rv]).
Proof.
  unfold addCertificate. destruct (existsb _ _).
  - intros [= <- <-]. left. eauto.
  - destruct (asn1.UnmarshalRawValue (x509.Raw cert)) as [[rv rest]|e].
    + intros [= <- <-]. right. split; [reflexivity|].
      split; [repeat split|]. eauto.
    + intros [= <- <-]. left. eauto.
Qed.

(** The chain loop, when it succeeds, has filed every certificate of the
    chain, in order, after the certificates there were, and has touched
    nothing else. *)
Lemma AddSignerInfo_chain_Ok pub chain cert0 sd cert sd1 :
  AddSignerInfo_chain pub chain cert0 sd = (Ok cert, sd1) ->
  SameButCertificates sd sd1
  /\ exists rvs,
       Registered chain rvs /\ Certificates sd1 = Certificates sd ++ rvs.
Proof.
  revert cert0 sd. induction chain as [|c chain IH]; intros cert0 sd.
  - intros [= <- <-]. split; [apply SameButCertificates_refl|].
    exists []. split; [constructor | symmetry; apply app_nil_r].
  - cbn [AddSignerInfo_chain]. unfold bindB at 1.
    destruct (addCertificate c sd) as [r sd0] eqn:Ea.
    apply addCertificate_cases in Ea
      as [(e & -> & ->)|(-> & Hsame & rv & rest & Hu & Hc)]; [discriminate|].
    unfold bindB at 1, lift.
    destruct (x509.MarshalPKIXPublicKey (x509.PublicKey c)) as [certPub|e];
      [|discriminate].
    intros H. apply IH in H as (Hsame' & rvs & Hreg & Hc').
    split; [eapply SameButCertificates_trans; eassumption|].
    exists (rv :: rvs). split.
    + constructor; [eauto | exact Hreg].
    + rewrite Hc', Hc, <- app_assoc. reflexivity.
Qed.

(** When the chain loop fails, what it filed before stays filed. *)
Lemma AddSignerInfo_chain_Err pub chain cert0 sd e sd1 :
  AddSignerInfo_chain pub chain cert0 sd = (Err e, sd1) ->
  SameButCertificates sd sd1
  /\ exists pre post rvs,
       chain = pre ++ post /\ Registered pre rvs
       /\ Certificates sd1 = Certificates sd ++ rvs.
Proof.
  revert cert0 sd. induction chain as [|c chain IH]; intros cert0 sd.
  - discriminate.
  - cbn [AddSignerInfo_chain]. unfold bindB at 1.
    destruct (addCertificate c sd) as [r sd0] eqn:Ea.
    apply addCertificate_cases in Ea
      as [(e' & -> & ->)|(-> & Hsame & rv & rest & Hu & Hc)].
    + intros [= <- <-]. split; [apply SameButCertificates_refl|].
      exists [], (c :: chain), []. split; [reflexivity|].
      split; [constructor | symmetry; apply app_nil_r].
    + unfold bindB at 1, lift.
      destruct (x509.MarshalPKIXPublicKey (x509.PublicKey c))
        as [certPub|e'].
      * intros H. apply IH in H as (Hsame' & pre & post & rvs & -> & Hreg & Hc').
        split; [eapply SameButCertificates_trans; eassumption|].
        exists (c :: pre), post, (rv :: rvs). split; [reflexivity|]. split.
        -- constructor; [eauto | exact Hreg].
        -- rewrite Hc', Hc, <- app_assoc. reflexivity.
      * intros [= <- <-]. split; [exact Hsame|].
        exists [c], chain, [rv]. split; [reflexivity|]. split.
        -- constructor; [eauto | constructor].
        -- exact Hc.
Qed.

(** ** AddSignerInfo, step by step *)

Section AddSignerInfoProperties.

Variable Available : crypto.Hash -> bool.
Variable Sum : crypto.Hash -> bytes -> bytes.

(** Every way a call of [AddSignerInfo] can go: the signer's key does
    not marshal and nothing is touched; the chain loop fails; a later
    step fails and the SignedData is left as the chain loop left it;
    or every step succeeds and the SignerInfo built from their results
    is appended. *)
Lemma AddSignerInfo_cases chain signer sd r sd' :
  AddSignerInfo Available Sum chain signer sd = (r, sd') ->
  (exists e,
     r = Err e
     /\ x509.MarshalPKIXPublicKey (crypto.Public signer) = Err e
     /\ sd' = sd)
  \/ exists pub,
       x509.MarshalPKIXPublicKey (crypto.Public signer) = Ok pub
       /\ ((exists e,
              r = Err e
              /\ AddSignerInfo_chain pub chain None sd = (Err e, sd'))
           \/ exists cert sd1,
                AddSignerInfo_chain pub chain None sd = (Ok cert, sd1)
                /\ ((exists e, r = Err e /\ sd' = sd1)
                    \/ (r = Ok tt
                        /\ exists c sid dOID sOID content hash
                                  mdAttr ctAttr sm sig,
                             cert = Some c
                             /\ NewIssuerAndSerialNumber c = Ok sid
                             /\ signatureAlgorithmToDigestAlgorithm
                                  (x509.SignatureAlgorithm_ c) = Some dOID
                             /\ signatureAlgorithmToSignatureAlgorithm
                                  (x509.SignatureAlgorithm_ c) = Some sOID
                             /\ EContentValue (EncapContentInfo sd1)
                                = Ok (Some content)
                             /\ Hash Available
                                  (builtSignerInfo sid dOID sOID
                                     [mdAttr; ctAttr] sig) = Ok hash
                             /\ NewAttribute oidAttributeMessageDigest
                                  (BytesValue (Sum hash content))
                                = Ok mdAttr
                             /\ NewAttribute oidAttributeContentType
                                  (OIDValue oidData) = Ok ctAttr
                             /\ MarshaledForSigning [mdAttr; ctAttr]
                                = Ok sm
                             /\ crypto.Sign signer (Sum hash sm) hash
                                = Ok sig
                             /\ sd'
                                = snd (appendSignerInfo
                                         (builtSignerInfo sid dOID sOID
                                            [mdAttr; ctAttr] sig)
                                         (snd (addDigestAlgorithm
                                                 {| pkix.Algorithm := dOID;
                                                    pkix.Parameters :=
                                                      asn1.zeroRawValue |}
                                                 sd1)))))).
Proof.
  unfold AddSignerInfo. unfold bindB at 1, lift at 1.
  destruct (x509.MarshalPKIXPublicKey (crypto.Public signer))
    as [pub|e]; [|intros [= <- <-]; left; eauto].
  intros H. right. exists pub. split; [reflexivity|].
  unfold bindB at 1 in H.
  destruct (AddSignerInfo_chain pub chain None sd) as [[cert|e] sd1];
    [|injection H as <- <-; left; eauto].
  right. exists cert, sd1. split; [reflexivity|].
  destruct cert as [c|]; [|injection H as <- <-; left; eauto].
  unfold bindB at 1, lift at 1 in H.
  destruct (NewIssuerAndSerialNumber c) as [sid|e] eqn:En;
    [|injection H as <- <-; left; eauto].
  destruct (signatureAlgorithmToDigestAlgorithm _) as [dOID|] eqn:Ed;
    [|injection H as <- <-; left; eauto].
  destruct (signatureAlgorithmToSignatureAlgorithm _) as [sOID|] eqn:Es;
    [|injection H as <- <-; left; eauto].
  unfold bindB at 1 in H.
  destruct (EContentValue (EncapContentInfo sd1)) as [[content|]|e] eqn:Ec;
    [| injection H as <- <-; left; eauto
     | injection H as <- <-; left; eauto].
  unfold bindB at 1, lift at 1 in H.
  match type of H with
  | context [Hash Available ?si] =>
      change (Hash Available si)
        with (Hash Available (builtSignerInfo sid dOID sOID [] [])) in H
  end.
  destruct (Hash Available _) as [hash|e] eqn:Eh;
    [|injection H as <- <-; left; eauto].
  unfold bindB at 1, lift at 1 in H.
  destruct (NewAttribute oidAttributeMessageDigest _) as [mdAttr|e] eqn:Em;
    [|injection H as <- <-; left; eauto].
  unfold bindB at 1, lift at 1 in H.
  destruct (NewAttribute oidAttributeContentType _) as [ctAttr|e] eqn:Et;
    [|injection H as <- <-; left; eauto].
  unfold bindB at 1, lift at 1 in H. cbn [SignedAttrs app] in H.
  destruct (MarshaledForSigning [mdAttr; ctAttr]) as [sm|e] eqn:Esm;
    [|injection H as <- <-; left; eauto].
  unfold bindB at 1, lift at 1 in H.
  destruct (crypto.Sign signer (Sum hash sm) hash) as [sig|e] eqn:Esig;
    [|injection H as <- <-; left; eauto].
  right. unfold bindB in H.
  cbn [si_Version SID si_DigestAlgorithm SignatureAlgorithm UnsignedAttrs]
    in H.
  fold (builtSignerInfo sid dOID sOID [mdAttr; ctAttr] sig) in H.
  destruct (addDigestAlgorithm _ sd1) as [[[]|e] sd2] eqn:Ea.
  - unfold appendSignerInfo in H. injection H as <- <-.
    split; [reflexivity|].
    exists c, sid, dOID, sOID, content, hash, mdAttr, ctAttr, sm, sig.
    repeat (split; [first [reflexivity | assumption | exact Eh]|]).
    rewrite Ea. reflexivity.
  - unfold addDigestAlgorithm in Ea. destruct (existsb _ _); discriminate.
Qed.

End AddSignerInfoProperties.

(** ** What AddSignerInfo signs *)



(** ** A failed AddSignerInfo *)

(** C9: a call of [AddSignerInfo] that fails appends no SignerInfo and
    adds no digest algorithm: the SignedData is as it was but for its
    certificate set.  When the failure comes after the chain loop (a
    detached content, an algorithm that is not supported, ...), the
    SignedData is left as the loop left it: every certificate of the
    chain stays filed at the end of the certificate set. *)
Theorem AddSignerInfo_failure_not_rolled_back
  (Available : crypto.Hash -> bool) (Sum : crypto.Hash -> bytes -> bytes)
  (chain : list x509.Certificate) (signer : crypto.Signer)
  (sd : SignedData) (e : error) (sd' : SignedData) :
  AddSignerInfo Available Sum chain signer sd = (Err e, sd') ->
  SignerInfos sd' = SignerInfos sd
  /\ DigestAlgorithms sd' = DigestAlgorithms sd
  /\ (forall pub cert sd1,
        x509.MarshalPKIXPublicKey (crypto.Public signer) = Ok pub ->
        AddSignerInfo_chain pub chain None sd = (Ok cert, sd1) ->
        sd' = sd1
        /\ exists rvs,
             Registered chain rvs
             /\ Certificates sd' = Certificates sd ++ rvs).
Proof.
  intros H.
  apply AddSignerInfo_cases in H
    as [(e' & _ & Hpub & ->)
       |(pub & Hpub & [(e' & _ & Hchain)|(cert & sd1 & Hchain & H)])].
  - split; [reflexivity|]. split; [reflexivity|].
    intros pub cert sd1 Hpub'. congruence.
  - pose proof (AddSignerInfo_chain_Err _ _ _ _ _ _ Hchain)
      as [(_ & Hd & _ & _ & Hs) _].
    split; [exact Hs|]. split; [exact Hd|].
    intros pub' cert sd1 Hpub' Hchain'. congruence.
  - destruct H as [(e' & _ & ->)|(H & _)]; [|discriminate].
    pose proof (AddSignerInfo_chain_Ok _ _ _ _ _ _ Hchain)
      as [(_ & Hd & _ & _ & Hs) Hreg].
    split; [exact Hs|]. split; [exact Hd|].
    intros pub' cert' sd1' Hpub' Hchain'.
    assert (pub' = pub) as -> by congruence.
    assert (sd1' = sd1) as -> by congruence.
    split; [reflexivity | exact Hreg].
Qed.

(** C9 at work: signing a detached content fails with "already
    detached", and the certificate of the chain stays filed. *)
Lemma AddSignerInfo_failure_not_rolled_back_witness :
  AddSignerInfo exampleAvailable exampleSum [exampleCert] exampleSigner
    exampleDetached
  = (Err (ErrorString "already detached"),
     {| Version := 1; DigestAlgorithms := [];
        EncapContentInfo := EncapContentInfo exampleDetached;
        Certificates := [exampleCertRawValue];
        CRLs := []; SignerInfos := [] |})
  /\ SignerInfos
       {| Version := 1; DigestAlgorithms := [];
          EncapContentInfo := EncapContentInfo exampleDetached;
          Certificates := [exampleCertRawValue];
          CRLs := []; SignerInfos := [] |}
     = SignerInfos exampleDetached.
Proof.
  assert (H : AddSignerInfo exampleAvailable exampleSum [exampleCert]
                exampleSigner exampleDetached
              = (Err (ErrorString "already detached"),
                 {| Version := 1; DigestAlgorithms := [];
                    EncapContentInfo := EncapContentInfo exampleDetached;
                    Certificates := [exampleCertRawValue];
                    CRLs := []; SignerInfos := [] |}))
    by (vm_compute; reflexivity).
  split; [exact H|].
  exact (proj1 (AddSignerInfo_failure_not_rolled_back _ _ _ _ _ _ _ H)).
Defined.

(** An unsupported algorithm fails after the chain loop as well. *)
Example AddSignerInfo_unsupported_algorithm :
  AddSignerInfo exampleAvailable exampleSum
    [{| x509.Raw := x509.Raw exampleCert;
        x509.RawIssuer := x509.RawIssuer exampleCert;
        x509.SerialNumber := 7;
        x509.PublicKey := x509.PublicKey exampleCert;
        x509.SignatureAlgorithm_ := x509.PureEd25519;
        x509.Extensions := [] |}]
    exampleSigner exampleSignedData
  = (Err (ErrorString "unsupported digest algorithm"),
     {| Version := 1; DigestAlgorithms := [];
        EncapContentInfo := exampleContent;
        Certificates := [exampleCertRawValue];
        CRLs := []; SignerInfos := [] |}).
Proof. vm_compute. reflexivity. Qed.

(** ** Certificates met twice *)






(** So it is with two calls that share a certificate. *)
Example AddSignerInfo_shared_certificate :
  Certificates
    (snd (AddSignerInfo exampleAvailable exampleSum [exampleCert]
            exampleSigner
            (snd (AddSignerInfo exampleAvailable exampleSum [exampleCert]
                    exampleSigner exampleSignedData))))
  = [exampleCertRawValue; exampleCertRawValue].
Proof. vm_compute. reflexivity. Qed.

(** The test of [addCertificate] compares the content octets of an
    entry with the whole encoding of the certificate: it never finds a
    certificate that [addCertificate] itself filed, the content of a
    TLV being shorter than the TLV. *)
Lemma addCertificate_never_finds_its_own c rv rest :
  asn1.UnmarshalRawValue (x509.Raw c) = Ok (rv, rest) ->
  bytes_Equal (elems (asn1.Bytes rv)) (x509.Raw c) = false.
Proof.
  intros H. apply bytes_Equal_neq. intros Heq.
  pose proof (UnmarshalRawValue_shorter _ _ _ H) as Hs.
  unfold asn1.UnmarshalRawValue in H.
  destruct (x509.Raw c) as [|x l] eqn:E; [discriminate|].
  destruct (asn1.parseTagAndLength (x :: l)) as [[t r]|e] eqn:Ep;
    cbn [bind] in H; [|discriminate].
  apply parseTagAndLength_shorter in Ep.
  destruct (len r <? asn1.tl_length t); [discriminate|].
  injection H as <- <-. cbn [asn1.Bytes elems] in Heq.
  assert (Hl : length (firstn (Z.to_nat (asn1.tl_length t)) r)
               = length (x :: l)) by (rewrite Heq; reflexivity).
  rewrite length_firstn in Hl. lia.
Qed.

(** ** The content-type attribute *)

(** The content-type attribute of the SignerInfo a successful
    [AddSignerInfo] appends is made of id-data, whatever the content
    type of the SignedData is. *)
Lemma AddSignerInfo_content_type_attribute
  (Available : crypto.Hash -> bool) (Sum : crypto.Hash -> bytes -> bytes)
  (chain : list x509.Certificate) (signer : crypto.Signer)
  (sd sd' : SignedData) :
  AddSignerInfo Available Sum chain signer sd = (Ok tt, sd') ->
  exists si mdAttr ctAttr,
    SignerInfos sd' = SignerInfos sd ++ [si]
    /\ SignedAttrs si = [mdAttr; ctAttr]
    /\ NewAttribute oidAttributeContentType (OIDValue oidData) = Ok ctAttr
    /\ EncapContentInfo sd' = EncapContentInfo sd.
Proof.
  intros H.
  apply AddSignerInfo_cases in H
    as [(e & He & _)|(pub & Hpub & [(e & He & _)|(cert & sd1 & Hchain & H)])];
    try discriminate.
  destruct H as [(e & He & _)|(_ & H)]; [discriminate|].
  destruct H as (c & sid & dOID & sOID & content & hash & mdAttr & ctAttr
                 & sm & sig & _ & _ & _ & _ & _ & _ & _ & Hct & _ & _ & ->).
  apply AddSignerInfo_chain_Ok in Hchain as [(_ & _ & He & _ & Hsi) _].
  exists (builtSignerInfo sid dOID sOID [mdAttr; ctAttr] sig), mdAttr, ctAttr.
  unfold appendSignerInfo, addDigestAlgorithm.
  destruct (existsb _ _); cbn [snd SignerInfos EncapContentInfo];
    repeat split; first [congruence | exact Hct].
Qed.

(** C2 fails on the code: [AddSignerInfo] on a SignedData whose content
    is of type id-ct-TSTInfo succeeds, and the one value of the
    content-type attribute of the SignerInfo it appends is the encoding
    of id-data, not that of id-ct-TSTInfo, the content type of the
    SignedData. *)
Theorem AddSignerInfo_TSTInfo_content_type_is_data :
  exists sd' si rv,
    AddSignerInfo exampleAvailable exampleSum [exampleCert] exampleSigner
      exampleTSTInfoSignedData = (Ok tt, sd')
    /\ SignerInfos sd' = [si]
    /\ EContentType (EncapContentInfo sd') = [1; 2; 840; 113549; 1; 9; 16; 1; 4]
    /\ GetOnlyAttributeValueBytes (SignedAttrs si)
         [1; 2; 840; 113549; 1; 9; 3] = Ok rv
    /\ asn1.MarshalObjectIdentifier [1; 2; 840; 113549; 1; 7; 1]
       = Ok (asn1.FullBytes rv)
    /\ asn1.MarshalObjectIdentifier [1; 2; 840; 113549; 1; 9; 16; 1; 4]
       <> Ok (asn1.FullBytes rv).
Proof.
  do 3 eexists. split; [vm_compute; reflexivity|].
  split; [reflexivity|]. split; [reflexivity|].
  split; [vm_compute; reflexivity|].
  split; [vm_compute; reflexivity|].
  vm_compute. discriminate.
Qed.

(** ** The statements at work on the examples *)

(** C3 at work: the SignedData made of a content of type id-data has
    version 1. *)
Lemma NewSignedData_version_witness :
  exists sd, NewSignedData exampleContent = Ok sd /\ Version sd = 1.
Proof.
  destruct (NewSignedData_version exampleContent) as (sd & Hnew & _ & H1 & _).
  exists sd. split; [exact Hnew | apply H1; reflexivity].
Defined.

(** Of a content of type id-ct-TSTInfo it has version 3. *)
Example NewSignedData_TSTInfo :
  NewSignedData (EncapContentInfo exampleTSTInfoSignedData)
  = Ok exampleTSTInfoSignedData.
Proof. reflexivity. Qed.

(** C5 at work: the one content-type attribute of the example has one
    value, the encoding of id-data. *)
Lemma GetOnlyAttributeValueBytes_exactly_one_witness :
  GetOnlyAttributeValueBytes exampleSignedAttrs [1; 2; 840; 113549; 1; 9; 3]
  = Ok {| asn1.Class := 0; asn1.Tag := 6; asn1.IsCompound := false;
          asn1.Bytes := Some [42; 134; 72; 134; 247; 13; 1; 7; 1];
          asn1.FullBytes := [6; 9; 42; 134; 72; 134; 247; 13; 1; 7; 1] |}.
Proof.
  destruct (GetOnlyAttributeValueBytes_exactly_one exampleSignedAttrs
              [1; 2; 840; 113549; 1; 9; 3]) as [H _].
  apply H. eexists. split; [vm_compute; reflexivity|].
  vm_compute. reflexivity.
Defined.

(** With no attribute of the OID, or with two, it fails. *)
Example GetOnlyAttributeValueBytes_none :
  GetOnlyAttributeValueBytes exampleSignedAttrs [1; 2; 840; 113549; 1; 9; 5]
  = Err (Errorf "expected 1 attribute found %d" [0]).
Proof. vm_compute. reflexivity. Qed.

Example GetOnlyAttributeValueBytes_two :
  GetOnlyAttributeValueBytes (exampleSignedAttrs ++ exampleSignedAttrs)
    [1; 2; 840; 113549; 1; 9; 3]
  = Err (Errorf "expected 1 attribute found %d" [2]).
Proof. vm_compute. reflexivity. Qed.

(** The content the constructors wrap is the content read back. *)
Example NewDataEncapsulatedContentInfo_hello :
  NewDataEncapsulatedContentInfo [104; 101; 108; 108; 111]
  = Ok exampleContent
  /\ EContentValue exampleContent = Ok (Some [104; 101; 108; 108; 111]).
Proof. split; reflexivity. Qed.

(** * Further properties *)

(** ** One TLV at the head of a longer input *)

Lemma parseBase128Int_loop_prefix shifted ret64 bs v rest :
  asn1.parseBase128Int_loop shifted ret64 bs = Ok (v, rest) ->
  exists pre,
    bs = pre ++ rest
    /\ forall tail,
         asn1.parseBase128Int_loop shifted ret64 (pre ++ tail)
         = Ok (v, tail).
Proof.
  revert shifted ret64 v rest.
  induction bs as [|b bs IH]; intros shifted ret64 v rest; [discriminate|].
  cbn [asn1.parseBase128Int_loop].
  destruct (shifted =? 5) eqn:E5; [discriminate|].
  destruct ((shifted =? 0) && (b =? 128)) eqn:E0; [discriminate|].
  destruct (Z.land b 128 =? 0) eqn:Eb.
  - destruct (_ >? asn1.MaxInt32) eqn:Em; [discriminate|].
    intros [= <- <-]. exists [b]. split; [reflexivity|].
    intros tail. cbn [app asn1.parseBase128Int_loop].
    rewrite E5, E0, Eb, Em. reflexivity.
  - intros H. apply IH in H as (pre & -> & H).
    exists (b :: pre). split; [reflexivity|].
    intros tail. cbn [app asn1.parseBase128Int_loop].
    rewrite E5, E0, Eb. apply H.
Qed.

Lemma parseLength_loop_prefix n length0 bs l rest :
  asn1.parseLength_loop n length0 bs = Ok (l, rest) ->
  exists pre,
    bs = pre ++ rest
    /\ forall tail,
         asn1.parseLength_loop n length0 (pre ++ tail) = Ok (l, tail).
Proof.
  revert length0 bs l rest.
  induction n as [|n IH]; intros length0 bs l rest;
    cbn [asn1.parseLength_loop].
  - intros [= <- <-]. exists []. split; reflexivity.
  - destruct bs as [|b bs]; [discriminate|].
    destruct (length0 >=? 8388608) eqn:E8; [discriminate|].
    destruct (_ =? 0) eqn:E0; [discriminate|].
    intros H. apply IH in H as (pre & -> & H).
    exists (b :: pre). split; [reflexivity|].
    intros tail. cbn [app]. rewrite E0. apply H.
Qed.

(** The header that [parseTagAndLength] reads does not depend on what
    follows it. *)
Lemma parseTagAndLength_prefix bs t rest :
  asn1.parseTagAndLength bs = Ok (t, rest) ->
  exists hdr,
    bs = hdr ++ rest
    /\ forall tail, asn1.parseTagAndLength (hdr ++ tail) = Ok (t, tail).
Proof.
  unfold asn1.parseTagAndLength. destruct bs as [|b bs]; [discriminate|].
  cbn zeta.
  assert (Hlen : forall tag bs,
    match bs with
    | [] => Err (SyntaxError "truncated tag or length")
    | b0 :: rest0 =>
        if Z.land b0 128 =? 0 then
          Ok ({| asn1.tl_class := Z.shiftr b 6; asn1.tl_tag := tag;
                 asn1.tl_length := Z.land b0 127;
                 asn1.tl_isCompound := Z.land b 32 =? 32 |}, rest0)
        else if Z.land b0 127 =? 0 then
          Err (SyntaxError "indefinite length found (not DER)")
        else
          let* (length, rest1) :=
            asn1.parseLength_loop (Z.to_nat (Z.land b0 127)) 0 rest0 in
          if length <? 128 then Err (StructuralError "non-minimal length")
          else Ok ({| asn1.tl_class := Z.shiftr b 6; asn1.tl_tag := tag;
                      asn1.tl_length := length;
                      asn1.tl_isCompound := Z.land b 32 =? 32 |}, rest1)
    end = Ok (t, rest) ->
    exists pre,
      bs = pre ++ rest
      /\ forall tail,
           match pre ++ tail with
           | [] => Err (SyntaxError "truncated tag or length")
           | b0 :: rest0 =>
               if Z.land b0 128 =? 0 then
                 Ok ({| asn1.tl_class := Z.shiftr b 6; asn1.tl_tag := tag;
                        asn1.tl_length := Z.land b0 127;
                        asn1.tl_isCompound := Z.land b 32 =? 32 |}, rest0)
               else if Z.land b0 127 =? 0 then
                 Err (SyntaxError "indefinite length found (not DER)")
               else
                 let* (length, rest1) :=
                   asn1.parseLength_loop (Z.to_nat (Z.land b0 127)) 0 rest0 in
                 if length <? 128 then
                   Err (StructuralError "non-minimal length")
                 else
                   Ok ({| asn1.tl_class := Z.shiftr b 6; asn1.tl_tag := tag;
                          asn1.tl_length := length;
                          asn1.tl_isCompound := Z.land b 32 =? 32 |}, rest1)
           end = Ok (t, tail)).
  { intros tag [|b0 r]; [discriminate|].
    destruct (Z.land b0 128 =? 0) eqn:E0.
    - intros [= <- <-]. exists [b0]. split; [reflexivity|].
      intros tail. cbn [app]. rewrite E0. reflexivity.
    - destruct (Z.land b0 127 =? 0) eqn:E1; [discriminate|].
      destruct (asn1.parseLength_loop _ 0 r) as [[l r']|e] eqn:El;
        cbn [bind]; [|discriminate].
      destruct (l <? 128) eqn:E2; [discriminate|].
      intros [= <- <-].
      apply parseLength_loop_prefix in El as (pre & -> & El).
      exists (b0 :: pre). split; [reflexivity|].
      intros tail. cbn [app]. rewrite E0, E1, El. cbn [bind].
      rewrite E2. reflexivity. }
  destruct (Z.land b 31 =? 31) eqn:E31.
  - unfold asn1.parseBase128Int.
    destruct (asn1.parseBase128Int_loop 0 0 bs) as [[x r]|e] eqn:Ep;
      cbn [bind]; [|discriminate].
    destruct (x <? 31) eqn:Ex; cbn [bind]; [discriminate|].
    intros H. apply Hlen in H as (pre & -> & H).
    apply parseBase128Int_loop_prefix in Ep as (pre0 & -> & Ep).
    exists (b :: pre0 ++ pre). split; [cbn [app]; rewrite app_assoc; auto|].
    intros tail. cbn [app]. rewrite E31, <- app_assoc, Ep. cbn [bind].
    rewrite Ex. cbn [bind]. apply H.
  - cbn [bind]. intros H. apply Hlen in H as (pre & -> & H).
    exists (b :: pre). split; [reflexivity|].
    intros tail. cbn [app]. rewrite E31. cbn [bind]. apply H.
Qed.

(** [UnmarshalRawValue] cuts its input in the TLV and the rest, and
    reads the TLV again from any input that starts with it. *)
Lemma UnmarshalRawValue_prefix bs rv rest :
  asn1.UnmarshalRawValue bs = Ok (rv, rest) ->
  bs = asn1.FullBytes rv ++ rest
  /\ asn1.FullBytes rv <> []
  /\ forall tail,
       asn1.UnmarshalRawValue (asn1.FullBytes rv ++ tail) = Ok (rv, tail).
Proof.
  unfold asn1.UnmarshalRawValue. destruct bs as [|b bs]; [discriminate|].
  destruct (asn1.parseTagAndLength (b :: bs)) as [[t r]|e] eqn:Ep;
    cbn [bind]; [|discriminate].
  pose proof (parseTagAndLength_shorter _ _ _ Ep) as Hsh.
  apply parseTagAndLength_prefix in Ep as (hdr & Hbs & Ep).
  rewrite Hbs.
  destruct (Z.ltb_spec (len r) (asn1.tl_length t)) as [|Hl]; [discriminate|].
  assert (Hhdr : hdr <> []).
  { intros ->. rewrite Hbs in Hsh. simpl in Hsh. lia. }
  set (n := Z.to_nat (asn1.tl_length t)).
  assert (Hn : (n <= length r)%nat) by (unfold len in Hl; lia).
  assert (Hfn : length (firstn n r) = n) by (rewrite length_firstn; lia).
  assert (Hfull : forall r', firstn n r' = firstn n r ->
                  length (firstn n r') = n ->
                  firstn (length (hdr ++ r') - length r' + n) (hdr ++ r')
                  = hdr ++ firstn n r).
  { intros r' Hr' Hlr'. rewrite length_app.
    replace (length hdr + length r' - length r' + n)%nat
      with (length hdr + n)%nat by lia.
    rewrite firstn_app_2. congruence. }
  rewrite (Hfull r eq_refl Hfn).
  intros [= <- <-]. cbn [asn1.FullBytes]. split; [|split].
  - rewrite <- app_assoc, firstn_skipn. reflexivity.
  - destruct hdr; [congruence | discriminate].
  - intros tail. rewrite <- app_assoc.
    assert (Hf' : firstn n (firstn n r ++ tail) = firstn n r).
    { rewrite firstn_app, Hfn, Nat.sub_diag, firstn_O, app_nil_r.
      rewrite <- Hfn at 1. apply firstn_all. }
    destruct (hdr ++ firstn n r ++ tail) as [|x l] eqn:E.
    + destruct hdr; [congruence | discriminate].
    + rewrite <- E, Ep. cbn [bind].
      destruct (Z.ltb_spec (len (firstn n r ++ tail)) (asn1.tl_length t))
        as [Hlt|_].
      { rewrite len_app in Hlt. unfold len in Hlt. rewrite Hfn in Hlt.
        pose proof (len_nonneg tail). unfold len in *. subst n. lia. }
      fold n. rewrite Hfull; [|exact Hf' | rewrite Hf'; exact Hfn].
      rewrite Hf'. do 2 f_equal.
      rewrite skipn_app, Hfn, Nat.sub_diag, skipn_O.
      rewrite <- Hfn at 1. rewrite skipn_all. reflexivity.
Qed.

(** ** Small facts on lengths *)

Lemma firstn_len {A} (l : list A) : firstn (Z.to_nat (len l)) l = l.
Proof. unfold len. rewrite Nat2Z.id. apply firstn_all. Qed.

Lemma skipn_len {A} (l : list A) : skipn (Z.to_nat (len l)) l = [].
Proof. unfold len. rewrite Nat2Z.id. apply skipn_all. Qed.

Lemma encodeTLV_nonempty c t comp body tail :
  asn1.encodeTLV c t comp body ++ tail <> [].
Proof.
  unfold asn1.encodeTLV, asn1.appendTagAndLength.
  cbn [asn1.tl_class asn1.tl_tag asn1.tl_length asn1.tl_isCompound].
  set (dst := if t >=? 31 then _ else _).
  intros H. apply (f_equal (@length Z)) in H. revert H.
  destruct (len body >=? 128).
  - unfold asn1.appendLength. rewrite appendLength_loop_app.
    rewrite !length_app. cbn [length]. lia.
  - rewrite !length_app. cbn [length]. lia.
Qed.

(** ** INTEGER: writing and reading a [big.Int] *)

Lemma fold_SetBytes_bigBytes_loop fuel n acc :
  0 <= n < 256 ^ Z.of_nat fuel ->
  fold_left (fun a b => a * 256 + b) (asn1.bigBytes_loop fuel n acc) 0
  = fold_left (fun a b => a * 256 + b) acc n.
Proof.
  revert n acc. induction fuel as [|fuel IH]; intros n acc Hn.
  - change (256 ^ Z.of_nat 0) with 1 in Hn. simpl.
    replace n with 0 by lia. reflexivity.
  - cbn [asn1.bigBytes_loop]. destruct (Z.leb_spec n 0) as [H0|Hpos].
    + replace n with 0 by lia. reflexivity.
    + rewrite IH.
      * cbn [fold_left]. f_equal. Z.div_mod_to_equations; lia.
      * rewrite Nat2Z.inj_succ, Z.pow_succ_r in Hn by lia.
        Z.div_mod_to_equations; lia.
Qed.

(** The digits of [bigBytes_loop] are bytes, put before [acc], and the
    first one is not zero. *)
Lemma bigBytes_loop_digits fuel n acc :
  0 <= n < 256 ^ Z.of_nat fuel ->
  exists pre,
    asn1.bigBytes_loop fuel n acc = pre ++ acc
    /\ Forall (fun b => 0 <= b < 256) pre
    /\ (n = 0 -> pre = [])
    /\ (0 < n -> exists b0 tl, pre = b0 :: tl /\ 0 < b0).
Proof.
  revert n acc. induction fuel as [|fuel IH]; intros n acc Hn.
  - change (256 ^ Z.of_nat 0) with 1 in Hn. exists []. simpl.
    repeat split; auto. lia.
  - cbn [asn1.bigBytes_loop]. destruct (Z.leb_spec n 0) as [H0|Hpos].
    + exists []. repeat split; auto. lia.
    + destruct (IH (n / 256) (n mod 256 :: acc)) as (pre & E & Hb & Hz & Hnz).
      { rewrite Nat2Z.inj_succ, Z.pow_succ_r in Hn by lia.
        Z.div_mod_to_equations; lia. }
      exists (pre ++ [n mod 256]). rewrite E, <- app_assoc.
      split; [reflexivity|]. split.
      { apply Forall_app. split; [exact Hb|].
        constructor; [|constructor]. Z.div_mod_to_equations; lia. }
      split; [lia|]. intros _.
      destruct (Z.eq_dec (n / 256) 0) as [Hq|Hq].
      * rewrite (Hz Hq). exists (n mod 256), []. split; [reflexivity|].
        Z.div_mod_to_equations; lia.
      * destruct Hnz as (b0 & tl & -> & Hb0);
          [Z.div_mod_to_equations; lia|].
        exists b0, (tl ++ [n mod 256]). split; [reflexivity | exact Hb0].
Qed.

Lemma bigBytes_fuel n :
  0 <= n -> 0 <= n < 256 ^ Z.of_nat (S (Z.to_nat (Z.log2 n))).
Proof.
  intros Hn. split; [exact Hn|].
  destruct (Z.eq_dec n 0) as [->|Hnz]; [reflexivity|].
  pose proof (Z.log2_nonneg n) as Hl.
  rewrite Nat2Z.inj_succ, Z2Nat.id by exact Hl.
  apply Z.lt_le_trans with (2 ^ Z.succ (Z.log2 n)).
  - apply Z.log2_spec. lia.
  - change 256 with (2 ^ 8). rewrite <- Z.pow_mul_r by lia.
    apply Z.pow_le_mono_r; lia.
Qed.

(** [big.Int.Bytes] of a natural number: bytes, the first one not zero,
    whose value [SetBytes] is the number. *)
Lemma bigBytes_spec n :
  0 <= n ->
  asn1.SetBytes (asn1.bigBytes n) = n
  /\ Forall (fun b => 0 <= b < 256) (asn1.bigBytes n)
  /\ (n = 0 -> asn1.bigBytes n = [])
  /\ (0 < n -> exists b0 tl, asn1.bigBytes n = b0 :: tl /\ 0 < b0).
Proof.
  intros Hn. unfold asn1.bigBytes, asn1.SetBytes.
  rewrite Z.abs_eq by exact Hn.
  pose proof (bigBytes_fuel n Hn) as Hf.
  split; [rewrite fold_SetBytes_bigBytes_loop by exact Hf; reflexivity|].
  destruct (bigBytes_loop_digits _ n [] Hf) as (pre & E & Hb & Hz & Hnz).
  rewrite E, app_nil_r. auto.
Qed.

Lemma SetBytes_cons_0 bs : asn1.SetBytes (0 :: bs) = asn1.SetBytes bs.
Proof. reflexivity. Qed.

Lemma complement_bytes bs :
  Forall (fun b => 0 <= b < 256) bs ->
  map (fun b => byte_of (Z.lnot b)) (map (fun b => Z.lxor b 255) bs) = bs.
Proof.
  induction 1 as [|b bs Hb _ IH]; [reflexivity|].
  cbn [map]. rewrite IH. f_equal.
  pose proof (byte_cases
    (fun b => byte_of (Z.lnot (Z.lxor b 255)) =? b) eq_refl b Hb) as H.
  apply Z.eqb_eq in H. exact H.
Qed.

Lemma complement_byte_bits b :
  0 < b < 256 ->
  0 <= Z.lxor b 255 < 255
  /\ (Z.land (Z.lxor b 255) 128 = 0 \/ Z.land (Z.lxor b 255) 128 = 128)
  /\ (Z.land (Z.lxor b 255) 128 = 128 -> Z.lxor b 255 <> 0).
Proof.
  intros Hb.
  pose proof (byte_cases
    (fun b => (b =? 0)
              || ((0 <=? Z.lxor b 255) && (Z.lxor b 255 <? 255)
                  && ((Z.land (Z.lxor b 255) 128 =? 0)
                      || ((Z.land (Z.lxor b 255) 128 =? 128)
                          && negb (Z.lxor b 255 =? 0)))))
    eq_refl b ltac:(lia)) as H.
  cbv beta in H. destruct (Z.eqb_spec b 0); [lia|]. cbn [orb] in H.
  apply andb_true_iff in H as [H1 H3].
  apply andb_true_iff in H1 as [H1 H2].
  apply Z.leb_le in H1. apply Z.ltb_lt in H2.
  split; [lia|].
  apply orb_true_iff in H3 as [H3|H3].
  - apply Z.eqb_eq in H3. split; [auto|]. intros; lia.
  - apply andb_true_iff in H3 as [H3 H4]. apply Z.eqb_eq in H3.
    apply negb_true_iff, Z.eqb_neq in H4. auto.
Qed.

Lemma top_bit_cases b :
  0 <= b < 256 ->
  (b < 128 /\ Z.land b 128 = 0) \/ (128 <= b /\ Z.land b 128 = 128).
Proof.
  intros Hb.
  pose proof (byte_cases
    (fun b => ((b <? 128) && (Z.land b 128 =? 0))
              || ((128 <=? b) && (Z.land b 128 =? 128)))
    eq_refl b Hb) as H.
  cbv beta in H. apply orb_true_iff in H as [H|H];
    apply andb_true_iff in H as [H1 H2]; apply Z.eqb_eq in H2.
  - left. apply Z.ltb_lt in H1. auto.
  - right. apply Z.leb_le in H1. auto.
Qed.

(** The content octets that [makeBigInt] writes are read back by
    [parseBigInt] as the same number. *)
Lemma parseBigInt_makeBigInt (n : Z) :
  asn1.parseBigInt (asn1.makeBigInt n) = Ok n.
Proof.
  unfold asn1.makeBigInt.
  destruct (Z.ltb_spec n 0) as [Hneg|Hnn].
  - (* negative: two's complement of [-n - 1] *)
    destruct (bigBytes_spec (- n - 1) ltac:(lia)) as (Hv & Hb & Hz & Hnz).
    destruct (Z.eq_dec (- n - 1) 0) as [Hm|Hm].
    + rewrite (Hz Hm). cbn [map]. replace n with (-1) by lia. reflexivity.
    + destruct Hnz as (b0 & tl & E & Hb0); [lia|].
      pose proof (complement_bytes _ Hb) as Hc.
      rewrite E in Hb, Hc, Hv. rewrite E. cbn [map] in *.
      pose proof (Forall_inv Hb) as Hb0r; cbv beta in Hb0r.
      destruct (complement_byte_bits b0 ltac:(lia)) as (Hr & [Ht|Ht] & Hnz0).
      * rewrite Ht. change (0 =? 0) with true. cbv iota.
        unfold asn1.parseBigInt, asn1.checkInteger.
        rewrite Ht. change (255 =? 0) with false.
        change (0 =? 128) with false. rewrite andb_false_r.
        cbn [orb andb bind]. change (Z.land 255 128 =? 128) with true.
        cbv iota. cbn [map]. change (byte_of (Z.lnot 255)) with 0.
        rewrite Hc, SetBytes_cons_0, Hv. f_equal. lia.
      * rewrite Ht. change (128 =? 0) with false. cbv iota.
        unfold asn1.parseBigInt.
        assert (Hck : asn1.checkInteger
                        (Z.lxor b0 255 :: map (fun b => Z.lxor b 255) tl)
                      = Ok tt).
        { unfold asn1.checkInteger.
          destruct (map _ tl); [reflexivity|].
          destruct (Z.eqb_spec (Z.lxor b0 255) 0) as [H0|_];
            [specialize (Hnz0 Ht); lia|].
          destruct (Z.eqb_spec (Z.lxor b0 255) 255) as [H0|_]; [lia|].
          reflexivity. }
        rewrite Hck. cbn [bind]. rewrite Ht. change (128 =? 128) with true.
        cbv iota. cbn [map]. rewrite Hc, Hv. f_equal. lia.
  - destruct (Z.eqb_spec n 0) as [->|Hnz]; [reflexivity|].
    destruct (bigBytes_spec n Hnn) as (Hv & Hb & _ & Hpos).
    destruct Hpos as (b0 & tl & E & Hb0); [lia|].
    rewrite E in Hb, Hv. rewrite E.
    pose proof (Forall_inv Hb) as Hb0r; cbv beta in Hb0r.
    destruct (top_bit_cases b0 Hb0r) as [[Hlt Ht]|[Hge Ht]]; rewrite Ht.
    + change (negb (0 =? 0)) with false. cbv iota.
      unfold asn1.parseBigInt.
      assert (Hck : asn1.checkInteger (b0 :: tl) = Ok tt).
      { unfold asn1.checkInteger. destruct tl; [reflexivity|].
        destruct (Z.eqb_spec b0 0) as [H0|_]; [lia|].
        destruct (Z.eqb_spec b0 255) as [H0|_]; [lia|].
        reflexivity. }
      rewrite Hck. cbn [bind]. rewrite Ht. change (0 =? 128) with false.
      cbv iota. rewrite Hv. reflexivity.
    + change (negb (128 =? 0)) with true. cbv iota.
      unfold asn1.parseBigInt, asn1.checkInteger.
      rewrite Ht. change (128 =? 0) with false. rewrite andb_false_r.
      change (0 =? 255) with false. cbn [orb andb bind].
      change (Z.land 0 128 =? 128) with false. cbv iota.
      rewrite SetBytes_cons_0, Hv. reflexivity.
Qed.

(** ** Base 128 integers: the arcs of an OBJECT IDENTIFIER *)

Lemma land_shiftl7_low a b : 0 <= b < 128 -> Z.land (Z.shiftl a 7) b = 0.
Proof.
  intros Hb. apply Z.bits_inj'. intros n Hn.
  rewrite Z.land_spec, Z.bits_0.
  destruct (Z.lt_ge_cases n 7) as [H|H].
  - rewrite Z.shiftl_spec_low by exact H. reflexivity.
  - destruct (Z.eq_dec b 0) as [->|Hb0].
    + rewrite Z.bits_0. apply andb_false_r.
    + rewrite (Z.bits_above_log2 b n); [apply andb_false_r | lia |].
      apply Z.lt_le_trans with 7; [|exact H].
      apply Z.log2_lt_pow2; lia.
Qed.

Lemma lor_shiftl7_low a b :
  0 <= b < 128 -> Z.lor (Z.shiftl a 7) b = a * 128 + b.
Proof.
  intros Hb. pose proof (Z.add_lor_land (Z.shiftl a 7) b) as H.
  rewrite land_shiftl7_low in H by exact Hb.
  rewrite Z.shiftl_mul_pow2 by lia. rewrite Z.shiftl_mul_pow2 in H by lia.
  change (2 ^ 7) with 128 in *. lia.
Qed.

(** The seven low bits of an octet. *)
Lemma land_byte_127 x : Z.land (byte_of x) 127 = x mod 128.
Proof.
  unfold byte_of. change 127 with (Z.ones 7). rewrite Z.land_ones by lia.
  change (2 ^ 7) with 128. Z.div_mod_to_equations; lia.
Qed.

(** An octet with the continuation bit. *)
Lemma continued_octet g :
  0 <= g < 128 ->
  Z.land (Z.lor g 128) 127 = g
  /\ (Z.land (Z.lor g 128) 128 =? 0) = false
  /\ (Z.lor g 128 =? 128) = (g =? 0).
Proof.
  intros Hg.
  pose proof (byte_cases
    (fun g => (128 <=? g)
              || ((Z.land (Z.lor g 128) 127 =? g)
                  && negb (Z.land (Z.lor g 128) 128 =? 0)
                  && Bool.eqb (Z.lor g 128 =? 128) (g =? 0)))
    eq_refl g ltac:(lia)) as H.
  cbv beta in H. destruct (Z.leb_spec 128 g); [lia|]. cbn [orb] in H.
  apply andb_true_iff in H as [H H3]. apply andb_true_iff in H as [H1 H2].
  apply Z.eqb_eq in H1. apply negb_true_iff in H2.
  apply Bool.eqb_prop in H3. auto.
Qed.

Lemma base128IntLength_cases n :
  0 <= n <= asn1.MaxInt32 ->
  (n < 128 /\ asn1.base128IntLength n = 1)
  \/ (128 <= n < 16384 /\ asn1.base128IntLength n = 2)
  \/ (16384 <= n < 2097152 /\ asn1.base128IntLength n = 3)
  \/ (2097152 <= n < 268435456 /\ asn1.base128IntLength n = 4)
  \/ (268435456 <= n /\ asn1.base128IntLength n = 5).
Proof.
  unfold asn1.MaxInt32. intros Hn. unfold asn1.base128IntLength.
  destruct (Z.eqb_spec n 0) as [->|Hnz]; [left; split; [lia | reflexivity]|].
  cbn [asn1.base128IntLength_loop].
  rewrite !Z.shiftr_shiftr by lia. rewrite !Z.shiftr_div_pow2 by lia.
  repeat match goal with
    | |- context [2 ^ ?k] =>
        let v := eval vm_compute in (2 ^ k) in change (2 ^ k) with v
    end.
  destruct (Z.gtb_spec n 0); [|lia].
  destruct (Z.gtb_spec (n / 128) 0);
    [|left; split; [Z.div_mod_to_equations; lia | reflexivity]].
  destruct (Z.gtb_spec (n / 16384) 0);
    [|right; left; split; [Z.div_mod_to_equations; lia | reflexivity]].
  destruct (Z.gtb_spec (n / 2097152) 0);
    [|do 2 right; left; split; [Z.div_mod_to_equations; lia | reflexivity]].
  destruct (Z.gtb_spec (n / 268435456) 0);
    [|do 3 right; left; split; [Z.div_mod_to_equations; lia | reflexivity]].
  do 4 right.
  destruct (Z.gtb_spec (n / 34359738368) 0);
    [exfalso; Z.div_mod_to_equations; lia|].
  split; [Z.div_mod_to_equations; lia | reflexivity].
Qed.

Lemma appendBase128Int_loop_app k dst n :
  asn1.appendBase128Int_loop k dst n
  = dst ++ asn1.appendBase128Int_loop k [] n.
Proof.
  revert dst. induction k as [|k IH]; intros dst;
    cbn [asn1.appendBase128Int_loop].
  - rewrite app_nil_r. reflexivity.
  - rewrite IH. rewrite (IH ([] ++ _)). rewrite <- app_assoc. reflexivity.
Qed.

Lemma appendBase128Int_app dst n :
  asn1.appendBase128Int dst n = dst ++ asn1.appendBase128Int [] n.
Proof. unfold asn1.appendBase128Int. apply appendBase128Int_loop_app. Qed.

(** The octets [appendBase128Int] writes for [n], group by group. *)
Lemma appendBase128Int_loop_S k n :
  asn1.appendBase128Int_loop (S k) [] n
  = (if negb (Z.of_nat k =? 0)
     then Z.lor ((n / 2 ^ (Z.of_nat k * 7)) mod 128) 128
     else (n / 2 ^ (Z.of_nat k * 7)) mod 128)
    :: asn1.appendBase128Int_loop k [] n.
Proof.
  cbn [asn1.appendBase128Int_loop]. rewrite appendBase128Int_loop_app.
  cbn [app]. rewrite land_byte_127, Z.shiftr_div_pow2 by lia. reflexivity.
Qed.

Ltac base128_octets :=
  rewrite ?appendBase128Int_loop_S; cbn [asn1.appendBase128Int_loop app];
  repeat match goal with
    | |- context [Z.of_nat ?k * 7] =>
        let v := eval vm_compute in (Z.of_nat k * 7) in
        change (Z.of_nat k * 7) with v
    end;
  repeat match goal with
    | |- context [Z.of_nat ?k =? 0] =>
        let v := eval vm_compute in (Z.of_nat k =? 0) in
        change (Z.of_nat k =? 0) with v
    end;
  cbn [negb];
  repeat match goal with
    | |- context [2 ^ ?k] =>
        let v := eval vm_compute in (2 ^ k) in change (2 ^ k) with v
    end.

Lemma group_range n d : 0 <= (n / d) mod 128 < 128.
Proof. apply Z.mod_pos_bound. lia. Qed.

(** One step of [parseBase128Int_loop] on an octet with the
    continuation bit. *)
Lemma parseBase128Int_loop_continued shifted ret64 g rest :
  0 <= g < 128 -> shifted <> 5 -> (shifted = 0 -> g <> 0) ->
  asn1.parseBase128Int_loop shifted ret64 (Z.lor g 128 :: rest)
  = asn1.parseBase128Int_loop (shifted + 1) (ret64 * 128 + g) rest.
Proof.
  intros Hg H5 H0. cbn [asn1.parseBase128Int_loop].
  destruct (continued_octet g Hg) as (H1 & H2 & H3).
  destruct (Z.eqb_spec shifted 5) as [|_]; [contradiction|].
  rewrite H1, H2, H3, lor_shiftl7_low by exact Hg.
  destruct (Z.eqb_spec shifted 0) as [Hs|_]; [|reflexivity].
  destruct (Z.eqb_spec g 0) as [Hg0|_]; [|reflexivity].
  exfalso. exact (H0 Hs Hg0).
Qed.

(** The last step, on an octet without it. *)
Lemma parseBase128Int_loop_last shifted ret64 g rest :
  0 <= g < 128 -> shifted <> 5 ->
  asn1.parseBase128Int_loop shifted ret64 (g :: rest)
  = if ret64 * 128 + g >? asn1.MaxInt32
    then Err (StructuralError "base 128 integer too large")
    else Ok (ret64 * 128 + g, rest).
Proof.
  intros Hg H5. cbn [asn1.parseBase128Int_loop].
  destruct (low_byte_bits g Hg) as [H1 H2].
  destruct (Z.eqb_spec shifted 5) as [|_]; [contradiction|].
  rewrite H1, H2, lor_shiftl7_low by exact Hg.
  destruct (Z.eqb_spec g 128) as [|_]; [lia|].
  rewrite andb_false_r. reflexivity.
Qed.

(** A number below 2^31 written by [appendBase128Int] is read back by
    [parseBase128Int], which stops after it. *)
Lemma parseBase128Int_appendBase128Int n tail :
  0 <= n <= asn1.MaxInt32 ->
  asn1.parseBase128Int (asn1.appendBase128Int [] n ++ tail) = Ok (n, tail).
Proof.
  intros Hn. pose proof Hn as Hn'. unfold asn1.MaxInt32 in Hn'.
  unfold asn1.parseBase128Int, asn1.appendBase128Int.
  destruct (base128IntLength_cases n Hn)
    as [[Hr Hl]|[[Hr Hl]|[[Hr Hl]|[[Hr Hl]|[Hr Hl]]]]]; rewrite Hl.
  - change (Z.to_nat 1) with 1%nat. base128_octets.
    rewrite parseBase128Int_loop_last by (try apply group_range; lia).
    destruct (Z.gtb_spec (0 * 128 + (n / 1) mod 128) asn1.MaxInt32)
      as [Hgt|_]; [unfold asn1.MaxInt32 in Hgt; Z.div_mod_to_equations; lia|].
    do 2 f_equal. Z.div_mod_to_equations; lia.
  - change (Z.to_nat 2) with 2%nat. base128_octets.
    rewrite parseBase128Int_loop_continued
      by (try apply group_range; try lia; intros _;
          Z.div_mod_to_equations; lia).
    rewrite parseBase128Int_loop_last by (try apply group_range; lia).
    match goal with
    | |- context [?v >? asn1.MaxInt32] =>
        destruct (Z.gtb_spec v asn1.MaxInt32) as [Hgt|_];
          [unfold asn1.MaxInt32 in Hgt; Z.div_mod_to_equations; lia|]
    end.
    do 2 f_equal. Z.div_mod_to_equations; lia.
  - change (Z.to_nat 3) with 3%nat. base128_octets.
    rewrite parseBase128Int_loop_continued
      by (try apply group_range; try lia; intros _;
          Z.div_mod_to_equations; lia).
    rewrite parseBase128Int_loop_continued
      by (try apply group_range; lia).
    rewrite parseBase128Int_loop_last by (try apply group_range; lia).
    match goal with
    | |- context [?v >? asn1.MaxInt32] =>
        destruct (Z.gtb_spec v asn1.MaxInt32) as [Hgt|_];
          [unfold asn1.MaxInt32 in Hgt; Z.div_mod_to_equations; lia|]
    end.
    do 2 f_equal. Z.div_mod_to_equations; lia.
  - change (Z.to_nat 4) with 4%nat. base128_octets.
    rewrite parseBase128Int_loop_continued
      by (try apply group_range; try lia; intros _;
          Z.div_mod_to_equations; lia).
    do 2 rewrite parseBase128Int_loop_continued
      by (try apply group_range; lia).
    rewrite parseBase128Int_loop_last by (try apply group_range; lia).
    match goal with
    | |- context [?v >? asn1.MaxInt32] =>
        destruct (Z.gtb_spec v asn1.MaxInt32) as [Hgt|_];
          [unfold asn1.MaxInt32 in Hgt; Z.div_mod_to_equations; lia|]
    end.
    do 2 f_equal. Z.div_mod_to_equations; lia.
  - change (Z.to_nat 5) with 5%nat. base128_octets.
    rewrite parseBase128Int_loop_continued
      by (try apply group_range; try lia; intros _;
          Z.div_mod_to_equations; lia).
    do 3 rewrite parseBase128Int_loop_continued
      by (try apply group_range; lia).
    rewrite parseBase128Int_loop_last by (try apply group_range; lia).
    match goal with
    | |- context [?v >? asn1.MaxInt32] =>
        destruct (Z.gtb_spec v asn1.MaxInt32) as [Hgt|_];
          [unfold asn1.MaxInt32 in Hgt; Z.div_mod_to_equations; lia|]
    end.
    do 2 f_equal. Z.div_mod_to_equations; lia.
Qed.

(** ** OBJECT IDENTIFIER: writing and reading *)

Lemma fold_left_appendBase128Int arcs init :
  fold_left asn1.appendBase128Int arcs init
  = init ++ concat (map (asn1.appendBase128Int []) arcs).
Proof.
  revert init. induction arcs as [|a arcs IH]; intros init; cbn.
  - rewrite app_nil_r. reflexivity.
  - rewrite IH, appendBase128Int_app, <- app_assoc. reflexivity.
Qed.

Lemma parseObjectIdentifier_loop_arcs arcs fuel :
  Forall (fun x => 0 <= x <= asn1.MaxInt32) arcs ->
  (length (concat (map (asn1.appendBase128Int []) arcs)) <= fuel)%nat ->
  asn1.parseObjectIdentifier_loop fuel
    (concat (map (asn1.appendBase128Int []) arcs)) = Ok arcs.
Proof.
  intros Harcs. revert fuel.
  induction Harcs as [|a arcs Ha _ IH]; intros fuel Hfuel.
  - destruct fuel; reflexivity.
  - cbn [map concat] in *.
    pose proof (parseBase128Int_appendBase128Int a
                  (concat (map (asn1.appendBase128Int []) arcs)) Ha) as Hp.
    pose proof (parseBase128Int_loop_shorter _ _ _ _ _ Hp) as Hsh.
    destruct fuel as [|fuel]; [lia|].
    cbn [asn1.parseObjectIdentifier_loop].
    destruct (asn1.appendBase128Int [] a ++ _) as [|x l] eqn:E;
      [simpl in Hsh; lia|].
    rewrite <- E in *. rewrite Hp. cbn [bind].
    rewrite IH by lia. reflexivity.
Qed.

(** The content octets [makeObjectIdentifier] writes for an OID with
    arcs in range are read back by [parseObjectIdentifier] as the
    OID. *)
Lemma parseObjectIdentifier_makeObjectIdentifier oid body :
  ReadableOID oid ->
  asn1.makeObjectIdentifier oid = Ok body ->
  asn1.parseObjectIdentifier body = Ok oid.
Proof.
  destruct oid as [|o0 [|o1 arcs]]; try contradiction.
  intros (H0 & H1 & Hv & Harcs). unfold asn1.makeObjectIdentifier.
  destruct (Z.gtb_spec o0 2) as [|Ho0]; [discriminate|]. cbn [orb].
  destruct (Z.ltb_spec o0 2) as [Hlt|Hge]; cbn [andb].
  - destruct (Z.geb_spec o1 40) as [|Ho1]; [discriminate|].
    intros [= <-]. rewrite fold_left_appendBase128Int.
    unfold asn1.parseObjectIdentifier.
    pose proof (parseBase128Int_appendBase128Int (o0 * 40 + o1)
                  (concat (map (asn1.appendBase128Int []) arcs))
                  ltac:(lia)) as Hp.
    pose proof (parseBase128Int_loop_shorter _ _ _ _ _ Hp) as Hsh.
    destruct (asn1.appendBase128Int [] _ ++ _) as [|x l] eqn:E;
      [simpl in Hsh; lia|].
    rewrite Hp. cbn [bind].
    rewrite parseObjectIdentifier_loop_arcs by (auto; lia). cbn [bind].
    destruct (Z.ltb_spec (o0 * 40 + o1) 80); [|lia].
    do 2 f_equal; [|f_equal]; Z.div_mod_to_equations; lia.
  - intros [= <-]. rewrite fold_left_appendBase128Int.
    unfold asn1.parseObjectIdentifier.
    pose proof (parseBase128Int_appendBase128Int (o0 * 40 + o1)
                  (concat (map (asn1.appendBase128Int []) arcs))
                  ltac:(lia)) as Hp.
    pose proof (parseBase128Int_loop_shorter _ _ _ _ _ Hp) as Hsh.
    destruct (asn1.appendBase128Int [] _ ++ _) as [|x l] eqn:E;
      [simpl in Hsh; lia|].
    rewrite Hp. cbn [bind].
    rewrite parseObjectIdentifier_loop_arcs by (auto; lia). cbn [bind].
    destruct (Z.ltb_spec (o0 * 40 + o1) 80); [lia|].
    do 2 f_equal; [|f_equal]; lia.
Qed.

(** An OBJECT IDENTIFIER written by [MarshalObjectIdentifier] and read
    as a raw value is read as the OID by [UnmarshalObjectIdentifier]. *)
Lemma UnmarshalObjectIdentifier_MarshalObjectIdentifier oid der rv rest :
  ReadableOID oid ->
  asn1.MarshalObjectIdentifier oid = Ok der ->
  asn1.UnmarshalRawValue der = Ok (rv, rest) ->
  asn1.UnmarshalObjectIdentifier (asn1.FullBytes rv) = Ok (oid, []).
Proof.
  intros Hoid. unfold asn1.MarshalObjectIdentifier.
  destruct (asn1.makeObjectIdentifier oid) as [body|e] eqn:Eb; cbn [bind];
    [|discriminate].
  intros [= <-].
  destruct (UnmarshalRawValue_encodeTLV asn1.ClassUniversal asn1.TagOID
              false body [] ltac:(unfold asn1.ClassUniversal; lia)
              ltac:(unfold asn1.TagOID; lia)) as [Hok Herr].
  rewrite app_nil_r in Hok, Herr.
  destruct (Z.lt_ge_cases (len body) 2147483648) as [Hlim|Hlim];
    [|destruct (Herr Hlim) as [e He]; rewrite He; discriminate].
  rewrite (Hok Hlim). intros [= <- <-]. cbn [asn1.FullBytes].
  unfold asn1.UnmarshalObjectIdentifier.
  pose proof (encodeTLV_nonempty asn1.ClassUniversal asn1.TagOID false
                body []) as Hne. rewrite app_nil_r in Hne.
  destruct (asn1.encodeTLV asn1.ClassUniversal asn1.TagOID false body)
    as [|x l] eqn:E; [congruence|]. rewrite <- E.
  unfold asn1.encodeTLV.
  destruct (parseTagAndLength_appendTagAndLength asn1.ClassUniversal
              asn1.TagOID false (len body) body
              ltac:(unfold asn1.ClassUniversal; lia)
              ltac:(unfold asn1.TagOID; lia) (len_nonneg body))
    as [Hhdr _].
  rewrite (Hhdr Hlim).
  cbn [bind asn1.tl_class asn1.tl_tag asn1.tl_isCompound asn1.tl_length].
  rewrite !Z.eqb_refl. cbn [negb orb].
  rewrite Z.ltb_irrefl, firstn_len, skipn_len.
  rewrite (parseObjectIdentifier_makeObjectIdentifier _ _ Hoid Eb).
  reflexivity.
Qed.

(** ** Wrapping a content and reading it back *)

Lemma EContentValue_wrapped (content : bytes)
  (contentType : asn1.ObjectIdentifier) (eci : EncapsulatedContentInfo) :
  NewEncapsulatedContentInfo content contentType = Ok eci ->
  EContentType eci = contentType
  /\ (len content < 2147483648 -> EContentValue eci = Ok (Some content))
  /\ (2147483648 <= len content -> exists e, EContentValue eci = Err e).
Proof.
  unfold NewEncapsulatedContentInfo. intros [= <-].
  split; [reflexivity|].
  unfold EContentValue, asn1.MarshalRawValue.
  cbn [EContent asn1.Bytes asn1.FullBytes asn1.Class asn1.Tag
       asn1.IsCompound elems].
  destruct (UnmarshalRawValue_encodeTLV asn1.ClassUniversal
              asn1.TagOctetString false content [])
    as [Hok Herr]; [unfold asn1.ClassUniversal; lia
                   | unfold asn1.TagOctetString; lia |].
  rewrite app_nil_r in Hok, Herr. split.
  - intros Hlim. rewrite (Hok Hlim). reflexivity.
  - intros Hlim. destruct (Herr Hlim) as [e He]. rewrite He. eauto.
Qed.

(** X1: the content wrapped by [NewEncapsulatedContentInfo] is the
    content [EContentValue] reads back, bytes for bytes and never nil,
    under the content type given, as long as it is shorter than 2^31
    bytes; a longer content is wrapped all the same, and cannot be read
    back. *)
Theorem EContentValue_NewEncapsulatedContentInfo (content : bytes)
  (contentType : asn1.ObjectIdentifier) :
  exists eci,
    NewEncapsulatedContentInfo content contentType = Ok eci
    /\ EContentType eci = contentType
    /\ (len content < 2147483648 ->
        EContentValue eci = Ok (Some content))
    /\ (2147483648 <= len content ->
        exists e, EContentValue eci = Err e).
Proof.
  destruct (NewEncapsulatedContentInfo content contentType) as [eci|e] eqn:E;
    [|discriminate E].
  exists eci. split; [reflexivity|].
  exact (EContentValue_wrapped content contentType eci E).
Qed.

(** X2: a content wrapped by [NewDataEncapsulatedContentInfo] is of
    type id-data and [DataEContent] gives it back; wrapped under any
    other type, [DataEContent] refuses it with [ErrWrongType]. *)
Theorem DataEContent_NewDataEncapsulatedContentInfo (data : bytes) :
  len data < 2147483648 ->
  (exists eci,
     NewDataEncapsulatedContentInfo data = Ok eci
     /\ IsTypeData eci = true
     /\ DataEContent eci = Ok (Some data))
  /\ (forall contentType eci,
        contentType <> [1; 2; 840; 113549; 1; 7; 1] ->
        NewEncapsulatedContentInfo data contentType = Ok eci ->
        IsTypeData eci = false /\ DataEContent eci = Err ErrWrongType).
Proof.
  intros Hlim. split.
  - unfold NewDataEncapsulatedContentInfo.
    destruct (NewEncapsulatedContentInfo data oidData) as [eci|e] eqn:E;
      [|discriminate E].
    destruct (EContentValue_wrapped data oidData eci E) as (Ht & Hok & _).
    exists eci. split; [reflexivity|].
    assert (Hd : IsTypeData eci = true).
    { unfold IsTypeData. rewrite Ht. reflexivity. }
    split; [exact Hd|]. unfold DataEContent. rewrite Hd. apply Hok, Hlim.
  - intros contentType eci Hne [= <-]. unfold DataEContent, IsTypeData.
    cbn [EContentType].
    replace (asn1.Equal contentType oidData) with false; [auto|].
    symmetry. apply Equal_neq. exact Hne.
Qed.

(** X2 at work on "hello". *)
Lemma DataEContent_NewDataEncapsulatedContentInfo_witness :
  exists eci,
    NewDataEncapsulatedContentInfo [104; 101; 108; 108; 111] = Ok eci
    /\ IsTypeData eci = true
    /\ DataEContent eci = Ok (Some [104; 101; 108; 108; 111]).
Proof.
  apply (DataEContent_NewDataEncapsulatedContentInfo
           [104; 101; 108; 108; 111]).
  reflexivity.
Defined.

(** ** What AddSignerInfo leaves alone *)

Lemma addDigestAlgorithm_cases algo sd :
  exists sd',
    addDigestAlgorithm algo sd = (Ok tt, sd')
    /\ Version sd' = Version sd
    /\ EncapContentInfo sd' = EncapContentInfo sd
    /\ Certificates sd' = Certificates sd
    /\ CRLs sd' = CRLs sd
    /\ SignerInfos sd' = SignerInfos sd
    /\ ((In (pkix.Algorithm algo)
            (map pkix.Algorithm (DigestAlgorithms sd))
         /\ DigestAlgorithms sd' = DigestAlgorithms sd)
        \/ (~ In (pkix.Algorithm algo)
                (map pkix.Algorithm (DigestAlgorithms sd))
            /\ DigestAlgorithms sd' = DigestAlgorithms sd ++ [algo])).
Proof.
  unfold addDigestAlgorithm.
  destruct (existsb _ (DigestAlgorithms sd)) eqn:E.
  - exists sd. repeat (split; [reflexivity|]). left. split; [|reflexivity].
    apply existsb_exists in E as (x & Hin & Hx). apply Equal_eq in Hx.
    rewrite <- Hx. apply in_map. exact Hin.
  - eexists. repeat (split; [reflexivity|]). right. split; [|reflexivity].
    intros Hin. apply in_map_iff in Hin as (x & Hx & Hin).
    assert (Ht : existsb
                   (fun existing =>
                      asn1.Equal (pkix.Algorithm existing)
                        (pkix.Algorithm algo))
                   (DigestAlgorithms sd) = true).
    { apply existsb_exists. exists x. split; [exact Hin|].
      apply Equal_eq. exact Hx. }
    congruence.
Qed.

(** X3: whatever its outcome, [AddSignerInfo] only appends: the version,
    the content and the CRLs are left as they were, and the
    certificates, digest algorithms and signer infos that were there
    stay in place, in front.  It appends exactly one signer info when it
    succeeds and none when it fails, and at most one digest
    algorithm. *)
Theorem AddSignerInfo_only_appends
  (Available : crypto.Hash -> bool) (Sum : crypto.Hash -> bytes -> bytes)
  (chain : list x509.Certificate) (signer : crypto.Signer)
  (sd : SignedData) (r : result unit) (sd' : SignedData) :
  AddSignerInfo Available Sum chain signer sd = (r, sd') ->
  Version sd' = Version sd
  /\ EncapContentInfo sd' = EncapContentInfo sd
  /\ CRLs sd' = CRLs sd
  /\ (exists rvs, Certificates sd' = Certificates sd ++ rvs)
  /\ (exists algos,
        DigestAlgorithms sd' = DigestAlgorithms sd ++ algos
        /\ (length algos <= 1)%nat)
  /\ (exists sis,
        SignerInfos sd' = SignerInfos sd ++ sis
        /\ (r = Ok tt -> length sis = 1%nat)
        /\ (forall e, r = Err e -> sis = [])).
Proof.
  intros H.
  apply AddSignerInfo_cases in H
    as [(e & -> & _ & ->)
       |(pub & Hpub & [(e & -> & Hchain)|(cert & sd1 & Hchain & H)])].
  - repeat (split; [reflexivity|]).
    split; [exists []; symmetry; apply app_nil_r|].
    split; [exists []; split; [symmetry; apply app_nil_r | simpl; lia]|].
    exists []. split; [symmetry; apply app_nil_r|].
    split; [discriminate | reflexivity].
  - apply AddSignerInfo_chain_Err in Hchain
      as [(Hv & Hd & He & Hc & Hs) (pre & post & rvs & _ & _ & Hcerts)].
    repeat (split; [assumption|]).
    split; [eauto|].
    split; [exists []; split; [rewrite app_nil_r; exact Hd | simpl; lia]|].
    exists []. split; [rewrite app_nil_r; exact Hs|].
    split; [discriminate | reflexivity].
  - apply AddSignerInfo_chain_Ok in Hchain
      as [(Hv & Hd & He & Hc & Hs) (rvs & _ & Hcerts)].
    destruct H as [(e & -> & ->)|(-> & H)].
    + repeat (split; [assumption|]).
      split; [eauto|].
      split; [exists []; split; [rewrite app_nil_r; exact Hd | simpl; lia]|].
      exists []. split; [rewrite app_nil_r; exact Hs|].
      split; [discriminate | reflexivity].
    + destruct H as (c & sid & dOID & sOID & content & hash & mdAttr
                     & ctAttr & sm & sig & _ & _ & _ & _ & _ & _ & _ & _
                     & _ & _ & ->).
      match goal with
      | |- context [addDigestAlgorithm ?a sd1] =>
          destruct (addDigestAlgorithm_cases a sd1)
            as (sd2 & Ha & Hv2 & He2 & Hc2 & Hcr2 & Hs2 & Hd2)
      end.
      rewrite Ha. unfold appendSignerInfo.
      cbn [snd Version EncapContentInfo CRLs Certificates DigestAlgorithms
           SignerInfos].
      split; [congruence|]. split; [congruence|]. split; [congruence|].
      split; [exists rvs; congruence|].
      split.
      * destruct Hd2 as [[_ Hd2]|[_ Hd2]]; rewrite Hd2, Hd.
        -- exists []. split; [symmetry; apply app_nil_r | simpl; lia].
        -- eexists [_]. split; [reflexivity | simpl; lia].
      * eexists [_]. rewrite Hs2, Hs. split; [reflexivity|].
        split; [reflexivity | discriminate].
Qed.

(** X3 at work on the signing of "hello". *)
Lemma AddSignerInfo_only_appends_witness :
  Version (snd (AddSignerInfo exampleAvailable exampleSum [exampleCert]
                  exampleSigner exampleSignedData))
  = Version exampleSignedData.
Proof.
  exact (proj1 (AddSignerInfo_only_appends exampleAvailable exampleSum
                  [exampleCert] exampleSigner exampleSignedData _ _
                  (surjective_pairing _))).
Defined.

(** ** The digest algorithms of a SignedData under construction *)

(** X4: the SignedData [NewSignedData] returns has its digest
    algorithms filed once each and covering its signer infos, and
    [AddSignerInfo] keeps it so whatever its outcome: two signers with
    one digest algorithm leave one entry, and no signer info is ever
    there without its digest algorithm. *)
Theorem DigestAlgorithms_cover_signers
  (Available : crypto.Hash -> bool) (Sum : crypto.Hash -> bytes -> bytes) :
  (forall eci sd, NewSignedData eci = Ok sd -> DigestAlgorithmsCoverSigners sd)
  /\ (forall chain signer sd r sd',
        DigestAlgorithmsCoverSigners sd ->
        AddSignerInfo Available Sum chain signer sd = (r, sd') ->
        DigestAlgorithmsCoverSigners sd').
Proof.
  split.
  - intros eci sd [= <-]. split; [constructor | intros si []].
  - intros chain signer sd r sd' [Hnd Hcov] H.
    unfold DigestAlgorithmsCoverSigners.
    apply AddSignerInfo_cases in H
      as [(e & -> & _ & ->)
         |(pub & Hpub & [(e & -> & Hchain)|(cert & sd1 & Hchain & H)])].
    + split; assumption.
    + apply AddSignerInfo_chain_Err in Hchain
        as [(_ & Hd & _ & _ & Hs) _].
      rewrite Hd, Hs. split; assumption.
    + apply AddSignerInfo_chain_Ok in Hchain as [(_ & Hd & _ & _ & Hs) _].
      destruct H as [(e & -> & ->)|(-> & H)].
      * rewrite Hd, Hs. split; assumption.
      * destruct H as (c & sid & dOID & sOID & content & hash & mdAttr
                       & ctAttr & sm & sig & _ & _ & _ & _ & _ & _ & _ & _
                       & _ & _ & ->).
        match goal with
        | |- context [addDigestAlgorithm ?a sd1] =>
            destruct (addDigestAlgorithm_cases a sd1)
              as (sd2 & Ha & _ & _ & _ & _ & Hs2 & Hd2)
        end.
        rewrite Ha. unfold appendSignerInfo.
        cbn [snd DigestAlgorithms SignerInfos pkix.Algorithm] in *.
        rewrite Hs2, Hs.
        destruct Hd2 as [[Hin Hd2]|[Hnin Hd2]]; rewrite Hd2, ?Hd in *.
        -- split; [exact Hnd|].
           intros si Hsi. apply in_app_or in Hsi as [Hsi|[<-|[]]].
           ++ apply Hcov, Hsi.
           ++ exact Hin.
        -- rewrite map_app. cbn [map pkix.Algorithm]. split.
           ++ apply NoDup_app. split; [exact Hnd|]. split.
              ** intros x Hx Hx'. apply list_elem_of_In in Hx, Hx'.
                 destruct Hx' as [<-|[]]. contradiction.
              ** apply NoDup_singleton.
           ++ intros si Hsi. apply in_or_app.
              apply in_app_or in Hsi as [Hsi|[<-|[]]].
              ** left. apply Hcov, Hsi.
              ** right. left. reflexivity.
Qed.

(** ** The certificate of the signer *)

(** The certificate the chain loop ends with is the last one of the
    chain with the key sought, or the one it began with when the chain
    has none. *)
Lemma AddSignerInfo_chain_cert pub chain cert0 sd cert sd1 :
  AddSignerInfo_chain pub chain cert0 sd = (Ok cert, sd1) ->
  (exists c, cert = Some c /\ LastWithKey pub chain c)
  \/ (cert = cert0
      /\ forall c,
           In c chain ->
           x509.MarshalPKIXPublicKey (x509.PublicKey c) <> Ok pub).
Proof.
  revert cert0 sd. induction chain as [|c chain IH]; intros cert0 sd.
  - intros [= <- <-]. right. split; [reflexivity | intros c []].
  - cbn [AddSignerInfo_chain]. unfold bindB at 1.
    destruct (addCertificate c sd) as [[[]|e] sd0]; [|discriminate].
    unfold bindB at 1, lift.
    destruct (x509.MarshalPKIXPublicKey (x509.PublicKey c))
      as [certPub|e] eqn:Ek; [|discriminate].
    intros H. apply IH in H as [(c2 & -> & pre & post & -> & Hk & Hpost)
                               |(-> & Hnone)].
    + left. exists c2. split; [reflexivity|].
      exists (c :: pre), post. auto.
    + destruct (bytes_Equal pub certPub) eqn:Eb.
      * apply bytes_Equal_eq in Eb. subst certPub. left. exists c.
        split; [reflexivity|]. exists [], chain. auto.
      * apply bytes_Equal_neq in Eb. right. split; [reflexivity|].
        intros c' [<-|Hin]; [congruence | auto].
Qed.

(** X5: the signer info a successful [AddSignerInfo] appends is of
    version 1 and its SID is the [NewIssuerAndSerialNumber] of the last
    certificate of the chain whose public key is the signer's.  When no
    certificate of the chain has the signer's key the call fails; and
    when the chain loop went through, it is with "No certificate
    matching signer's public key". *)
Theorem AddSignerInfo_signer_certificate
  (Available : crypto.Hash -> bool) (Sum : crypto.Hash -> bytes -> bytes)
  (chain : list x509.Certificate) (signer : crypto.Signer)
  (sd : SignedData) (pub : bytes) :
  x509.MarshalPKIXPublicKey (crypto.Public signer) = Ok pub ->
  (forall sd',
     AddSignerInfo Available Sum chain signer sd = (Ok tt, sd') ->
     exists c sid si,
       LastWithKey pub chain c
       /\ NewIssuerAndSerialNumber c = Ok sid
       /\ SignerInfos sd' = SignerInfos sd ++ [si]
       /\ si_Version si = 1
       /\ SID si = sid)
  /\ ((forall c,
         In c chain ->
         x509.MarshalPKIXPublicKey (x509.PublicKey c) <> Ok pub) ->
      forall r sd',
        AddSignerInfo Available Sum chain signer sd = (r, sd') ->
        exists e,
          r = Err e
          /\ forall cert sd1,
               AddSignerInfo_chain pub chain None sd = (Ok cert, sd1) ->
               e = ErrorString "No certificate matching signer's public key"
               /\ sd' = sd1).
Proof.
  intros Hpub. split.
  - intros sd' H.
    apply AddSignerInfo_cases in H
      as [(e & He & _)|(pub' & Hpub' & [(e & He & _)|(cert & sd1 & Hchain & H)])];
      try discriminate.
    assert (pub' = pub) as -> by congruence.
    destruct H as [(e & He & _)|(_ & H)]; [discriminate|].
    destruct H as (c & sid & dOID & sOID & content & hash & mdAttr & ctAttr
                   & sm & sig & -> & Hsid & _ & _ & _ & _ & _ & _ & _ & _
                   & ->).
    pose proof (AddSignerInfo_chain_Ok _ _ _ _ _ _ Hchain)
      as [(_ & _ & _ & _ & Hs) _].
    apply AddSignerInfo_chain_cert in Hchain
      as [(c2 & [= <-] & Hlast)|(Hc & _)]; [|discriminate].
    exists c, sid, (builtSignerInfo sid dOID sOID [mdAttr; ctAttr] sig).
    split; [exact Hlast|]. split; [exact Hsid|].
    split; [|split; reflexivity].
    unfold appendSignerInfo, addDigestAlgorithm.
    destruct (existsb _ _); cbn [snd SignerInfos]; congruence.
  - intros Hnone r sd'. unfold AddSignerInfo.
    unfold bindB at 1, lift at 1. rewrite Hpub. unfold bindB at 1.
    destruct (AddSignerInfo_chain pub chain None sd) as [[cert|e] sd1]
      eqn:Hchain.
    + apply AddSignerInfo_chain_cert in Hchain
        as [(c2 & _ & pre & post & -> & Hk & _)|(-> & _)].
      { exfalso. apply (Hnone c2); [|exact Hk].
        apply in_or_app. right. left. reflexivity. }
      intros [= <- <-]. eexists. split; [reflexivity|].
      intros cert sd1' [= <- <-]. split; reflexivity.
    + intros [= <- <-]. exists e. split; [reflexivity|]. discriminate.
Qed.

(** X5 at work: the signer info of the example names [exampleCert],
    the second certificate of the chain. *)
Lemma AddSignerInfo_signer_certificate_witness :
  exists c sid si,
    LastWithKey [1; 2; 3] [otherCert; exampleCert] c
    /\ NewIssuerAndSerialNumber c = Ok sid
    /\ SignerInfos
         (snd (AddSignerInfo exampleAvailable exampleSum
                 [otherCert; exampleCert] exampleSigner exampleSignedData))
       = SignerInfos exampleSignedData ++ [si]
    /\ si_Version si = 1
    /\ SID si = sid.
Proof.
  destruct (AddSignerInfo_signer_certificate exampleAvailable exampleSum
              [otherCert; exampleCert] exampleSigner exampleSignedData
              [1; 2; 3] eq_refl) as [H _].
  apply H. vm_compute. reflexivity.
Defined.

(** ** The algorithms of the signer info *)

(** X6: the three tables of signature algorithms agree.  An
    [x509.SignatureAlgorithm] has a digest OID exactly when it has a
    signature OID, and a SignerInfo bearing the two resolves back to it
    under [X509SignatureAlgorithm], never to the unknown algorithm; so
    does the signer info a successful [AddSignerInfo] appends, to the
    signature algorithm of the signer's certificate, and its [Hash]
    resolves. *)
Theorem signature_algorithm_tables_agree
  (Available : crypto.Hash -> bool) (Sum : crypto.Hash -> bytes -> bytes) :
  (forall a,
     signatureAlgorithmToDigestAlgorithm a = None
     <-> signatureAlgorithmToSignatureAlgorithm a = None)
  /\ (forall a d s si,
        signatureAlgorithmToDigestAlgorithm a = Some d ->
        signatureAlgorithmToSignatureAlgorithm a = Some s ->
        pkix.Algorithm (si_DigestAlgorithm si) = d ->
        pkix.Algorithm (SignatureAlgorithm si) = s ->
        X509SignatureAlgorithm si = a
        /\ a <> x509.UnknownSignatureAlgorithm
        /\ In d supportedDigests)
  /\ (forall chain signer sd sd',
        AddSignerInfo Available Sum chain signer sd = (Ok tt, sd') ->
        exists c si hash,
          In c chain
          /\ SignerInfos sd' = SignerInfos sd ++ [si]
          /\ X509SignatureAlgorithm si = x509.SignatureAlgorithm_ c
          /\ Hash Available si = Ok hash
          /\ Available hash = true).
Proof.
  assert (Htab : forall a d s si,
            signatureAlgorithmToDigestAlgorithm a = Some d ->
            signatureAlgorithmToSignatureAlgorithm a = Some s ->
            pkix.Algorithm (si_DigestAlgorithm si) = d ->
            pkix.Algorithm (SignatureAlgorithm si) = s ->
            X509SignatureAlgorithm si = a
            /\ a <> x509.UnknownSignatureAlgorithm
            /\ In d supportedDigests).
  { intros a d s si Hd Hs Hsd Hss. unfold X509SignatureAlgorithm.
    rewrite signatureAlgorithms_lookup, Hsd, Hss.
    destruct a; try discriminate; injection Hd as <-; injection Hs as <-;
      (split; [reflexivity|]); (split; [discriminate|]);
      unfold supportedDigests; simpl; tauto. }
  split; [|split].
  - intros a. destruct a; simpl; split; congruence.
  - exact Htab.
  - intros chain signer sd sd' H.
    apply AddSignerInfo_cases in H
      as [(e & He & _)|(pub & Hpub & [(e & He & _)|(cert & sd1 & Hchain & H)])];
      try discriminate.
    destruct H as [(e & He & _)|(_ & H)]; [discriminate|].
    destruct H as (c & sid & dOID & sOID & content & hash & mdAttr & ctAttr
                   & sm & sig & -> & _ & Hd & Hs & _ & Hh & _ & _ & _ & _
                   & ->).
    pose proof (AddSignerInfo_chain_Ok _ _ _ _ _ _ Hchain)
      as [(_ & _ & _ & _ & Hsi) _].
    apply AddSignerInfo_chain_cert in Hchain
      as [(c2 & [= <-] & pre & post & -> & _)|(Hc & _)]; [|discriminate].
    exists c, (builtSignerInfo sid dOID sOID [mdAttr; ctAttr] sig), hash.
    split; [apply in_or_app; right; left; reflexivity|].
    split.
    { unfold appendSignerInfo, addDigestAlgorithm.
      destruct (existsb _ _); cbn [snd SignerInfos]; congruence. }
    split; [apply (Htab _ dOID sOID); auto|].
    split; [exact Hh|].
    unfold Hash in Hh.
    destruct (digestAlgorithmToHash !! _) as [h|]; [|discriminate].
    destruct (Available h) eqn:Ea; [|discriminate].
    cbn in Hh. injection Hh as <-. exact Ea.
Qed.

(** ** The same certificate, twice *)

(** X7: [addCertificate] does not recognise a certificate it has filed
    itself: its test compares the content octets of the entries with
    the whole encoding of the certificate.  Adding, after a certificate
    was added, the same certificate again succeeds again and files it a
    second time. *)
Theorem addCertificate_twice (c : x509.Certificate) (sd sd1 : SignedData) :
  addCertificate c sd = (Ok tt, sd1) ->
  exists rv rest sd2,
    asn1.UnmarshalRawValue (x509.Raw c) = Ok (rv, rest)
    /\ Certificates sd1 = Certificates sd ++ [rv]
    /\ addCertificate c sd1 = (Ok tt, sd2)
    /\ Certificates sd2 = Certificates sd ++ [rv; rv].
Proof.
  intros H. unfold addCertificate in H.
  destruct (existsb _ (Certificates sd)) eqn:Eg; [discriminate|].
  destruct (asn1.UnmarshalRawValue (x509.Raw c)) as [[rv rest]|e] eqn:Eu;
    [|discriminate].
  injection H as <-. exists rv, rest. eexists.
  split; [reflexivity|]. split; [reflexivity|].
  unfold addCertificate. cbn [Certificates].
  rewrite existsb_app, Eg. cbn [existsb orb].
  rewrite (addCertificate_never_finds_its_own c rv rest Eu). cbn [orb].
  rewrite Eu. split; [reflexivity|]. cbn [Certificates].
  rewrite <- app_assoc. reflexivity.
Qed.

(** X7 at work on [exampleCert]. *)
Lemma addCertificate_twice_witness :
  exists rv rest sd2,
    asn1.UnmarshalRawValue (x509.Raw exampleCert) = Ok (rv, rest)
    /\ Certificates (snd (addCertificate exampleCert exampleSignedData))
       = Certificates exampleSignedData ++ [rv]
    /\ addCertificate exampleCert
         (snd (addCertificate exampleCert exampleSignedData))
       = (Ok tt, sd2)
    /\ Certificates sd2 = Certificates exampleSignedData ++ [rv; rv].
Proof.
  apply (addCertificate_twice exampleCert exampleSignedData).
  reflexivity.
Defined.

(** ** The values of an attribute *)

(** X8: [GetValues] succeeds exactly when every attribute with the OID
    decodes, and then gives the value sets of these attributes and of no
    other, in the order of the list; the first one that does not decode
    gives its error. *)
Theorem GetValues_selects (attrs : Attributes)
  (oid : asn1.ObjectIdentifier) :
  (forall vals,
     GetValues attrs oid = Ok vals
     <-> Forall2 (fun a s => Value a = Ok s) (AttributesOfType oid attrs)
           vals)
  /\ (forall e,
        GetValues attrs oid = Err e
        <-> exists pre a post,
              AttributesOfType oid attrs = pre ++ a :: post
              /\ Value a = Err e
              /\ Forall (fun a' => exists s, Value a' = Ok s) pre).
Proof.
  split; [intros vals; apply GetValues_Ok|].
  unfold AttributesOfType. intros e.
  induction attrs as [|a attrs IH]; cbn [GetValues List.filter].
  - split; [discriminate|]. intros (pre & a & post & H & _).
    destruct pre; discriminate.
  - destruct (asn1.Equal (Type_ a) oid) eqn:E.
    + apply Equal_eq in E. rewrite bool_decide_eq_true_2 by exact E.
      destruct (Value a) as [s|e1] eqn:Ev; cbn [bind].
      * assert (Htail :
          (exists pre a' post,
              a :: List.filter (fun a0 => bool_decide (Type_ a0 = oid)) attrs
              = pre ++ a' :: post
              /\ Value a' = Err e
              /\ Forall (fun a' => exists s, Value a' = Ok s) pre)
          <-> GetValues attrs oid = Err e).
        { rewrite IH. split.
          - intros (pre & a' & post & H & Hv & Hpre).
            destruct pre as [|p pre]; simpl in H; injection H as <- H.
            + congruence.
            + inversion Hpre; subst. eauto 6.
          - intros (pre & a' & post & H & Hv & Hpre).
            exists (a :: pre), a', post. simpl. rewrite H.
            split; [reflexivity|]. split; [exact Hv|].
            constructor; eauto. }
        rewrite Htail.
        destruct (GetValues attrs oid) as [vs|e2]; cbn [bind];
          split; congruence.
      * split.
        -- intros [= <-].
           exists [], a, (List.filter (fun a0 => bool_decide (Type_ a0 = oid))
                            attrs).
           split; [reflexivity|]. split; [exact Ev | constructor].
        -- intros (pre & a' & post & H & Hv & Hpre).
           destruct pre as [|p pre]; simpl in H; injection H as <- H.
           ++ congruence.
           ++ inversion Hpre as [|? ? [s Hs] _]; subst. congruence.
    + apply Equal_neq in E. rewrite bool_decide_eq_false_2 by exact E.
      exact IH.
Qed.

(** ** A successful AddSignerInfo *)

(** What a successful [AddSignerInfo] has computed and filed. *)
Lemma AddSignerInfo_success
  (Available : crypto.Hash -> bool) (Sum : crypto.Hash -> bytes -> bytes)
  (chain : list x509.Certificate) (signer : crypto.Signer)
  (sd sd' : SignedData) :
  AddSignerInfo Available Sum chain signer sd = (Ok tt, sd') ->
  exists pub c sid dOID sOID content hash mdAttr ctAttr sm sig rvs,
    x509.MarshalPKIXPublicKey (crypto.Public signer) = Ok pub
    /\ LastWithKey pub chain c
    /\ NewIssuerAndSerialNumber c = Ok sid
    /\ signatureAlgorithmToDigestAlgorithm (x509.SignatureAlgorithm_ c)
       = Some dOID
    /\ signatureAlgorithmToSignatureAlgorithm (x509.SignatureAlgorithm_ c)
       = Some sOID
    /\ EContentValue (EncapContentInfo sd) = Ok (Some content)
    /\ Hash Available (builtSignerInfo sid dOID sOID [mdAttr; ctAttr] sig)
       = Ok hash
    /\ NewAttribute oidAttributeMessageDigest (BytesValue (Sum hash content))
       = Ok mdAttr
    /\ NewAttribute oidAttributeContentType (OIDValue oidData) = Ok ctAttr
    /\ MarshaledForSigning [mdAttr; ctAttr] = Ok sm
    /\ crypto.Sign signer (Sum hash sm) hash = Ok sig
    /\ SignerInfos sd'
       = SignerInfos sd ++ [builtSignerInfo sid dOID sOID [mdAttr; ctAttr] sig]
    /\ Registered chain rvs
    /\ Certificates sd' = Certificates sd ++ rvs.
Proof.
  intros H.
  apply AddSignerInfo_cases in H
    as [(e & He & _)|(pub & Hpub & [(e & He & _)|(cert & sd1 & Hchain & H)])];
    try discriminate.
  destruct H as [(e & He & _)|(_ & H)]; [discriminate|].
  destruct H as (c & sid & dOID & sOID & content & hash & mdAttr & ctAttr
                 & sm & sig & -> & Hsid & Hd & Hs & Hcontent & Hh & Hmd & Hct
                 & Hsm & Hsig & ->).
  pose proof (AddSignerInfo_chain_Ok _ _ _ _ _ _ Hchain)
    as [(_ & _ & He & _ & Hsi) (rvs & Hreg & Hcerts)].
  apply AddSignerInfo_chain_cert in Hchain
    as [(c2 & [= <-] & Hlast)|(Hc & _)]; [|discriminate].
  exists pub, c, sid, dOID, sOID, content, hash, mdAttr, ctAttr, sm, sig, rvs.
  rewrite <- He.
  do 11 (split; [assumption|]).
  unfold appendSignerInfo, addDigestAlgorithm.
  destruct (existsb _ _); cbn [snd SignerInfos Certificates];
    (split; [congruence|]); (split; [exact Hreg | exact Hcerts]).
Qed.

(** ** The issuer and serial number of a certificate as a SID *)

(** What [NewIssuerAndSerialNumber] builds for a certificate, and what
    reading it gives. *)
Lemma NewIssuerAndSerialNumber_Ok cert sid :
  NewIssuerAndSerialNumber cert = Ok sid ->
  exists issuer rest,
    asn1.UnmarshalRawValue (x509.RawIssuer cert) = Ok (issuer, rest)
    /\ asn1.Class sid = asn1.ClassUniversal
    /\ asn1.Tag sid = asn1.TagSequence
    /\ asn1.IsCompound sid = true
    /\ asn1.Bytes sid
       = Some (asn1.FullBytes issuer
               ++ asn1.MarshalBigInt (x509.SerialNumber cert))
    /\ asn1.FullBytes sid
       = asn1.encodeTLV asn1.ClassUniversal asn1.TagSequence true
           (asn1.FullBytes issuer
            ++ asn1.MarshalBigInt (x509.SerialNumber cert))
    /\ Unmarshal_IssuerAndSerialNumber (asn1.FullBytes sid)
       = Ok ({| Issuer := issuer;
                SerialNumber := x509.SerialNumber cert |}, []).
Proof.
  unfold NewIssuerAndSerialNumber.
  destruct (asn1.UnmarshalRawValue (x509.RawIssuer cert))
    as [[issuer r0]|e] eqn:Ei; cbn [bind]; [|discriminate].
  destruct (UnmarshalRawValue_prefix _ _ _ Ei) as (_ & Hne & Hagain).
  unfold Marshal_IssuerAndSerialNumber. cbn [Issuer SerialNumber].
  assert (Hm : asn1.MarshalRawValue issuer = asn1.FullBytes issuer).
  { unfold asn1.MarshalRawValue. destruct (asn1.FullBytes issuer);
      [congruence | reflexivity]. }
  rewrite Hm.
  set (serial := x509.SerialNumber cert).
  set (body := asn1.FullBytes issuer ++ asn1.MarshalBigInt serial).
  destruct (UnmarshalRawValue_encodeTLV asn1.ClassUniversal asn1.TagSequence
              true body [] ltac:(unfold asn1.ClassUniversal; lia)
              ltac:(unfold asn1.TagSequence; lia)) as [Hok Herr].
  rewrite app_nil_r in Hok, Herr.
  destruct (Z.lt_ge_cases (len body) 2147483648) as [Hlim|Hlim];
    [|destruct (Herr Hlim) as [e He]; rewrite He; discriminate].
  rewrite (Hok Hlim). cbn [bind]. intros [= <-].
  exists issuer, r0. cbn [asn1.Class asn1.Tag asn1.IsCompound asn1.Bytes
                            asn1.FullBytes].
  repeat (split; [reflexivity|]).
  (* reading the SEQUENCE *)
  unfold Unmarshal_IssuerAndSerialNumber.
  pose proof (encodeTLV_nonempty asn1.ClassUniversal asn1.TagSequence true
                body []) as Hder. rewrite app_nil_r in Hder.
  destruct (asn1.encodeTLV asn1.ClassUniversal asn1.TagSequence true body)
    as [|x l] eqn:Eder; [congruence|]. rewrite <- Eder.
  unfold asn1.encodeTLV at 1.
  destruct (parseTagAndLength_appendTagAndLength asn1.ClassUniversal
              asn1.TagSequence true (len body) body
              ltac:(unfold asn1.ClassUniversal; lia)
              ltac:(unfold asn1.TagSequence; lia) (len_nonneg body))
    as [Hhdr _].
  rewrite (Hhdr Hlim).
  cbn [bind asn1.tl_class asn1.tl_tag asn1.tl_isCompound asn1.tl_length].
  rewrite !Z.eqb_refl. cbn [negb orb].
  rewrite Z.ltb_irrefl. rewrite firstn_len, skipn_len.
  unfold body at 1. rewrite Hagain. cbn [bind].
  (* reading the INTEGER *)
  unfold asn1.MarshalBigInt.
  set (mk := asn1.makeBigInt serial).
  pose proof (encodeTLV_nonempty asn1.ClassUniversal asn1.TagInteger false
                mk []) as Hint. rewrite app_nil_r in Hint.
  destruct (asn1.encodeTLV asn1.ClassUniversal asn1.TagInteger false mk)
    as [|x2 l2] eqn:Eint; [congruence|]. rewrite <- Eint.
  assert (Hmk : len mk < 2147483648).
  { unfold body, asn1.MarshalBigInt in Hlim. fold mk in Hlim.
    unfold asn1.encodeTLV in Hlim. rewrite !len_app in Hlim.
    pose proof (len_nonneg (asn1.FullBytes issuer)).
    pose proof (len_nonneg (asn1.appendTagAndLength []
      {| asn1.tl_class := asn1.ClassUniversal;
         asn1.tl_tag := asn1.TagInteger; asn1.tl_length := len mk;
         asn1.tl_isCompound := false |})).
    lia. }
  unfold asn1.encodeTLV.
  destruct (parseTagAndLength_appendTagAndLength asn1.ClassUniversal
              asn1.TagInteger false (len mk) mk
              ltac:(unfold asn1.ClassUniversal; lia)
              ltac:(unfold asn1.TagInteger; lia) (len_nonneg mk))
    as [Hhdr' _].
  rewrite (Hhdr' Hmk).
  cbn [bind asn1.tl_class asn1.tl_tag asn1.tl_isCompound asn1.tl_length].
  rewrite !Z.eqb_refl. cbn [negb orb].
  rewrite Z.ltb_irrefl, firstn_len. unfold mk.
  rewrite parseBigInt_makeBigInt. reflexivity.
Qed.

(** X9: the SID that [NewIssuerAndSerialNumber] makes for a certificate
    is read back by [issuerAndSerialNumberSID] as the issuer and the
    serial number of that certificate, whatever the sign and the size of
    the serial number; read as a subject key identifier it is of the
    wrong type. *)
Theorem issuerAndSerialNumberSID_NewIssuerAndSerialNumber
  (cert : x509.Certificate) (sid : asn1.RawValue) (si : SignerInfo) :
  NewIssuerAndSerialNumber cert = Ok sid ->
  SID si = sid ->
  exists issuer rest,
    asn1.UnmarshalRawValue (x509.RawIssuer cert) = Ok (issuer, rest)
    /\ issuerAndSerialNumberSID si
       = Ok {| Issuer := issuer; SerialNumber := x509.SerialNumber cert |}
    /\ subjectKeyIdentifierSID si = Err ErrWrongType.
Proof.
  intros Hnew Hsid.
  apply NewIssuerAndSerialNumber_Ok in Hnew
    as (issuer & rest & Hi & Hc & Ht & _ & _ & _ & Hread).
  exists issuer, rest. split; [exact Hi|].
  unfold issuerAndSerialNumberSID, subjectKeyIdentifierSID.
  rewrite Hsid, Hc, Ht, Hread. split; reflexivity.
Qed.

(** X9 at work on [exampleCert]. *)
Lemma issuerAndSerialNumberSID_NewIssuerAndSerialNumber_witness :
  exists issuer rest,
    asn1.UnmarshalRawValue (x509.RawIssuer exampleCert) = Ok (issuer, rest)
    /\ issuerAndSerialNumberSID exampleSignerInfoV1
       = Ok {| Issuer := issuer;
               SerialNumber := x509.SerialNumber exampleCert |}
    /\ subjectKeyIdentifierSID exampleSignerInfoV1 = Err ErrWrongType.
Proof.
  apply (issuerAndSerialNumberSID_NewIssuerAndSerialNumber exampleCert
           (SID exampleSignerInfoV1)).
  - vm_compute. reflexivity.
  - reflexivity.
Defined.

(** ** Finding the certificate of the signer again *)




(** ** The certificates of a SignedData, parsed *)

Lemma X509Certificates_loop_app
  (ParseCertificate : bytes -> result x509.Certificate) raws1 raws2 certs1 :
  X509Certificates_loop ParseCertificate raws1 = Ok certs1 ->
  X509Certificates_loop ParseCertificate (raws1 ++ raws2)
  = let* certs2 := X509Certificates_loop ParseCertificate raws2 in
    Ok (certs1 ++ certs2).
Proof.
  revert certs1. induction raws1 as [|raw raws1 IH]; intros certs1.
  - intros [= <-]. cbn [app].
    destruct (X509Certificates_loop ParseCertificate raws2); reflexivity.
  - cbn [app X509Certificates_loop].
    destruct (negb _ || negb _); [discriminate|].
    destruct (ParseCertificate (asn1.FullBytes raw)) as [cert|e];
      cbn [bind]; [|discriminate].
    destruct (X509Certificates_loop ParseCertificate raws1) as [cs|e];
      cbn [bind]; [|discriminate].
    intros [= <-]. rewrite (IH cs eq_refl).
    destruct (X509Certificates_loop ParseCertificate raws2); reflexivity.
Qed.

(** X13: after a successful [AddSignerInfo], [X509Certificates] gives
    the certificates it gave before, followed by the chain, when every
    certificate of the chain is encoded as one universal SEQUENCE that
    [x509.ParseCertificate] parses back to it. *)
Theorem X509Certificates_AddSignerInfo
  (ParseCertificate : bytes -> result x509.Certificate)
  (Available : crypto.Hash -> bool) (Sum : crypto.Hash -> bytes -> bytes)
  (chain : list x509.Certificate) (signer : crypto.Signer)
  (sd sd' : SignedData) (before : list x509.Certificate) :
  AddSignerInfo Available Sum chain signer sd = (Ok tt, sd') ->
  X509Certificates ParseCertificate sd = Ok before ->
  Forall (ParsesBack ParseCertificate) chain ->
  X509Certificates ParseCertificate sd' = Ok (before ++ chain).
Proof.
  intros H Hbefore Hchain.
  apply AddSignerInfo_success in H
    as (pub & c & sid & dOID & sOID & content & hash & mdAttr & ctAttr & sm
        & sig & rvs & _ & _ & _ & _ & _ & _ & _ & _ & _ & _ & _ & _
        & Hreg & Hcerts).
  unfold X509Certificates in *. rewrite Hcerts.
  rewrite (X509Certificates_loop_app _ _ _ _ Hbefore).
  assert (Hloop : X509Certificates_loop ParseCertificate rvs = Ok chain).
  { clear Hcerts. induction Hreg as [|x rv chain rvs [rest Hx] _ IH];
      [reflexivity|].
    apply Forall_cons_iff in Hchain as [(rv' & Hone & Hc & Ht & Hp) Hchain].
    rewrite Hone in Hx. injection Hx as <- <-.
    destruct (UnmarshalRawValue_prefix _ _ _ Hone) as (Hcut & _ & _).
    rewrite app_nil_r in Hcut.
    cbn [X509Certificates_loop]. rewrite Hc, Ht, !Z.eqb_refl.
    cbn [negb orb]. rewrite <- Hcut, Hp. cbn [bind].
    rewrite (IH Hchain). reflexivity. }
  rewrite Hloop. reflexivity.
Qed.

(** X13 at work: the chain of [otherCert] and [exampleCert] comes back
    from a SignedData that had no certificate. *)
Lemma X509Certificates_AddSignerInfo_witness :
  X509Certificates exampleParseCertificate
    (snd (AddSignerInfo exampleAvailable exampleSum [otherCert; exampleCert]
            exampleSigner exampleSignedData))
  = Ok ([] ++ [otherCert; exampleCert]).
Proof.
  apply (X509Certificates_AddSignerInfo exampleParseCertificate
           exampleAvailable exampleSum [otherCert; exampleCert]
           exampleSigner exampleSignedData).
  - vm_compute. reflexivity.
  - reflexivity.
  - constructor; [|constructor; [|constructor]].
    + exists {| asn1.Class := 0; asn1.Tag := 16; asn1.IsCompound := true;
                asn1.Bytes := Some [2; 1; 6];
                asn1.FullBytes := [48; 3; 2; 1; 6] |}.
      split; [vm_compute; reflexivity|].
      split; [reflexivity|]. split; reflexivity.
    + exists exampleCertRawValue.
      split; [vm_compute; reflexivity|].
      split; [reflexivity|]. split; reflexivity.
Defined.

(** ** Making an attribute and reading it *)

Lemma DecodeAnySet_loop_nil fuel : DecodeAnySet_loop fuel [] = Ok [].
Proof. destruct fuel; reflexivity. Qed.

Lemma GetValues_none attrs oid :
  (forall x, In x attrs -> Type_ x <> oid) -> GetValues attrs oid = Ok [].
Proof.
  induction attrs as [|x attrs IH]; intros H; [reflexivity|].
  cbn [GetValues].
  destruct (asn1.Equal (Type_ x) oid) eqn:E.
  - apply Equal_eq in E. exfalso. apply (H x); [left; reflexivity | exact E].
  - apply IH. intros y Hy. apply H. right. exact Hy.
Qed.

Lemma GetValues_app attrs1 attrs2 oid :
  GetValues (attrs1 ++ attrs2) oid
  = let* vals1 := GetValues attrs1 oid in
    let* vals2 := GetValues attrs2 oid in
    Ok (vals1 ++ vals2).
Proof.
  induction attrs1 as [|x attrs1 IH]; cbn [app GetValues bind].
  - destruct (GetValues attrs2 oid); reflexivity.
  - destruct (asn1.Equal (Type_ x) oid); [|exact IH].
    destruct (Value x) as [v|e]; cbn [bind]; [|reflexivity].
    rewrite IH.
    destruct (GetValues attrs1 oid) as [vs|e]; cbn [bind]; [|reflexivity].
    destruct (GetValues attrs2 oid); reflexivity.
Qed.

(** The attribute [NewAttribute] makes: its type, and the one value
    [Value] finds in it. *)
Lemma NewAttribute_Value typ val a :
  NewAttribute typ val = Ok a ->
  exists der rv rest,
    Marshal_AttributeValue val = Ok der
    /\ asn1.UnmarshalRawValue der = Ok (rv, rest)
    /\ Type_ a = typ
    /\ Value a = Ok (NewAnySet [rv]).
Proof.
  unfold NewAttribute.
  destruct (Marshal_AttributeValue val) as [der|e]; cbn [bind];
    [|discriminate].
  destruct (asn1.UnmarshalRawValue der) as [[rv rest]|e] eqn:Eu;
    cbn [bind]; [|discriminate].
  unfold AnySet_Encode. cbn [bind]. intros [= <-].
  exists der, rv, rest.
  split; [reflexivity|]. split; [exact Eu|]. split; [reflexivity|].
  destruct (UnmarshalRawValue_prefix _ _ _ Eu) as (_ & Hne & Hagain).
  unfold Value, DecodeAnySet.
  cbn [RawValue asn1.Bytes elems NewAnySet Elements map concat].
  assert (Hm : asn1.MarshalRawValue rv = asn1.FullBytes rv).
  { unfold asn1.MarshalRawValue. destruct (asn1.FullBytes rv);
      [congruence | reflexivity]. }
  rewrite Hm.
  destruct (asn1.FullBytes rv ++ []) as [|x l] eqn:E.
  { apply app_eq_nil in E as [E _]. congruence. }
  rewrite <- E. replace (length (asn1.FullBytes rv ++ []))
    with (S (length l)) by (rewrite E; reflexivity).
  cbn [DecodeAnySet_loop].
  rewrite len_pos by (rewrite E; discriminate).
  rewrite Hagain. cbn [bind]. rewrite DecodeAnySet_loop_nil.
  reflexivity.
Qed.

(** The only attribute of its type, holding one value, is the one
    [GetOnlyAttributeValueBytes] gives. *)
Lemma GetOnlyAttributeValueBytes_only pre a post typ rv :
  Type_ a = typ ->
  Value a = Ok (NewAnySet [rv]) ->
  (forall x, In x (pre ++ post) -> Type_ x <> typ) ->
  GetOnlyAttributeValueBytes (pre ++ a :: post) typ = Ok rv.
Proof.
  intros Htyp Hval Hothers.
  unfold GetOnlyAttributeValueBytes.
  rewrite GetValues_app.
  rewrite GetValues_none
    by (intros x Hx; apply Hothers, in_or_app; left; exact Hx).
  cbn [bind GetValues].
  assert (Ht : asn1.Equal (Type_ a) typ = true)
    by (apply Equal_eq; exact Htyp).
  rewrite Ht, Hval. cbn [bind].
  rewrite GetValues_none
    by (intros x Hx; apply Hothers, in_or_app; right; exact Hx).
  reflexivity.
Qed.



(** ** The signed attributes of the signer info *)

(** X12: the signer info a successful [AddSignerInfo] appends carries,
    as its message digest attribute, the digest of the content of the
    SignedData under the hash of the signer info, and as its content
    type attribute id-data; [GetMessageDigestAttribute] and
    [GetContentTypeAttribute] read them back. *)
Theorem AddSignerInfo_signed_attributes
  (Available : crypto.Hash -> bool) (Sum : crypto.Hash -> bytes -> bytes)
  (chain : list x509.Certificate) (signer : crypto.Signer)
  (sd sd' : SignedData) :
  AddSignerInfo Available Sum chain signer sd = (Ok tt, sd') ->
  exists si content hash,
    SignerInfos sd' = SignerInfos sd ++ [si]
    /\ EContentValue (EncapContentInfo sd) = Ok (Some content)
    /\ Hash Available si = Ok hash
    /\ GetMessageDigestAttribute si = Ok (Some (Sum hash content))
    /\ GetContentTypeAttribute si = Ok oidData.
Proof.
  intros H.
  apply AddSignerInfo_success in H
    as (pub & c & sid & dOID & sOID & content & hash & mdAttr & ctAttr & sm
        & sig & rvs & _ & _ & _ & _ & _ & Hcontent & Hh & Hmd & Hct & _ & _
        & Hsis & _).
  exists (builtSignerInfo sid dOID sOID [mdAttr; ctAttr] sig), content, hash.
  split; [exact Hsis|]. split; [exact Hcontent|]. split; [exact Hh|].
  pose proof (NewAttribute_Value _ _ _ Hmd)
    as (der & rv & rest & Hder & Hrv & Htmd & Hvmd).
  pose proof (NewAttribute_Value _ _ _ Hct)
    as (der2 & rv2 & rest2 & Hder2 & Hrv2 & Htct & Hvct).
  split.
  - unfold GetMessageDigestAttribute. cbn [builtSignerInfo SignedAttrs].
    assert (Hg : GetOnlyAttributeValueBytes [mdAttr; ctAttr]
                   oidAttributeMessageDigest = Ok rv).
    { apply (GetOnlyAttributeValueBytes_only [] mdAttr [ctAttr]);
        [exact Htmd | exact Hvmd |].
      intros x [<-|[]]. rewrite Htct. discriminate. }
    rewrite Hg. cbn [bind].
    cbn [Marshal_AttributeValue] in Hder. injection Hder as <-.
    unfold asn1.MarshalOctetString in Hrv.
    destruct (UnmarshalRawValue_encodeTLV asn1.ClassUniversal
                asn1.TagOctetString false (Sum hash content) []
                ltac:(unfold asn1.ClassUniversal; lia)
                ltac:(unfold asn1.TagOctetString; lia)) as [Hok Herr].
    rewrite app_nil_r in Hok, Herr.
    destruct (Z.lt_ge_cases (len (Sum hash content)) 2147483648)
      as [Hlim|Hlim].
    + rewrite (Hok Hlim) in Hrv. injection Hrv as <- _.
      reflexivity.
    + destruct (Herr Hlim) as [e He]. congruence.
  - unfold GetContentTypeAttribute. cbn [builtSignerInfo SignedAttrs].
    assert (Hg : GetOnlyAttributeValueBytes [mdAttr; ctAttr]
                   oidAttributeContentType = Ok rv2).
    { apply (GetOnlyAttributeValueBytes_only [mdAttr] ctAttr []);
        [exact Htct | exact Hvct |].
      intros x [<-|[]]. rewrite Htmd. discriminate. }
    rewrite Hg. cbn [bind].
    vm_compute in Hder2. injection Hder2 as <-.
    vm_compute in Hrv2. injection Hrv2 as <- _.
    vm_compute. reflexivity.
Qed.

(** X12 at work: signing "hello" with [exampleSigner]. *)
Lemma AddSignerInfo_signed_attributes_witness :
  exists si content hash,
    SignerInfos
      (snd (AddSignerInfo exampleAvailable exampleSum [exampleCert]
              exampleSigner exampleSignedData))
    = SignerInfos exampleSignedData ++ [si]
    /\ EContentValue (EncapContentInfo exampleSignedData)
       = Ok (Some content)
    /\ Hash exampleAvailable si = Ok hash
    /\ GetMessageDigestAttribute si = Ok (Some (exampleSum hash content))
    /\ GetContentTypeAttribute si = Ok oidData.
Proof.
  apply (AddSignerInfo_signed_attributes exampleAvailable exampleSum
           [exampleCert] exampleSigner exampleSignedData).
  vm_compute. reflexivity.
Defined.

(** ** The order of the attributes *)

Lemma bytes_less_irrefl a : asn1.bytes_less a a = false.
Proof.
  induction a as [|x a IH]; [reflexivity|]. cbn [asn1.bytes_less].
  rewrite Z.ltb_irrefl. exact IH.
Qed.







(** The one error of marshalling an attribute. *)
Lemma Marshal_Attribute_Err a e :
  Marshal_Attribute a = Err e ->
  e = StructuralError "invalid object identifier".
Proof.
  unfold Marshal_Attribute, asn1.MarshalObjectIdentifier,
    asn1.makeObjectIdentifier.
  destruct (Type_ a) as [|o0 [|o1 arcs]]; cbn [bind];
    try (intros [= <-]; reflexivity).
  destruct ((o0 >? 2) || (o0 <? 2) && (o1 >=? 40)); cbn [bind];
    [intros [= <-]; reflexivity | discriminate].
Qed.

Lemma Marshal_each_Err attrs e :
  Marshal_each attrs = Err e ->
  e = StructuralError "invalid object identifier".
Proof.
  induction attrs as [|a attrs IH]; cbn [Marshal_each]; [discriminate|].
  destruct (Marshal_Attribute a) as [x|e'] eqn:Ea; cbn [bind].
  - destruct (Marshal_each attrs) as [es|e'']; cbn [bind]; [discriminate|].
    intros [= <-]. apply IH. reflexivity.
  - intros [= <-]. exact (Marshal_Attribute_Err _ _ Ea).
Qed.




(** ** The content type attribute *)

(** X15: a content type attribute made by [NewAttribute] of an OID is
    read back by [GetContentTypeAttribute] as that OID, when the arcs of
    the OID are natural numbers within the range [encoding/asn1] reads
    and no other signed attribute is a content type. *)
Theorem GetContentTypeAttribute_NewAttribute
  (oid : asn1.ObjectIdentifier) (a : Attribute) (si : SignerInfo)
  (pre post : Attributes) :
  NewAttribute oidAttributeContentType (OIDValue oid) = Ok a ->
  ReadableOID oid ->
  SignedAttrs si = pre ++ a :: post ->
  (forall x, In x (pre ++ post) -> Type_ x <> oidAttributeContentType) ->
  GetContentTypeAttribute si = Ok oid.
Proof.
  intros Hnew Hoid Hattrs Hothers.
  pose proof (NewAttribute_Value _ _ _ Hnew)
    as (der & rv & rest & Hder & Hrv & Htyp & Hval).
  unfold GetContentTypeAttribute.
  rewrite Hattrs,
    (GetOnlyAttributeValueBytes_only pre a post _ rv Htyp Hval Hothers).
  cbn [bind]. cbn [Marshal_AttributeValue] in Hder.
  rewrite (UnmarshalObjectIdentifier_MarshalObjectIdentifier _ _ _ _
             Hoid Hder Hrv).
  reflexivity.
Qed.

(** X15 at work on id-ct-TSTInfo, beside a message digest attribute. *)
Lemma GetContentTypeAttribute_NewAttribute_witness :
  GetContentTypeAttribute exampleTSTInfoSignerInfo = Ok oidTSTInfo.
Proof.
  apply (GetContentTypeAttribute_NewAttribute oidTSTInfo
           exampleTSTInfoContentType exampleTSTInfoSignerInfo
           (firstn 1 exampleSignedAttrs) []).
  - vm_compute. reflexivity.
  - unfold ReadableOID, oidTSTInfo, asn1.MaxInt32.
    repeat split; try lia. repeat constructor; lia.
  - reflexivity.
  - intros x [<-|[]]. discriminate.
Defined.

(** ** The certificate set, entry by entry *)

Lemma X509Certificates_loop_cons
  (ParseCertificate : bytes -> result x509.Certificate) raw raws :
  (exists c,
     X509Entry ParseCertificate raw c
     /\ X509Certificates_loop ParseCertificate (raw :: raws)
        = let* certs := X509Certificates_loop ParseCertificate raws in
          Ok (c :: certs))
  \/ (exists e,
        X509EntryError ParseCertificate raw e
        /\ X509Certificates_loop ParseCertificate (raw :: raws) = Err e).
Proof.
  cbn [X509Certificates_loop]. unfold X509Entry, X509EntryError.
  destruct (Z.eqb_spec (asn1.Class raw) asn1.ClassUniversal) as [Hc|Hc];
    cbn [negb orb].
  - destruct (Z.eqb_spec (asn1.Tag raw) asn1.TagSequence) as [Ht|Ht];
      cbn [negb].
    + destruct (ParseCertificate (asn1.FullBytes raw)) as [c|e] eqn:Ep;
        cbn [bind].
      * left. exists c. auto.
      * right. exists e. split; [right; auto | reflexivity].
    + right. eexists. split; [left; split; [auto | reflexivity]|].
      reflexivity.
  - right. eexists. split; [left; split; [auto | reflexivity]|].
    reflexivity.
Qed.

Lemma X509Entry_not_error ParseCertificate raw c e :
  X509Entry ParseCertificate raw c ->
  X509EntryError ParseCertificate raw e -> False.
Proof.
  intros (Hc & Ht & Hp) [([Hc'|Ht'] & _)|(_ & _ & Hp')]; congruence.
Qed.

(** X16: [X509Certificates] succeeds exactly when every entry of the
    certificate set is a universal SEQUENCE that [x509.ParseCertificate]
    parses, and gives the parsed certificates in the order of the set
    (none for an empty set); otherwise its error is that of the first
    entry that is not: "Unsupported certificate type" with the class and
    the tag of the entry, or the error of the parser. *)
Theorem X509Certificates_entries
  (ParseCertificate : bytes -> result x509.Certificate) (sd : SignedData) :
  (forall certs,
     X509Certificates ParseCertificate sd = Ok certs
     <-> Forall2 (X509Entry ParseCertificate) (Certificates sd) certs)
  /\ (forall e,
        X509Certificates ParseCertificate sd = Err e
        <-> exists pre raw post cs,
              Certificates sd = pre ++ raw :: post
              /\ Forall2 (X509Entry ParseCertificate) pre cs
              /\ X509EntryError ParseCertificate raw e).
Proof.
  unfold X509Certificates. generalize (Certificates sd) as raws.
  intros raws. split.
  - induction raws as [|raw raws IH]; intros certs.
    + cbn [X509Certificates_loop]. split.
      * intros [= <-]. constructor.
      * intros H. inversion H. reflexivity.
    + destruct (X509Certificates_loop_cons ParseCertificate raw raws)
        as [(c & Hc & ->)|(e & He & ->)].
      * destruct (X509Certificates_loop ParseCertificate raws) as [cs|e]
          eqn:El; cbn [bind].
        -- split.
           ++ intros [= <-]. constructor; [exact Hc|]. apply IH.
              reflexivity.
           ++ intros H. inversion H as [|? c' ? cs' Hc' Hrest]; subst.
              apply IH in Hrest. injection Hrest as <-.
              destruct Hc as (_ & _ & Hp), Hc' as (_ & _ & Hp').
              congruence.
        -- split; [discriminate|].
           intros H. inversion H as [|? c' ? cs' Hc' Hrest]; subst.
           apply IH in Hrest. discriminate.
      * split; [discriminate|].
        intros H. inversion H as [|? c' ? cs' Hc' Hrest]; subst.
        exfalso. exact (X509Entry_not_error _ _ _ _ Hc' He).
  - induction raws as [|raw raws IH]; intros e.
    + cbn [X509Certificates_loop]. split; [discriminate|].
      intros (pre & raw & post & cs & H & _). destruct pre; discriminate.
    + destruct (X509Certificates_loop_cons ParseCertificate raw raws)
        as [(c & Hc & ->)|(e' & He & ->)].
      * assert (Htail :
          (exists pre raw0 post cs,
             raw :: raws = pre ++ raw0 :: post
             /\ Forall2 (X509Entry ParseCertificate) pre cs
             /\ X509EntryError ParseCertificate raw0 e)
          <-> X509Certificates_loop ParseCertificate raws = Err e).
        { rewrite IH. split.
          - intros (pre & raw0 & post & cs & H & Hpre & Herr).
            destruct pre as [|p pre]; cbn [app] in H; injection H as <- H.
            + exfalso. exact (X509Entry_not_error _ _ _ _ Hc Herr).
            + inversion Hpre as [|? c' ? cs' _ Hpre']; subst.
              exists pre, raw0, post, cs'. auto.
          - intros (pre & raw0 & post & cs & -> & Hpre & Herr).
            exists (raw :: pre), raw0, post, (c :: cs).
            split; [reflexivity|]. split; [constructor; assumption|].
            exact Herr. }
        rewrite Htail.
        destruct (X509Certificates_loop ParseCertificate raws) as [cs|e2];
          cbn [bind]; split; congruence.
      * split.
        -- intros [= <-]. exists [], raw, raws, [].
           split; [reflexivity|]. split; [constructor | exact He].
        -- intros (pre & raw0 & post & cs & H & Hpre & Herr).
           destruct pre as [|p pre]; cbn [app] in H; injection H as <- H.
           ++ destruct He as [(Hne & ->)|(Hc1 & Ht1 & Hp1)],
                Herr as [(Hne' & ->)|(Hc2 & Ht2 & Hp2)];
                try reflexivity; try congruence;
                destruct Hne as [?|?] || destruct Hne' as [?|?];
                congruence.
           ++ inversion Hpre as [|? c' ? cs' Hc' _]; subst.
              exfalso. exact (X509Entry_not_error _ _ _ _ Hc' He).
Qed.
